(** * pollenpusher (cdrgenerator): record production and channel lifecycle

    A shallow embedding of the Go packages [format], [format/viper],
    [format/vesta], [generator] and [output], followed by the properties
    of the specification that are settled against it.

    Conventions of the embedding:
    - Go [string] is [string] (a sequence of bytes); [int], [int64] and
      [time.Duration] are [Z], with the 64-bit wrap-around written out
      where the code can reach it; [float64] is the primitive binary64
      [float];
    - a Go function that can panic returns [option] ([None] is the panic);
      a function returning [(T, error)] returns [result T];
    - mutable receivers are threaded explicitly: a method returns the new
      receiver next to its result;
    - what the Go runtime and standard library decide (the pseudo-random
      algorithm, time and float formatting, the clock, the file system) is
      a parameter, collected in the class [GoRuntime] or passed as an
      argument. *)

From Stdlib Require Import ZArith List String Ascii Bool Floats Lia DecimalString DecimalN.
From Stdlib Require Uint63.
From stdpp Require Import base option list gmap strings sorting.

Local Open Scope Z_scope.

(* Decimal float literals denote the nearest binary64, as in Go. *)
#[local] Set Warnings "-inexact-float".

(** ** Results and panics *)

Inductive result (A : Type) : Type :=
| Ok (a : A)
| Err (msg : string).
Arguments Ok {A} a.
Arguments Err {A} msg.

Definition is_ok {A} (r : result A) : bool :=
  match r with Ok _ => true | Err _ => false end.

(** ** 64-bit integers *)

Definition minInt64 : Z := - 2 ^ 63.
Definition maxInt64 : Z := 2 ^ 63 - 1.

Definition wrap64 (z : Z) : Z := (z + 2 ^ 63) mod 2 ^ 64 - 2 ^ 63.

Definition inInt64 (z : Z) : bool := (minInt64 <=? z) && (z <=? maxInt64).

(** ** Package [strings] (the functions the program calls)

    The functions below act on bytes.  Go's versions are Unicode aware;
    they agree with these on ASCII text, which is what the protocols and
    the configuration names consist of. *)

Module gostrings.

Definition isUpper (c : ascii) : bool :=
    let n := nat_of_ascii c in (65 <=? n)%nat && (n <=? 90)%nat.
Definition isLower (c : ascii) : bool :=
    let n := nat_of_ascii c in (97 <=? n)%nat && (n <=? 122)%nat.

Definition toLowerByte (c : ascii) : ascii :=
    if isUpper c then ascii_of_nat (nat_of_ascii c + 32) else c.
Definition toUpperByte (c : ascii) : ascii :=
    if isLower c then ascii_of_nat (nat_of_ascii c - 32) else c.

Fixpoint mapBytes (f : ascii -> ascii) (s : string) : string :=
    match s with
    | EmptyString => EmptyString
    | String c r => String (f c) (mapBytes f r)
    end.

Definition ToLower : string -> string := mapBytes toLowerByte.
Definition ToUpper : string -> string := mapBytes toUpperByte.

  (** White space of [strings.TrimSpace] and [strings.Fields] in ASCII:
      tab, line feed, vertical tab, form feed, carriage return, space. *)
Definition isSpace (c : ascii) : bool :=
    let n := nat_of_ascii c in
    ((9 <=? n)%nat && (n <=? 13)%nat) || (n =? 32)%nat.

Fixpoint trimLeft (s : string) : string :=
    match s with
    | EmptyString => EmptyString
    | String c r => if isSpace c then trimLeft r else s
    end.

Fixpoint trimRight (s : string) : string :=
    match s with
    | EmptyString => EmptyString
    | String c r =>
        match trimRight r with
        | EmptyString => if isSpace c then EmptyString else String c EmptyString
        | r' => String c r'
        end
    end.

Definition TrimSpace (s : string) : string := trimRight (trimLeft s).

Definition HasPrefix (s p : string) : bool := String.prefix p s.

  (** [strings.Index]: the byte offset of the first occurrence. *)
Definition Index (s sub : string) : option nat := String.index 0 sub s.

Definition Contains (s sub : string) : bool :=
    match Index s sub with Some _ => true | None => false end.

  (** [strings.Fields]: the maximal runs of non-space bytes. *)
Fixpoint fieldsGo (cur : string) (s : string) : list string :=
    match s with
    | EmptyString =>
        match cur with EmptyString => [] | _ => [cur] end
    | String c r =>
        if isSpace c
        then match cur with
             | EmptyString => fieldsGo EmptyString r
             | _ => cur :: fieldsGo EmptyString r
             end
        else fieldsGo (cur +:+ String c EmptyString) r
    end.
Definition Fields (s : string) : list string := fieldsGo EmptyString s.

  (** [s[from:]] and [s[from:to]] on an offset inside the string. *)
Fixpoint drop (n : nat) (s : string) : string :=
    match n, s with
    | O, _ => s
    | S n', String _ r => drop n' r
    | S _, EmptyString => EmptyString
    end.
Fixpoint take (n : nat) (s : string) : string :=
    match n, s with
    | O, _ => EmptyString
    | S n', String c r => String c (take n' r)
    | S _, EmptyString => EmptyString
    end.

Definition eqb (a b : string) : bool := String.eqb a b.

End gostrings.

(** ** Package [fmt]: the integer and string verbs the program uses *)

Module gofmt.

Definition digits (n : Z) : string :=
    DecimalString.NilZero.string_of_uint (N.to_uint (Z.to_N (Z.abs n))).

  (** [%d] *)
Definition d (n : Z) : string :=
    if n <? 0 then "-" +:+ digits n else digits n.

Fixpoint repeatByte (c : ascii) (n : nat) : string :=
    match n with
    | O => EmptyString
    | S n' => String c (repeatByte c n')
    end.

  (** [%0wd]: zeros go between the sign and the digits. *)
Definition d0 (w : nat) (n : Z) : string :=
    let ds := digits n in
    if n <? 0
    then "-" +:+ repeatByte "0" (w - 1 - String.length ds) +:+ ds
    else repeatByte "0" (w - String.length ds) +:+ ds.

  (** [%-ws]: pad with spaces on the right. *)
Definition sLeft (w : nat) (s : string) : string :=
    s +:+ repeatByte " " (w - String.length s).

End gofmt.

(** ** Package [time] *)

Module gotime.

  (** A [time.Time] is the number of nanoseconds since the zero time. *)
Definition Time : Type := Z.
Definition Duration : Type := Z.

Definition Nanosecond : Duration := 1.
Definition Millisecond : Duration := 1000000.
Definition Second : Duration := 1000000000.
Definition Minute : Duration := 60 * Second.
Definition Hour : Duration := 60 * Minute.

Definition IsZero (t : Time) : bool := t =? 0.
Definition Add (t : Time) (d : Duration) : Time := t + d.

End gotime.

(** ** Conversions between [int64] and [float64] *)

Module conv.

  (** [float64(n)] for an [int64] [n]: the nearest binary64. *)
Definition ofInt64 (n : Z) : float :=
    if n =? minInt64 then PrimFloat.opp (Z.ldexp 1%float 63)
    else if n <? 0 then PrimFloat.opp (PrimFloat.of_uint63 (Uint63.of_Z (- n)))
    else PrimFloat.of_uint63 (Uint63.of_Z n).

  (** The integer part of a finite float (truncation towards zero). *)
Definition truncate (f : float) : option Z :=
    match Prim2SF f with
    | S754_zero _ => Some 0
    | S754_finite s m e =>
        let v := if 0 <=? e then Z.pos m * 2 ^ e else Z.pos m / 2 ^ (- e) in
        Some (if s then - v else v)
    | S754_infinity _ | S754_nan => None
    end.

End conv.

(** ** What the runtime decides *)

Class GoRuntime : Type := {
  (** [math/rand]: the stream of outcomes a source seeded with a given
      seed produces (a deterministic function of the seed). *)
  rngStream : Z -> nat -> Z;
  (** [Time.Format(layout)]; depends on the local time zone. *)
  timeFormat : gotime.Time -> string -> string;
  (** The float verbs of [fmt], by verb ([%.2f], [%010.6f], ...). *)
  fmtFloat : string -> float -> string;
  (** [int64(f)] when [f] is NaN, infinite or out of range: the Go
      specification leaves the value to the implementation. *)
  float64ToInt64Undef : float -> Z
}.

Module conv64.
Section WithRuntime.
Context {RT : GoRuntime}.

    (** [int64(f)] *)
Definition toInt64 (f : float) : Z :=
      match conv.truncate f with
      | Some z => if inInt64 z then z else float64ToInt64Undef f
      | None => float64ToInt64Undef f
      end.
End WithRuntime.
End conv64.

(** Methods of [time.Duration] that go through [float64]. *)
Module goduration.
Import gotime.

Definition Hours (d : Duration) : float :=
    PrimFloat.add (conv.ofInt64 (Z.quot d Hour))
      (PrimFloat.div (conv.ofInt64 (Z.rem d Hour)) 3600000000000%float).
Definition Minutes (d : Duration) : float :=
    PrimFloat.add (conv.ofInt64 (Z.quot d Minute))
      (PrimFloat.div (conv.ofInt64 (Z.rem d Minute)) 60000000000%float).
Definition Seconds (d : Duration) : float :=
    PrimFloat.add (conv.ofInt64 (Z.quot d Second))
      (PrimFloat.div (conv.ofInt64 (Z.rem d Second)) 1000000000%float).
Definition Milliseconds (d : Duration) : Z := Z.quot d 1000000.

End goduration.

(** ** Package [math/rand]

    A source is the stream of its outcomes and a position in it; every
    call consumes one outcome.  [Intn n] reduces the outcome into
    [[0, n)] and panics for [n <= 0]; [Float64] and [Float32] map it into
    [[0, 1)] on the 2^-53 and 2^-24 grids. *)

Module gorand.

Record Rand : Type := { stream : nat -> Z; pos : nat }.

Definition next (r : Rand) : Z * Rand :=
    (stream r (pos r), {| stream := stream r; pos := S (pos r) |}).

Definition Intn (r : Rand) (n : Z) : option (Z * Rand) :=
    if n <=? 0 then None
    else let '(v, r') := next r in Some (v mod n, r').

Definition Float64 (r : Rand) : float * Rand :=
    let '(v, r') := next r in
    (PrimFloat.div (conv.ofInt64 (v mod 2 ^ 53)) 9007199254740992%float, r').

Definition Float32 (r : Rand) : float * Rand :=
    let '(v, r') := next r in
    (PrimFloat.div (conv.ofInt64 (v mod 2 ^ 24)) 16777216%float, r').

Section WithRuntime.
Context {RT : GoRuntime}.
    (** [rand.New(rand.NewSource(seed))] *)
Definition New (seed : Z) : Rand := {| stream := rngStream seed; pos := O |}.
End WithRuntime.

End gorand.

(** ** Package [format]: records, generation context, registry *)

Module format.
Import gotime.

  (** [type CDRRecord struct] *)
Record CDRRecord : Type := {
    ID : string;
    Type_ : string;
    Timestamp : Time;
    Duration_ : Duration;
    Lines : list string
  }.

  (** [CDRRecord.Output]: every line followed by a line feed. *)
Definition Output (r : CDRRecord) : string :=
    fold_left (fun out line => out +:+ line +:+ String "010" EmptyString)
      (Lines r) EmptyString.

Record Agent : Type := { AgentID : string; AgentName : string; Role : string }.

Record Location : Type := {
    Address : string;
    City : string;
    State : string;
    Township : string;
    ESN : string;
    Latitude : float;
    Longitude : float;
    Altitude : float
  }.

Record Carrier : Type := { Code : string; CarrierName : string; CarrierType : string }.

  (** [type GenerationContext struct] *)
Record GenerationContext : Type := {
    SystemID : string;
    PSAPName : string;
    AgentPool : list Agent;
    LocationPool : list Location;
    CarrierPool : list Carrier;
    CurrentTime : Time;
    CallNumber : Z;
    Random : gorand.Rand
  }.

  (** What [csv.Reader.ReadAll] returns on a reader, with
      [FieldsPerRecord = 2]: the rows of two fields, or an error. *)
Definition Reader : Type := result (list (string * string)).

  (** [type CDRFormat interface].  The clock reading is an argument;
      [GenerateRecord] returns the context it leaves behind, and [None]
      when it panics. *)
Record CDRFormat : Type := {
    Name : string;
    Description : string;
    ParseRecords : Time -> Reader -> result (list CDRRecord);
    GenerateRecord : Time -> GenerationContext ->
                     option (result CDRRecord * GenerationContext)
  }.

Definition defaultAgents : list Agent :=
    [ {| AgentID := "10001"; AgentName := "John Smith"; Role := "CALL TAKER" |};
      {| AgentID := "10002"; AgentName := "Jane Doe"; Role := "CALL TAKER" |};
      {| AgentID := "10003"; AgentName := "Mike Johnson"; Role := "CALL TAKER" |};
      {| AgentID := "10004"; AgentName := "Sarah Williams"; Role := "CALL TAKER" |};
      {| AgentID := "10005"; AgentName := "David Brown"; Role := "DISPATCHER" |};
      {| AgentID := "10006"; AgentName := "Emily Davis"; Role := "DISPATCHER" |};
      {| AgentID := "10007"; AgentName := "Chris Wilson"; Role := "CALL TAKER" |};
      {| AgentID := "10008"; AgentName := "Amanda Miller"; Role := "CALL TAKER" |};
      {| AgentID := "10009"; AgentName := "Robert Taylor"; Role := "SUPERVISOR" |};
      {| AgentID := "10010"; AgentName := "Lisa Anderson"; Role := "CALL TAKER" |} ].

Definition mkLocation (a c s t e : string) (lat lon alt : float) : Location :=
    {| Address := a; City := c; State := s; Township := t; ESN := e;
       Latitude := lat; Longitude := lon; Altitude := alt |}.

Definition defaultLocations : list Location :=
    [ mkLocation "123 Main St" "Lincoln" "NE" "Lancaster" "123456" 40.8136 (-96.7026) 357;
      mkLocation "456 Oak Ave" "Omaha" "NE" "Douglas" "234567" 41.2565 (-95.9345) 332;
      mkLocation "789 Elm Blvd" "Bellevue" "NE" "Sarpy" "345678" 41.1544 (-95.9146) 305;
      mkLocation "321 Pine Rd" "Grand Island" "NE" "Hall" "456789" 40.9264 (-98.3420) 566;
      mkLocation "654 Cedar Ln" "Kearney" "NE" "Buffalo" "567890" 40.6993 (-99.0817) 652;
      mkLocation "987 Maple Dr" "Fremont" "NE" "Dodge" "678901" 41.4333 (-96.4981) 373;
      mkLocation "147 Birch Way" "Hastings" "NE" "Adams" "789012" 40.5861 (-98.3884) 595;
      mkLocation "258 Walnut Ct" "Norfolk" "NE" "Madison" "890123" 42.0283 (-97.4170) 476;
      mkLocation "369 Spruce Pl" "Columbus" "NE" "Platte" "901234" 41.4297 (-97.3684) 436;
      mkLocation "480 Ash St" "Papillion" "NE" "Sarpy" "012345" 41.1544 (-96.0419) 329
    ]%float.

Definition defaultCarriers : list Carrier :=
    [ {| Code := "VZW"; CarrierName := "VERIZON"; CarrierType := "WPH2" |};
      {| Code := "TMOB"; CarrierName := "T-MOBILE USA, INC."; CarrierType := "WPH2" |};
      {| Code := "ATTMO"; CarrierName := "AT&T Mobility"; CarrierType := "WPH2" |};
      {| Code := "SPRINT"; CarrierName := "SPRINT"; CarrierType := "WPH2" |};
      {| Code := "USCC"; CarrierName := "US CELLULAR"; CarrierType := "WPH2" |} ].

Section WithRuntime.
Context {RT : GoRuntime}.

    (** [NewGenerationContext]; [now] is the reading of [time.Now()]. *)
Definition NewGenerationContext (now : Time) (systemID psapName : string)
        (seed : Z) : GenerationContext :=
      {| SystemID := systemID;
         PSAPName := psapName;
         AgentPool := defaultAgents;
         LocationPool := defaultLocations;
         CarrierPool := defaultCarriers;
         CurrentTime := now;
         CallNumber := 10000000;
         Random := gorand.New seed |}.
End WithRuntime.

  (** *** Methods of the context, as a state-and-panic monad *)

Definition Gen (A : Type) : Type :=
    GenerationContext -> option (A * GenerationContext).

Definition ret {A} (a : A) : Gen A := fun ctx => Some (a, ctx).
Definition bind {A B} (m : Gen A) (k : A -> Gen B) : Gen B :=
    fun ctx => match m ctx with
               | Some (a, ctx') => k a ctx'
               | None => None
               end.
Definition get : Gen GenerationContext := fun ctx => Some (ctx, ctx).
Definition panic {A} : Gen A := fun _ => None.

Definition setRandom (ctx : GenerationContext) (r : gorand.Rand) : GenerationContext :=
    {| SystemID := SystemID ctx; PSAPName := PSAPName ctx;
       AgentPool := AgentPool ctx; LocationPool := LocationPool ctx;
       CarrierPool := CarrierPool ctx; CurrentTime := CurrentTime ctx;
       CallNumber := CallNumber ctx; Random := r |}.

Definition setCallNumber (ctx : GenerationContext) (n : Z) : GenerationContext :=
    {| SystemID := SystemID ctx; PSAPName := PSAPName ctx;
       AgentPool := AgentPool ctx; LocationPool := LocationPool ctx;
       CarrierPool := CarrierPool ctx; CurrentTime := CurrentTime ctx;
       CallNumber := n; Random := Random ctx |}.

  (** [ctx.Random.Intn(n)] *)
Definition Intn (n : Z) : Gen Z := fun ctx =>
    match gorand.Intn (Random ctx) n with
    | Some (v, r) => Some (v, setRandom ctx r)
    | None => None
    end.
  (** [ctx.Random.Float64()] *)
Definition Float64 : Gen float := fun ctx =>
    let '(v, r) := gorand.Float64 (Random ctx) in Some (v, setRandom ctx r).
  (** [ctx.Random.Float32()] *)
Definition Float32 : Gen float := fun ctx =>
    let '(v, r) := gorand.Float32 (Random ctx) in Some (v, setRandom ctx r).

  (** [pool[i]]: an index out of range panics. *)
Definition index {A} (pool : list A) (i : Z) : Gen A := fun ctx =>
    if i <? 0 then None
    else match nth_error pool (Z.to_nat i) with
         | Some a => Some (a, ctx)
         | None => None
         end.

End format.

Declare Scope gen_scope.
Delimit Scope gen_scope with gen.
Notation "'let*' x := m 'in' k" := (format.bind m (fun x => k))
  (at level 10, x name, m at level 200, k at level 200) : gen_scope.

Module formatctx.
Import gotime format.
Local Open Scope gen_scope.

Definition formatPhone (areaCode exchange subscriber : Z) : string :=
    gofmt.d0 3 areaCode +:+ gofmt.d0 3 exchange +:+ gofmt.d0 4 subscriber.

Definition RandomAgent : Gen Agent :=
    let* ctx := get in
    let* i := Intn (Z.of_nat (length (AgentPool ctx))) in
    index (AgentPool ctx) i.

Definition RandomLocation : Gen Location :=
    let* ctx := get in
    let* i := Intn (Z.of_nat (length (LocationPool ctx))) in
    index (LocationPool ctx) i.

Definition RandomCarrier : Gen Carrier :=
    let* ctx := get in
    let* i := Intn (Z.of_nat (length (CarrierPool ctx))) in
    index (CarrierPool ctx) i.

Definition RandomPhoneNumber : Gen string :=
    let* a := Intn 800 in
    let* e := Intn 800 in
    let* s := Intn 10000 in
    ret (formatPhone (200 + a) (200 + e) s).

  (** [RandomDuration(minSec, maxSec)] *)
Definition RandomDuration (minSec maxSec : Z) : Gen Duration :=
    if maxSec <=? minSec then ret (wrap64 (minSec * Second))
    else
      let* k := Intn (wrap64 (maxSec - minSec)) in
      ret (wrap64 (wrap64 (minSec + k) * Second)).

  (** [NextCallNumber] *)
Definition NextCallNumber : Gen Z := fun ctx =>
    let n := wrap64 (CallNumber ctx + 1) in
    Some (n, setCallNumber ctx n).

End formatctx.

(** ** Package [format]: the registry ([registry.go])

    The process-wide map is passed explicitly; a call that writes it
    returns the new map next to its error ([None] is [nil]). *)

Module registry.
Import format.

Abbreviation Registry := (gmap string CDRFormat).

Definition quote (s : string) : string :=
    String (ascii_of_nat 34) (s +:+ String (ascii_of_nat 34) EmptyString).

Definition Register (f : CDRFormat) (reg : Registry) : option string * Registry :=
    let name := gostrings.ToLower (Name f) in
    match reg !! name with
    | Some _ => (Some ("format " +:+ quote name +:+ " already registered"), reg)
    | None => (None, <[name := f]> reg)
    end.

  (** [MustRegister] panics on the error. *)
Definition MustRegister (f : CDRFormat) (reg : Registry) : option Registry :=
    match Register f reg with
    | (Some _, _) => None
    | (None, reg') => Some reg'
    end.

Definition Get (name : string) (reg : Registry) : result CDRFormat :=
    match reg !! gostrings.ToLower name with
    | Some f => Ok f
    | None => Err ("unknown format: " +:+ name)
    end.

  (** [List]: the keys, in the order [sort.Strings] leaves them. *)
Definition List (reg : Registry) : list string :=
    merge_sort String.le (map_to_list reg).*1.

Definition Count (reg : Registry) : nat := size reg.

End registry.

(** ** Package [strconv] *)

Module strconv.

Definition digitVal (c : ascii) : option Z :=
    let n := nat_of_ascii c in
    if (48 <=? n)%nat && (n <=? 57)%nat then Some (Z.of_nat n - 48) else None.

Fixpoint parseDigits (acc : Z) (s : string) : option Z :=
    match s with
    | EmptyString => Some acc
    | String c r =>
        match digitVal c with
        | Some v => parseDigits (acc * 10 + v) r
        | None => None
        end
    end.

  (** [strconv.ParseInt(s, 10, 64)]; [None] is any of its errors (syntax
      or range). *)
Definition ParseInt (s : string) : option Z :=
    match s with
    | EmptyString => None
    | String c r =>
        let neg := Ascii.eqb c "-" in
        let body := if Ascii.eqb c "+" || neg then r else s in
        match body with
        | EmptyString => None
        | _ =>
            match parseDigits 0 body with
            | None => None
            | Some u =>
                if neg then (if u <=? 2 ^ 63 then Some (- u) else None)
                else (if u <? 2 ^ 63 then Some u else None)
            end
        end
    end.

End strconv.

(** ** Reading the sample log (shared by both parsers)

    Both parsers read the rows, drop a header row and the rows whose
    first field is not an integer, and sort by that integer.
    [sort.Slice] promises no order between rows of equal id; the sort
    used here keeps them in input order. *)

Module samplelog.

Record message : Type := { SysIdent : Z; Message : string }.

  (** The loop over [rawRecords]; [i] is the index of the first row. *)
Fixpoint readRows (i : nat) (rows : list (string * string)) : list message :=
    match rows with
    | [] => []
    | (f0, f1) :: rest =>
        if (Nat.eqb i 0) && String.eqb f0 "sysident" then readRows (S i) rest
        else match strconv.ParseInt f0 with
             | None => readRows (S i) rest
             | Some n => {| SysIdent := n; Message := f1 |} :: readRows (S i) rest
             end
    end.

Definition byIdent (a b : message) : Prop := SysIdent a <= SysIdent b.

#[global] Instance byIdent_dec : RelDecision byIdent.
Proof. intros a b. unfold byIdent. apply _. Defined.

Definition sortMessages (ms : list message) : list message :=
    merge_sort byIdent ms.

  (** The messages of a log in the order the block loop sees them. *)
Definition messagesOf (rows : list (string * string)) : list message :=
    sortMessages (readRows 0 rows).

End samplelog.

(** ** Package [viper]: the parser ([parser.go]) *)

Module viper.
Import gotime format samplelog.

Definition ViperCDRBegin : string := "===== CDR BEGIN :".
Definition ViperCDREnd : string := "===== CDR END =====".
Definition ViperAgentBegin : string := "===== AGENT BEGIN :".
Definition ViperAgentEnd : string := "===== AGENT END =====".

  (** The variables of the block loop. *)
Record loopState : Type := {
    records : list CDRRecord;
    currentLines : list string;
    currentID : string;
    currentType : string;
    inBlock : bool
  }.

Definition initState : loopState :=
    {| records := []; currentLines := []; currentID := EmptyString;
       currentType := EmptyString; inBlock := false |}.

Definition extractCallID (line : string) : string := EmptyString.

Definition mkRecord (now : Time) (st : loopState) (lines : list string) : CDRRecord :=
    {| ID := currentID st; Type_ := currentType st; Timestamp := now;
       Duration_ := 0; Lines := lines |}.

  (** The records after "save previous block if exists". *)
Definition flushOpen (now : Time) (st : loopState) : list CDRRecord :=
    if inBlock st && negb (Nat.eqb (length (currentLines st)) 0)
    then records st ++ [mkRecord now st (currentLines st)]
    else records st.

  (** The call id inside [Incoming Call(ID: ...)], when the line has one. *)
Definition incomingCallID (msg : string) : option string :=
    match gostrings.Index msg "Incoming Call(ID:" with
    | None => None
    | Some start0 =>
        let start := (start0 + String.length "Incoming Call(ID:")%nat in
        match gostrings.Index (gostrings.drop start msg) ")" with
        | Some (S e) =>
            Some (gostrings.TrimSpace (gostrings.take (S e) (gostrings.drop start msg)))
        | _ => None
        end
    end.

  (** One iteration of [for _, msg := range messages]. *)
Definition step (now : Time) (st : loopState) (msg : message) : loopState :=
    let trimmed := gostrings.TrimSpace (Message msg) in
    if gostrings.HasPrefix trimmed ViperCDRBegin then
      {| records := flushOpen now st;
         currentLines := [trimmed];
         currentID := extractCallID trimmed;
         currentType := "cdr";
         inBlock := true |}
    else if gostrings.HasPrefix trimmed ViperAgentBegin then
      {| records := flushOpen now st;
         currentLines := [trimmed];
         currentID := EmptyString;
         currentType := "agent";
         inBlock := true |}
    else if String.eqb trimmed ViperCDREnd || String.eqb trimmed ViperAgentEnd then
      if inBlock st then
        {| records := records st ++ [mkRecord now st (currentLines st ++ [trimmed])];
           currentLines := [];
           currentID := EmptyString;
           currentType := EmptyString;
           inBlock := false |}
      else st
    else if inBlock st && negb (String.eqb trimmed EmptyString) then
      {| records := records st;
         currentLines := currentLines st ++ [Message msg];
         currentID :=
           if String.eqb (currentID st) EmptyString
              && gostrings.Contains (Message msg) "Incoming Call(ID:"
           then match incomingCallID (Message msg) with
                | Some id => id
                | None => currentID st
                end
           else currentID st;
         currentType := currentType st;
         inBlock := inBlock st |}
    else st.

  (** The block loop and the flush after it. *)
Definition groupBlocks (now : Time) (messages : list message) : list CDRRecord :=
    flushOpen now (fold_left (step now) messages initState).

  (** [ParseViperCSV]; [now] stands for the readings of [time.Now()]. *)
Definition ParseViperCSV (now : Time) (reader : Reader) : result (list CDRRecord) :=
    match reader with
    | Err e => Err e
    | Ok rawRecords => Ok (groupBlocks now (messagesOf rawRecords))
    end.

(** *** The generator ([generator.go]) *)

Section Generator.
Context {RT : GoRuntime}.
Import formatctx.
Local Open Scope gen_scope.

Definition min (a b : Z) : Z := if a <? b then a else b.

Definition formatDuration (d : Duration) : string :=
  let hours := conv64.toInt64 (goduration.Hours d) in
  let minutes := Z.rem (conv64.toInt64 (goduration.Minutes d)) 60 in
  let seconds := Z.rem (conv64.toInt64 (goduration.Seconds d)) 60 in
  let millis := Z.rem (goduration.Milliseconds d) 1000 in
  gofmt.d0 2 hours +:+ ":" +:+ gofmt.d0 2 minutes +:+ ":" +:+
  gofmt.d0 2 seconds +:+ "." +:+ gofmt.d0 3 millis.

Definition formatPhoneParens (phone : string) : string :=
  if Nat.eqb (String.length phone) 10 then gostrings.take 3 phone else phone.

(** [s[:n]] and [s[n:]]: a bound past the end panics. *)
Definition sliceTo (n : nat) (s : string) : Gen string :=
  if (String.length s <? n)%nat then panic else ret (gostrings.take n s).
Definition sliceFrom (n : nat) (s : string) : Gen string :=
  if (String.length s <? n)%nat then panic else ret (gostrings.drop n s).

Definition byteAt (chars : string) (i : Z) : Gen ascii :=
  if i <? 0 then panic
  else match String.get (Z.to_nat i) chars with
       | Some c => ret c
       | None => panic
       end.

Definition randomIDChars : string := "abcdefghijklmnopqrstuvwxyz0123456789".

(** [generateRandomID(ctx, length)]: the loop, by the number of bytes
    still to write. *)
Fixpoint generateRandomIDLoop (n : nat) (sb : string) : Gen string :=
  match n with
  | O => ret sb
  | S n' =>
      let* i := Intn (Z.of_nat (String.length randomIDChars)) in
      let* c := byteAt randomIDChars i in
      generateRandomIDLoop n' (sb +:+ String c EmptyString)
  end.
Definition generateRandomID (length : nat) : Gen string :=
  generateRandomIDLoop length EmptyString.

Definition sectors : list string := ["N"; "S"; "E"; "W"; "NE"; "NW"; "SE"; "SW"].

Definition beginFormat : string := "01/02/06 15:04:05.000".
Definition aliDateFormat : string := "15:04  01/02".

Definition generateAgentBlock (agent : Agent) (callID : string)
    (posNum stnNum : Z) (now : Time) : Gen (list string) :=
  let* ctx0 := get in
  let* r := Intn 10 in
  let* p := Intn 9000 in
  ret [ "===== AGENT BEGIN : " +:+ timeFormat now beginFormat +:+ " =====";
        "ON CALL (ID: " +:+ callID +:+ ")";
        "DIRECTION = incoming";
        "ROUTE = Q" +:+ gofmt.d (6000 + r + 1);
        "VIPERNODE = PRIMARY";
        "AGENT = " +:+ AgentName agent +:+ "/" +:+ AgentID agent +:+ " ROLE = " +:+ Role agent;
        "From  PSAP ID = " +:+ gofmt.d (p + 1000) +:+ " PSAP Name = " +:+ PSAPName ctx0;
        "POS = " +:+ gofmt.d0 4 (posNum) +:+ " / STN = " +:+ gofmt.d (stnNum);
        ViperAgentEnd ].

(** [float32(0.3)], the constant [Float32()] is compared with. *)
Definition agentThreshold : float := 0x1.333334p-2%float.

(** [GenerateViperRecord]; [clock] is the reading of [time.Now()] taken
    when the context has no current time. *)
Definition GenerateViperRecord (clock : Time) : Gen (result CDRRecord) :=
  let* callNum := NextCallNumber in
  let* ani := RandomPhoneNumber in
  let* location := RandomLocation in
  let* carrier := RandomCarrier in
  let* agent := RandomAgent in
  let* ctx0 := get in
  let now := if IsZero (CurrentTime ctx0) then clock else CurrentTime ctx0 in
  let* duration := RandomDuration 30 300 in
  let* t := Intn 10 in
  let trunkNum := t + 1 in
  let trunkGroup := "911" in
  let trunkName := "SIP" +:+ gofmt.d0 3 (trunkNum) in
  let callID := "911" +:+ gofmt.d0 3 (trunkNum) +:+ "-" +:+
                gofmt.d0 5 (Z.rem callNum 100000) +:+ "-" +:+
                timeFormat now "20060102150405" in
  let* p := Intn 20 in
  let posNum := p + 1 in
  let stnNum := 2000 + posNum in
  let* q := Intn 10 in
  let queueNum := 6000 + q + 1 in
  let* ani10 := sliceTo 10 ani in
  let* rid := generateRandomID 20 in
  let externalID := "urn:nena:uid:callid:" +:+ rid +:+ ":inbcf.indigital.net" in
  let durationMs := goduration.Milliseconds duration in
  let durationStr := formatDuration duration in
  let* addr16 := sliceTo (Z.to_nat (min 16 (Z.of_nat (String.length (Address location)))))
                   (Address location) in
  let* si := Intn 8 in
  let* sector := index sectors si in
  let* ps := Intn 50 in
  let psapNum := ps + 1 in
  let* ani3 := sliceTo 3 ani in
  let* aniRest := sliceFrom 3 ani in
  let* u := Float64 in
  let accuracy := PrimFloat.add 4.64%float (PrimFloat.mul u 50%float) in
  let lines :=
    [ "===== CDR BEGIN : " +:+ timeFormat now beginFormat +:+ " =====";
      "00:00:00.000 [  TS] SYSTEM ID = " +:+ gostrings.ToLower (SystemID ctx0);
      "00:00:00.000 [VoIP] Incoming Call(ID: " +:+ callID +:+ ") Offered on Trunk " +:+
        trunkName +:+ "/" +:+ ani10 +:+ "-" +:+ trunkName;
      "00:00:00.000 [  TS] Trunk Group = " +:+ trunkGroup;
      "00:00:00.000 [VoIP] Call Presented";
      "00:00:00.000 [VoIP] ANI: (40)'" +:+ ani +:+ "' [VALID] PseudoANI: '' [NONE]";
      "00:00:00.000 [  TS] Initial ALI Request for ANI : " +:+ ani;
      "00:00:00.075 [VoIP] External Call-Identifier <" +:+ externalID +:+ ">";
      "00:00:00.104 [VoIP] Call Connected";
      "00:00:00.108 [VoIP] Routing call QUEUE = " +:+ gofmt.d (queueNum);
      "00:00:01.696 [ PAS] Initial ALI Response received / ALI TYPE = 1";
      durationStr +:+ " [VoIP] Caller Disconnected Before Supervision";
      formatDuration (wrap64 (duration + 73 * Millisecond)) +:+ " [VoIP] Call Terminated";
      formatDuration (wrap64 (duration + 73 * Millisecond)) +:+ " [  TS] Call Completed";
      EmptyString;
      "=====   Initial ALI   ====";
      EmptyString;
      "(" +:+ formatPhoneParens ani +:+ ") " +:+ timeFormat now aliDateFormat +:+ "   " +:+ EmptyString;
      CarrierName carrier +:+ "                   ";
      gofmt.sLeft 16 (addr16);
      gostrings.ToUpper (Address location) +:+ " - " +:+ sector +:+ " SECTOR     ";
      EmptyString;
      "                              ";
      gofmt.sLeft 24 (City location) +:+ "          ESN " +:+ ESN location;
      "CO=" +:+ Code carrier +:+ " PSAP " +:+ gofmt.d0 2 (psapNum) +:+ " POS# " +:+
        gofmt.d0 2 (posNum) +:+ "   " +:+ CarrierType carrier;
      "                                ";
      "      ";
      "P#(" +:+ ani3 +:+ ")" +:+ aniRest;
      " UNC=" +:+ fmtFloat "%.2f" (accuracy) +:+ "     COP=90%  Initia";
      "+" +:+ fmtFloat "%010.6f" (Latitude location) +:+ " -" +:+
        fmtFloat "%010.6f" (PrimFloat.opp (Longitude location));
      EmptyString;
      ViperCDREnd ] in
  let* f := Float32 in
  let* lines' :=
    (if PrimFloat.ltb agentThreshold f then
       let* agentLines := generateAgentBlock agent callID posNum stnNum now in
       ret (lines ++ [EmptyString] ++ agentLines)
     else ret lines) in
  ret (Ok {| ID := callID;
             Type_ := "cdr";
             Timestamp := now;
             Duration_ := wrap64 (durationMs * Millisecond);
             Lines := lines' |}).

(** [type ViperFormat struct{}] and its methods ([format.go]). *)
Definition ViperFormat : CDRFormat :=
  {| Name := "viper";
     Description := "Viper VoIP 911 Call Handling System";
     ParseRecords := ParseViperCSV;
     GenerateRecord := GenerateViperRecord |}.

End Generator.

End viper.

(** ** Package [vesta]: the parser *)

Module vesta.
Import gotime format samplelog.

Definition VestaSeparator : string :=
    "---   ---   ---   ---   ---   ---   ---   ---   ---   ---   ---   ---   ---".

Record loopState : Type := {
    records : list CDRRecord;
    currentLines : list string;
    currentID : string
  }.

Definition initState : loopState :=
    {| records := []; currentLines := []; currentID := EmptyString |}.

Definition mkRecord (now : Time) (id : string) (lines : list string) : CDRRecord :=
    {| ID := id; Type_ := "cdr"; Timestamp := now; Duration_ := 0; Lines := lines |}.

  (** The word after the first field equal to [Call] that has a
      successor, if any. *)
Fixpoint afterCall (parts : list string) : option string :=
    match parts with
    | p :: ((q :: _) as rest) => if String.eqb p "Call" then Some q else afterCall rest
    | _ => None
    end.

Definition step (now : Time) (st : loopState) (msg : message) : loopState :=
    if String.eqb (Message msg) VestaSeparator then
      if negb (Nat.eqb (length (currentLines st)) 0) then
        {| records := records st ++
             [mkRecord now (currentID st) (currentLines st ++ [VestaSeparator])];
           currentLines := [];
           currentID := EmptyString |}
      else st
    else if String.eqb (Message msg) EmptyString then st
    else
      {| records := records st;
         currentLines := currentLines st ++ [Message msg];
         currentID :=
           if gostrings.Contains (Message msg) "Call "
              && gostrings.Contains (Message msg) "Arrives On"
           then match afterCall (gostrings.Fields (Message msg)) with
                | Some id => id
                | None => currentID st
                end
           else currentID st |}.

Definition flushOpen (now : Time) (st : loopState) : list CDRRecord :=
    if negb (Nat.eqb (length (currentLines st)) 0)
    then records st ++ [mkRecord now (currentID st) (currentLines st)]
    else records st.

Definition groupBlocks (now : Time) (messages : list message) : list CDRRecord :=
    flushOpen now (fold_left (step now) messages initState).

Definition ParseVestaCSV (now : Time) (reader : Reader) : result (list CDRRecord) :=
    match reader with
    | Err e => Err e
    | Ok rawRecords => Ok (groupBlocks now (messagesOf rawRecords))
    end.

(** *** The generator *)

Section Generator.
Context {RT : GoRuntime}.
Import formatctx.
Local Open Scope gen_scope.

Definition min (a b : Z) : Z := if a <? b then a else b.

Definition formatPhoneWithDashes (phone : string) : string :=
  if Nat.eqb (String.length phone) 10
  then gostrings.take 3 phone +:+ "-" +:+ gostrings.take 3 (gostrings.drop 3 phone) +:+
       "-" +:+ gostrings.drop 6 phone
  else phone.

Definition sliceTo (n : nat) (s : string) : Gen string :=
  if (String.length s <? n)%nat then panic else ret (gostrings.take n s).

Definition byteAt (chars : string) (i : Z) : Gen ascii :=
  if i <? 0 then panic
  else match String.get (Z.to_nat i) chars with
       | Some c => ret c
       | None => panic
       end.

Definition sipChars : string :=
  "ABCDEFGHIJKLMNOPQRSTUVWXYZabcdefghijklmnopqrstuvwxyz0123456789-_".

Fixpoint generateSIPCallIDLoop (n : nat) (sb : string) : Gen string :=
  match n with
  | O => ret sb
  | S n' =>
      let* i := Intn (Z.of_nat (String.length sipChars)) in
      let* c := byteAt sipChars i in
      generateSIPCallIDLoop n' (sb +:+ String c EmptyString)
  end.

(** [generateSIPCallID] *)
Definition generateSIPCallID : Gen string :=
  let* sb := generateSIPCallIDLoop 22 EmptyString in
  ret (sb +:+ "..").

Definition locTechs : list string :=
  ["Handset AGPS"; "Handset GPS"; "Hybrid Device Based"; "Hybrid Unspecified"].

Definition dateFormat : string := "Jan/02/06 15:04:05 EST".
Definition aliDateFormat : string := "01/02/2006".
Definition aliTimeFormat : string := "15:04:05.0MST".

(** [GenerateVestaRecord]; [clock] is the reading of [time.Now()] taken
    when the context has no current time. *)
Definition GenerateVestaRecord (clock : Time) : Gen (result CDRRecord) :=
  let* callNum := NextCallNumber in
  let callID := gofmt.d callNum in
  let* ani := RandomPhoneNumber in
  let* cpn := RandomPhoneNumber in
  let* location := RandomLocation in
  let* carrier := RandomCarrier in
  let* _agent := RandomAgent in
  let* ctx0 := get in
  let now := if IsZero (CurrentTime ctx0) then clock else CurrentTime ctx0 in
  let* duration := RandomDuration 30 300 in
  let endTime := Add now duration in
  let* dn := Intn 10 in
  let deviceNum := dn + 1 in
  let posDevice := "DCD" +:+ gofmt.d0 2 deviceNum in
  let* en := Intn 5 in
  let eimDevice := "DCDEIM911" +:+ gofmt.d (en + 1) in
  let queueName := "DCD-911" in
  let callEvents :=
    "ANI             " +:+ ani +:+
    "                                                      CPN             " +:+ cpn +:+
    "                                                                                                                                      Call " +:+
    callID +:+ "   Arrives On               " +:+ eimDevice +:+ "     " +:+
    timeFormat now dateFormat +:+ " " +:+ eimDevice +:+
    "           Goes Off Hook                            " +:+ timeFormat now dateFormat +:+
    " " +:+ eimDevice +:+ "           Queue In                 " +:+ queueName +:+
    "         " +:+ timeFormat now dateFormat +:+ " Call " +:+ callID +:+
    "   Cellular Call                            " +:+
    timeFormat (Add now (2 * Second)) dateFormat +:+ " Call " +:+ callID +:+ "   CPN: " +:+
    cpn +:+ "                          " +:+
    timeFormat (Add now (2 * Second)) dateFormat +:+ " " +:+ queueName +:+
    "         Queue Out (Answered)     " +:+ posDevice +:+ "           " +:+
    timeFormat (Add now (4 * Second)) dateFormat +:+ " " +:+ posDevice +:+
    "          Picks Up                                 " +:+
    timeFormat (Add now (4 * Second)) dateFormat +:+ " " +:+ eimDevice +:+
    "     Is Released                              " +:+ timeFormat endTime dateFormat +:+
    " " +:+ posDevice +:+ "          Hangs Up                 Call " +:+ callID +:+
    "   " +:+ timeFormat endTime dateFormat +:+ " " +:+ posDevice +:+
    "          Releases                 Call " +:+ callID +:+ "   " +:+
    timeFormat endTime dateFormat +:+ " Call " +:+ callID +:+
    "   Finishes                                 " +:+ timeFormat endTime dateFormat in
  let* ti := Intn 4 in
  let* locTech := index locTechs ti in
  let confidence := 90 in
  let* u := Float64 in
  let accuracy := PrimFloat.add 4.64%float (PrimFloat.mul u 50%float) in
  let* city20 := sliceTo (Z.to_nat (min (Z.of_nat (String.length (City location))) 20))
                   (City location) in
  let* u2 := Float64 in
  let aliLine :=
    formatPhoneWithDashes ani +:+ "   CBN " +:+ formatPhoneWithDashes cpn +:+ "    " +:+
    Code carrier +:+ "  " +:+ timeFormat now aliDateFormat +:+ "     " +:+
    timeFormat now aliTimeFormat +:+ "EST        " +:+ CarrierType carrier +:+
    CarrierName carrier +:+ "                         ESN " +:+ ESN location +:+
    "           " +:+ gostrings.ToUpper (Address location) +:+
    "                                                    Township:                               " +:+
    gostrings.ToUpper (Township location) +:+ "                            " +:+
    State location +:+ "Comments:                               " +:+
    gostrings.ToUpper city20 +:+
    "                                                       " +:+ "Updated" +:+
    " PositionX=" +:+ fmtFloat "%+010.6f" (Longitude location) +:+ "            " +:+
    gofmt.d (confidence) +:+ "% sure callerY=" +:+
    fmtFloat "%+010.6f" (Latitude location) +:+ "         within " +:+
    fmtFloat "%.2f" (accuracy) +:+ " metersZ=" +:+
    gofmt.d0 3 (conv64.toInt64 (Altitude location)) +:+ "+/-" +:+
    fmtFloat "%.12f" (PrimFloat.mul u2 10%float) +:+
    "                                                          LAW:                                    FIR:                                    EMS:                                    LocTechn:" +:+
    locTech +:+
    "            MIN:           IMIN:                    Tabular/Legacy route " +:+
    gostrings.ToUpper (City location) in
  let* sipID := generateSIPCallID in
  let lines :=
    [ gofmt.d 3001 +:+ " " +:+ "Nebraska";
      callEvents;
      "ALI Information";
      aliLine;
      "SIP Call IDs";
      sipID;
      VestaSeparator ] in
  ret (Ok {| ID := callID;
             Type_ := "cdr";
             Timestamp := now;
             Duration_ := duration;
             Lines := lines |}).

(** [type VestaFormat struct{}] and its methods. *)
Definition VestaFormat : CDRFormat :=
  {| Name := "vesta";
     Description := "Vesta 911 Call Handling System";
     ParseRecords := ParseVestaCSV;
     GenerateRecord := GenerateVestaRecord |}.

End Generator.

End vesta.


(** ** Package [config] (the structures the core reads) *)

Module config.

Record SyntheticConfig : Type := {
  SystemID : string;
  AgentCount : Z;
  MinDurationSec : Z;
  MaxDurationSec : Z;
  IncludeAgentEvents : bool
}.

Record PortConfig : Type := {
  Device : string;
  BaudRate : Z;
  DataBits : Z;
  StopBits : Z;
  Parity : string;
  Format : string;
  Mode : string;
  SampleFile : string;
  Loop : bool;
  CallsPerMinute : float;
  Enabled : bool;
  Description : string;
  Synthetic : option SyntheticConfig
}.

Record RecoveryConfig : Type := {
  ReconnectDelaySec : Z;
  MaxReconnectDelaySec : Z;
  ExponentialBackoff : bool
}.

(** The fields of [Config] the manager reads. *)
Record Config : Type := {
  Ports : list PortConfig;
  JitterPercent : float;
  Recovery : RecoveryConfig
}.

Definition GetReconnectDelay (c : RecoveryConfig) : gotime.Duration :=
  wrap64 (ReconnectDelaySec c * gotime.Second).
Definition GetMaxReconnectDelay (c : RecoveryConfig) : gotime.Duration :=
  wrap64 (MaxReconnectDelaySec c * gotime.Second).

End config.

(** ** Package [generator] *)

Module generator.
Import gotime format.

Section WithRuntime.
Context {RT : GoRuntime}.

(** *** The rate limiter ([timing.go]) *)

Record RateLimiter : Type := {
  callsPerMinute : float;
  jitterPercent : float;
  random : gorand.Rand
}.

(** [NewRateLimiter]; [now] is [time.Now().UnixNano()]. *)
Definition NewRateLimiter (now : Z) (cpm jp : float) : RateLimiter :=
  {| callsPerMinute := cpm; jitterPercent := jp; random := gorand.New now |}.

(** [NextInterval]: the interval and the limiter with its random source
    advanced; [None] is the run-time panic of an integer division by
    zero. *)
Definition NextInterval (r : RateLimiter) : option (Duration * RateLimiter) :=
  if PrimFloat.leb (callsPerMinute r) 0%float then Some (Minute, r)
  else
    let divisor := conv64.toInt64 (callsPerMinute r) in
    if divisor =? 0 then None
    else
      let baseInterval := Z.quot Minute divisor in
      if PrimFloat.ltb 0%float (jitterPercent r) then
        let '(u, rnd) := gorand.Float64 (random r) in
        let jitterFactor :=
          PrimFloat.mul (PrimFloat.sub (PrimFloat.mul u 2%float) 1%float)
                        (PrimFloat.div (jitterPercent r) 100%float) in
        let jitterAmount :=
          conv64.toInt64 (PrimFloat.mul (conv.ofInt64 baseInterval) jitterFactor) in
        Some (wrap64 (baseInterval + jitterAmount),
              {| callsPerMinute := callsPerMinute r;
                 jitterPercent := jitterPercent r;
                 random := rnd |})
      else Some (baseInterval, r).

(** *** The generator ([generator.go]) *)

Definition ModeReplay : string := "replay".
Definition ModeSynthetic : string := "synthetic".

Record Generator : Type := {
  format_ : CDRFormat;
  mode : string;
  portConfig : config.PortConfig;
  rateLimiter : RateLimiter;
  genContext : option GenerationContext;
  records : list CDRRecord;
  recordIndex : Z;
  loop : bool
}.

Definition setReplay (g : Generator) (rs : list CDRRecord) (i : Z) : Generator :=
  {| format_ := format_ g; mode := mode g; portConfig := portConfig g;
     rateLimiter := rateLimiter g; genContext := genContext g;
     records := rs; recordIndex := i; loop := loop g |}.

Definition setGenContext (g : Generator) (c : option GenerationContext) : Generator :=
  {| format_ := format_ g; mode := mode g; portConfig := portConfig g;
     rateLimiter := rateLimiter g; genContext := c;
     records := records g; recordIndex := recordIndex g; loop := loop g |}.

(** [os.Open] followed by the CSV reader: what the file system holds
    under a path, [None] when the file cannot be opened. *)
Definition FileSystem : Type := string -> option Reader.

(** [loadSampleFile] *)
Definition loadSampleFile (fs : FileSystem) (now : Time) (g : Generator) : result Generator :=
  if String.eqb (config.SampleFile (portConfig g)) EmptyString
  then Err "sample_file is required for replay mode"
  else match fs (config.SampleFile (portConfig g)) with
       | None => Err "failed to open sample file"
       | Some file =>
           match ParseRecords (format_ g) now file with
           | Err e => Err ("failed to parse sample file: " +:+ e)
           | Ok rs =>
               if Nat.eqb (length rs) 0
               then Err "no records found in sample file"
               else Ok (setReplay g rs 0)
           end
       end.

(** [New] *)
Definition New (reg : registry.Registry) (fs : FileSystem) (now : Time)
    (portCfg : config.PortConfig) (jitterPercent : float) : result Generator :=
  match registry.Get (config.Format portCfg) reg with
  | Err e => Err ("unknown format " +:+ config.Format portCfg +:+ ": " +:+ e)
  | Ok f =>
      let mode := config.Mode portCfg in
      if negb (String.eqb mode ModeReplay) && negb (String.eqb mode ModeSynthetic)
      then Err ("invalid mode: " +:+ config.Mode portCfg)
      else
        let g := {| format_ := f;
                    mode := mode;
                    portConfig := portCfg;
                    rateLimiter := NewRateLimiter now (config.CallsPerMinute portCfg)
                                     jitterPercent;
                    genContext := None;
                    records := [];
                    recordIndex := 0;
                    loop := config.Loop portCfg |} in
        if String.eqb mode ModeReplay then loadSampleFile fs now g
        else
          let systemID :=
            match config.Synthetic portCfg with
            | Some syn => config.SystemID syn
            | None => "default"
            end in
          let psapName := "Default PSAP" in
          Ok (setGenContext g (Some (NewGenerationContext now systemID psapName 0)))
  end.

(** [g.records[i]]: an index out of range panics. *)
Definition recordAt (rs : list CDRRecord) (i : Z) : option CDRRecord :=
  if i <? 0 then None else nth_error rs (Z.to_nat i).

(** [nextReplayRecord]: the result and the generator it leaves;
    [None] is a run-time panic. *)
Definition nextReplayRecord (g : Generator) : option (result CDRRecord * Generator) :=
  if Nat.eqb (length (records g)) 0 then Some (Err "no records available", g)
  else
    match recordAt (records g) (recordIndex g) with
    | None => None
    | Some record =>
        let i := wrap64 (recordIndex g + 1) in
        if Z.of_nat (length (records g)) <=? i then
          if loop g then Some (Ok record, setReplay g (records g) 0)
          else Some (Err "end of sample file reached", setReplay g (records g) i)
        else Some (Ok record, setReplay g (records g) i)
    end.

(** [nextSyntheticRecord] *)
Definition nextSyntheticRecord (clock : Time) (g : Generator)
    : option (result CDRRecord * Generator) :=
  match genContext g with
  | None => Some (Err "generation context not initialized", g)
  | Some ctx =>
      match GenerateRecord (format_ g) clock ctx with
      | None => None
      | Some (r, ctx') => Some (r, setGenContext g (Some ctx'))
      end
  end.

(** [NextRecord] *)
Definition NextRecord (clock : Time) (g : Generator)
    : option (result CDRRecord * Generator) :=
  if String.eqb (mode g) ModeReplay then nextReplayRecord g
  else nextSyntheticRecord clock g.

(** [RecordCount] *)
Definition RecordCount (g : Generator) : Z :=
  if String.eqb (mode g) ModeReplay then Z.of_nat (length (records g)) else -1.

End WithRuntime.
End generator.

(** ** Package [serial]: the transport the channel consumes *)

Module serial.

Record PortConfig : Type := {
  Device : string;
  BaudRate : Z;
  DataBits : Z;
  StopBits : Z;
  Parity : string
}.

(** [type Port interface]: a method returns its results and the port it
    leaves; an error is [Some] message. *)
Class Port (P : Type) : Type := {
  Write : P -> string -> (Z * option string) * P;
Close : P -> option string * P;
  Flush : P -> option string * P;
  IsOpen : P -> bool
}.

(** [type Stats struct] of [PortWithStats]. *)
Record Stats : Type := {
  BytesSent : Z;
  RecordsSent : Z;
  Errors : Z;
  LastRecordTime : gotime.Time;
  OpenedAt : gotime.Time
}.

Definition newStats (now : gotime.Time) : Stats :=
  {| BytesSent := 0; RecordsSent := 0; Errors := 0; LastRecordTime := 0;
     OpenedAt := now |}.

(** [PortWithStats.Write]: the wrapper and the channel hold the same
    port, so the port is passed next to the wrapper's counters. *)
Definition WriteWithStats {P} `{Port P} (p : P) (st : Stats) (data : string)
    : (Z * option string) * P * Stats :=
  let '((n, err), p') := Write p data in
  match err with
  | Some e =>
      ((n, Some e), p',
       {| BytesSent := BytesSent st; RecordsSent := RecordsSent st;
          Errors := wrap64 (Errors st + 1);
          LastRecordTime := LastRecordTime st; OpenedAt := OpenedAt st |})
  | None =>
      ((n, None), p',
       {| BytesSent := wrap64 (BytesSent st + n); RecordsSent := RecordsSent st;
          Errors := Errors st;
          LastRecordTime := LastRecordTime st; OpenedAt := OpenedAt st |})
  end.

(** [PortWithStats.RecordSent] *)
Definition RecordSent (now : gotime.Time) (st : Stats) : Stats :=
  {| BytesSent := BytesSent st; RecordsSent := wrap64 (RecordsSent st + 1);
     Errors := Errors st; LastRecordTime := now; OpenedAt := OpenedAt st |}.

(** [type MockPort struct] ([mock.go]). *)
Record MockPort : Type := {
  buffer : string;
  device : string;
  isOpen : bool;
  writes : list string;
  writeErr : option string
}.

Definition NewMockPort (dev : string) : MockPort :=
  {| buffer := EmptyString; device := dev; isOpen := true; writes := [];
     writeErr := None |}.

Definition mockWrite (p : MockPort) (data : string) : (Z * option string) * MockPort :=
  if negb (isOpen p) then ((0, Some "port is closed"), p)
  else match writeErr p with
       | Some e => ((0, Some e), p)
       | None =>
           ((Z.of_nat (String.length data), None),
            {| buffer := buffer p +:+ data; device := device p; isOpen := isOpen p;
               writes := writes p ++ [data]; writeErr := writeErr p |})
       end.

Definition mockClose (p : MockPort) : option string * MockPort :=
  (None, {| buffer := buffer p; device := device p; isOpen := false;
            writes := writes p; writeErr := writeErr p |}).

Definition mockFlush (p : MockPort) : option string * MockPort :=
  if negb (isOpen p) then (Some "port is closed", p) else (None, p).

#[global] Instance MockPort_Port : Port MockPort :=
  {| Write := mockWrite; Close := mockClose; Flush := mockFlush; IsOpen := isOpen |}.

End serial.

(** ** Package [output]: channel and manager

    The logger calls of the channel are left out (they change nothing the
    channel reads); the manager's log lines are kept as a list. *)

Module output.
Import gotime.

Inductive ChannelState : Type :=
| StateInitializing
| StateRunning
| StatePaused
| StateReconnecting
| StateStopped
| StateError.

Record ChannelStats : Type := {
  RecordsSent : Z;
  BytesSent : Z;
  Errors : Z;
  LastRecordTime : Time;
  StartTime : Time;
  LastError : string
}.

Section WithTransport.
Context {RT : GoRuntime} {P : Type} {PortP : serial.Port P}.

Record Channel : Type := {
  config_ : config.PortConfig;
  recovery : config.RecoveryConfig;
  generator_ : generator.Generator;
  port : option P;
  portStats : serial.Stats;
  state : ChannelState;
  stats : ChannelStats
}.

Definition setState (c : Channel) (s : ChannelState) : Channel :=
  {| config_ := config_ c; recovery := recovery c; generator_ := generator_ c;
     port := port c; portStats := portStats c; state := s; stats := stats c |}.

Definition setStats (c : Channel) (s : ChannelStats) : Channel :=
  {| config_ := config_ c; recovery := recovery c; generator_ := generator_ c;
     port := port c; portStats := portStats c; state := state c; stats := s |}.

Definition setGenerator (c : Channel) (g : generator.Generator) : Channel :=
  {| config_ := config_ c; recovery := recovery c; generator_ := g;
     port := port c; portStats := portStats c; state := state c; stats := stats c |}.

Definition setPort (c : Channel) (p : option P) (ps : serial.Stats) : Channel :=
  {| config_ := config_ c; recovery := recovery c; generator_ := generator_ c;
     port := p; portStats := ps; state := state c; stats := stats c |}.

(** [NewChannel] *)
Definition NewChannel (now : Time) (portCfg : config.PortConfig)
    (recoveryCfg : config.RecoveryConfig) (gen : generator.Generator) : Channel :=
  {| config_ := portCfg; recovery := recoveryCfg; generator_ := gen;
     port := None; portStats := serial.newStats 0;
     state := StateInitializing;
     stats := {| RecordsSent := 0; BytesSent := 0; Errors := 0;
                 LastRecordTime := 0; StartTime := now;
                 LastError := EmptyString |} |}.

(** What [serial.Open] answers for a port configuration. *)
Definition Opener : Type := serial.PortConfig -> result P.

(** [openPort] *)
Definition openPort (open : Opener) (now : Time) (c : Channel) : option string * Channel :=
  let portCfg :=
    {| serial.Device := config.Device (config_ c);
       serial.BaudRate := config.BaudRate (config_ c);
       serial.DataBits := config.DataBits (config_ c);
       serial.StopBits := config.StopBits (config_ c);
       serial.Parity := config.Parity (config_ c) |} in
  match open portCfg with
  | Err e => (Some e, c)
  | Ok p => (None, setPort c (Some p) (serial.newStats now))
  end.

(** [Start], up to launching the output loop. *)
Definition Start (open : Opener) (now : Time) (c : Channel) : option string * Channel :=
  let c := setState c StateInitializing in
  match openPort open now c with
  | (Some e, c') => (Some ("failed to open port: " +:+ e), setState c' StateError)
  | (None, c') => (None, setState c' StateRunning)
  end.

(** [sendNextRecord]; [None] is a run-time panic. *)
Definition sendNextRecord (now : Time) (c : Channel) : option (option string * Channel) :=
  match generator.NextRecord now (generator_ c) with
  | None => None
  | Some (Err e, g) => Some (Some ("failed to get next record: " +:+ e), setGenerator c g)
  | Some (Ok record, g) =>
      let c := setGenerator c g in
      match port c with
      | None => None
      | Some p =>
          let data := format.Output record in
          let '((n, err), p, ps) := serial.WriteWithStats p (portStats c) data in
          match err with
          | Some e => Some (Some ("failed to write to port: " +:+ e), setPort c (Some p) ps)
          | None =>
              let '(_, p) := serial.Flush p in
              let c := setPort c (Some p) (serial.RecordSent now ps) in
              Some (None,
                    setStats c
                      {| RecordsSent := wrap64 (RecordsSent (stats c) + 1);
                         BytesSent := wrap64 (BytesSent (stats c) + n);
                         Errors := Errors (stats c);
                         LastRecordTime := now;
                         StartTime := StartTime (stats c);
                         LastError := LastError (stats c) |})
          end
      end
  end.

(** One turn of the reconnect loop: whether stop was requested when the
    turn began, and what [serial.Open] answered. *)
Record attempt : Type := { stopRequested : bool; opened : result P }.

(** The loop of [reconnect] over the turns that have happened so far:
    the channel, the current delay, and whether the procedure has
    returned. *)
Fixpoint reconnectLoop (now : Time) (turns : list attempt) (delay maxDelay : Duration)
    (c : Channel) : Channel * Duration * bool :=
  match turns with
  | [] => (c, delay, false)
  | t :: rest =>
      if stopRequested t then (c, delay, true)
      else
        match openPort (fun _ => opened t) now c with
        | (Some _, c') =>
            let delay' :=
              if config.ExponentialBackoff (recovery c) then
                let d2 := wrap64 (delay * 2) in
                if maxDelay <? d2 then maxDelay else d2
              else delay in
            reconnectLoop now rest delay' maxDelay c'
        | (None, c') => (setState c' StateRunning, delay, true)
        end
  end.

(** [reconnect] *)
Definition reconnect (now : Time) (turns : list attempt) (c : Channel)
    : Channel * Duration * bool :=
  let c := setState c StateReconnecting in
  reconnectLoop now turns (config.GetReconnectDelay (recovery c))
    (config.GetMaxReconnectDelay (recovery c)) c.

Definition recordError (c : Channel) (err : string) : Channel :=
  setStats c
    {| RecordsSent := RecordsSent (stats c);
       BytesSent := BytesSent (stats c);
       Errors := wrap64 (Errors (stats c) + 1);
       LastRecordTime := LastRecordTime (stats c);
       StartTime := StartTime (stats c);
       LastError := err |}.

(** [handleError]; the port is set once the loop runs, a nil port
    panics. *)
Definition handleError (now : Time) (turns : list attempt) (c : Channel) (err : string)
    : option Channel :=
  let c := recordError c err in
  match port c with
  | None => None
  | Some p =>
      if negb (serial.IsOpen p) then Some (reconnect now turns c).1.1
      else Some c
  end.

(** The [case <-ticker.C] branch of [outputLoop]. *)
Definition tick (now : Time) (turns : list attempt) (c : Channel) : option Channel :=
  match sendNextRecord now c with
  | None => None
  | Some (Some err, c') => handleError now turns c' err
  | Some (None, c') => Some c'
  end.

(** *** The manager ([manager.go]) *)

Record logEntry : Type := { level : string; msg : string; device : string }.

Record Manager : Type := {
  mconfig : config.Config;
  channels : list Channel;
  logs : list logEntry
}.

Definition NewManager (cfg : config.Config) : Manager :=
  {| mconfig := cfg; channels := []; logs := [] |}.

Definition logTo (m : Manager) (lvl text dev : string) : Manager :=
  {| mconfig := mconfig m; channels := channels m;
     logs := logs m ++ [{| level := lvl; msg := text; device := dev |}] |}.

Definition addChannel (m : Manager) (c : Channel) : Manager :=
  {| mconfig := mconfig m; channels := channels m ++ [c]; logs := logs m |}.

(** The loop over [m.config.Ports]; an error leaves the loop and
    [Start]. *)
Fixpoint startPorts (reg : registry.Registry) (fs : generator.FileSystem)
    (open : Opener) (now : Time) (ports : list config.PortConfig) (m : Manager)
    : option string * Manager :=
  match ports with
  | [] => (None, m)
  | portCfg :: rest =>
      if negb (config.Enabled portCfg)
      then startPorts reg fs open now rest
             (logTo m "INFO" "Skipping disabled port" (config.Device portCfg))
      else
        match generator.New reg fs now portCfg (config.JitterPercent (mconfig m)) with
        | Err e =>
            (Some ("failed to create generator for " +:+ config.Device portCfg +:+
                   ": " +:+ e), m)
        | Ok gen =>
            let channel := NewChannel now portCfg (config.Recovery (mconfig m)) gen in
            match Start open now channel with
            | (Some _, _) =>
                startPorts reg fs open now rest
                  (logTo m "ERROR" "Failed to start channel" (config.Device portCfg))
            | (None, channel') =>
                startPorts reg fs open now rest
                  (logTo (addChannel m channel') "INFO" "Started output channel"
                     (config.Device portCfg))
            end
        end
  end.

(** [Manager.Start] *)
Definition ManagerStart (reg : registry.Registry) (fs : generator.FileSystem)
    (open : Opener) (now : Time) (m : Manager) : option string * Manager :=
  match startPorts reg fs open now (config.Ports (mconfig m)) m with
  | (Some e, m') => (Some e, m')
  | (None, m') =>
      if Nat.eqb (length (channels m')) 0
      then (Some "no output channels started", m')
      else (None, logTo m' "INFO" "Output manager started" EmptyString)
  end.

End WithTransport.
End output.

(** * Definitions the statements use *)

(** ** A runtime to execute the model on concrete inputs

    Any choice will do where a property is checked on an example: the
    outcome stream is an arithmetic progression from the seed, and the
    formatting functions print the layout or verb they were given. *)

Definition sampleRuntime : GoRuntime :=
  {| rngStream := fun seed i => seed + 7919 * Z.of_nat i + 12345678;
     timeFormat := fun _ layout => "<" +:+ layout +:+ ">";
     fmtFloat := fun verb _ => "<" +:+ verb +:+ ">";
     float64ToInt64Undef := fun _ => minInt64 |}.

(** ** Sample inputs *)

Definition samplePortConfig : config.PortConfig :=
  {| config.Device := "/dev/ttyS0"; config.BaudRate := 9600; config.DataBits := 8;
     config.StopBits := 1; config.Parity := "none"; config.Format := "viper";
     config.Mode := "replay"; config.SampleFile := "viper.csv"; config.Loop := false;
     config.CallsPerMinute := 60; config.Enabled := true;
     config.Description := EmptyString; config.Synthetic := None |}.

Definition sampleRecords : list format.CDRRecord :=
  [ {| format.ID := "1"; format.Type_ := "cdr"; format.Timestamp := 0;
       format.Duration_ := 0;
       format.Lines := ["===== CDR BEGIN : a ====="; "first"; "===== CDR END ====="] |};
    {| format.ID := "2"; format.Type_ := "cdr"; format.Timestamp := 0;
       format.Duration_ := 0;
       format.Lines := ["===== CDR BEGIN : b ====="; "second"; "===== CDR END ====="] |} ].

(** A replay generator holding the two sample records, looping disabled. *)
Definition sampleReplayGenerator : generator.Generator :=
  {| generator.format_ := viper.ViperFormat (RT := sampleRuntime);
     generator.mode := generator.ModeReplay;
     generator.portConfig := samplePortConfig;
     generator.rateLimiter :=
       generator.NewRateLimiter (RT := sampleRuntime) 0 60 0;
     generator.genContext := None;
     generator.records := sampleRecords;
     generator.recordIndex := 0;
     generator.loop := false |}.

Definition sampleRecovery : config.RecoveryConfig :=
  {| config.ReconnectDelaySec := 1; config.MaxReconnectDelaySec := 8;
     config.ExponentialBackoff := true |}.

(** A channel over a mock port, started, whose generator is [g]. *)
Definition sampleChannelOf (g : generator.Generator) : output.Channel (P := serial.MockPort) :=
  (output.Start (fun _ => Ok (serial.NewMockPort "/dev/ttyS0")) 0
     (output.NewChannel 0 samplePortConfig sampleRecovery g)).2.

(** ** Replay production *)

Section ReplayDefs.
Import format generator.

(** [n] consecutive calls of [NextRecord]: their results in order and the
    generator left behind; [None] as soon as one call panics. *)
Fixpoint callN (now : gotime.Time) (n : nat) (g : Generator)
    : option (list (result CDRRecord) * Generator) :=
  match n with
  | O => Some ([], g)
  | S n' =>
      match NextRecord now g with
      | None => None
      | Some (r, g') =>
          match callN now n' g' with
          | None => None
          | Some (rs, g'') => Some (r :: rs, g'')
          end
      end
  end.

(** A replay generator over [rs] with the cursor at [i]. *)
Definition replayAt (g : Generator) (rs : list CDRRecord) (i : Z) (lp : bool) : Prop :=
  mode g = ModeReplay /\ records g = rs /\ recordIndex g = i /\ loop g = lp.

End ReplayDefs.

(** ** The registry *)

Section RegistryDefs.
Import format registry.

(** A run of [Register] calls, errors ignored, as the [init] functions of
    the format packages make them. *)
Definition registerAll (fs : list CDRFormat) (reg : Registry) : Registry :=
  fold_left (fun r f => (Register f r).2) fs reg.

End RegistryDefs.

(** The registry after the [init] functions of [vesta] and [viper]. *)
Definition sampleRegistry : registry.Registry :=
  registerAll [vesta.VestaFormat (RT := sampleRuntime);
               viper.ViperFormat (RT := sampleRuntime)] ∅.

(** ** Manager start-up *)

Section ManagerDefs.
Context {RT : GoRuntime} {P : Type} {PortP : serial.Port P}.
Import output.

(** What one endpoint contributes to the manager's channel list when its
    generator can be built: the started channel, or nothing when the
    endpoint is disabled or its channel fails to start. *)
Definition tryStart (reg : registry.Registry) (fs : generator.FileSystem)
    (open : Opener (P := P)) (now : gotime.Time) (cfg : config.Config)
    (portCfg : config.PortConfig) : option (Channel (P := P)) :=
  if config.Enabled portCfg then
    match generator.New reg fs now portCfg (config.JitterPercent cfg) with
    | Ok gen =>
        match Start open now (NewChannel now portCfg (config.Recovery cfg) gen) with
        | (None, c) => Some c
        | (Some _, _) => None
        end
    | Err _ => None
    end
  else None.

(** Every enabled endpoint of the list gets its generator. *)
Definition generatorsOk (reg : registry.Registry) (fs : generator.FileSystem)
    (now : gotime.Time) (cfg : config.Config) (ports : list config.PortConfig) : Prop :=
  forall p, p ∈ ports -> config.Enabled p = true ->
    is_ok (generator.New reg fs now p (config.JitterPercent cfg)) = true.

End ManagerDefs.

(** A synthetic viper endpoint on a given device, and an endpoint whose
    format is not registered. *)
Definition sampleSyntheticPort (dev : string) : config.PortConfig :=
  {| config.Device := dev; config.BaudRate := 9600; config.DataBits := 8;
     config.StopBits := 1; config.Parity := "none"; config.Format := "viper";
     config.Mode := "synthetic"; config.SampleFile := EmptyString;
     config.Loop := false; config.CallsPerMinute := 60; config.Enabled := true;
     config.Description := EmptyString;
     config.Synthetic :=
       Some {| config.SystemID := "psap-1"; config.AgentCount := 10;
               config.MinDurationSec := 400; config.MaxDurationSec := 500;
               config.IncludeAgentEvents := true |} |}.

Definition sampleBadFormatPort (dev : string) : config.PortConfig :=
  {| config.Device := dev; config.BaudRate := 9600; config.DataBits := 8;
     config.StopBits := 1; config.Parity := "none"; config.Format := "nope";
     config.Mode := "synthetic"; config.SampleFile := EmptyString;
     config.Loop := false; config.CallsPerMinute := 60; config.Enabled := true;
     config.Description := EmptyString; config.Synthetic := None |}.

Definition sampleConfig (ports : list config.PortConfig) : config.Config :=
  {| config.Ports := ports; config.JitterPercent := 0;
     config.Recovery := sampleRecovery |}.

(** No files, and a serial layer that opens a mock port for any device. *)
Definition sampleNoFiles : generator.FileSystem := fun _ => None.
Definition sampleOpener : output.Opener (P := serial.MockPort) :=
  fun cfg => Ok (serial.NewMockPort (serial.Device cfg)).

(** A manager over one endpoint that can start followed by one whose
    format is unknown, and over the same two in the other order. *)
Definition sampleManagerGoodBad : output.Manager (P := serial.MockPort) :=
  output.NewManager
    (sampleConfig [sampleSyntheticPort "/dev/ttyS0"; sampleBadFormatPort "/dev/ttyS1"]).
Definition sampleManagerBadGood : output.Manager (P := serial.MockPort) :=
  output.NewManager
    (sampleConfig [sampleBadFormatPort "/dev/ttyS1"; sampleSyntheticPort "/dev/ttyS0"]).

(** ** Reasoning about generation

    [post m ctx Q]: if [m] returns from [ctx], its result and the context
    it leaves satisfy [Q] (a panic satisfies any [Q]). *)

Section GenerationDefs.
Import format.

Definition post {A} (m : Gen A) (ctx : GenerationContext)
    (Q : A -> GenerationContext -> Prop) : Prop :=
  match m ctx with
  | Some (a, c) => Q a c
  | None => True
  end.

(** The computation returns, and with a result and a context that
    satisfy [Q]. *)
Definition runs {A} (m : Gen A) (ctx : GenerationContext)
    (Q : A -> GenerationContext -> Prop) : Prop :=
  match m ctx with
  | Some (a, c) => Q a c
  | None => False
  end.

(** The pools the random picks draw from hold at least one entry each. *)
Definition poolsInhabited (c : GenerationContext) : Prop :=
  AgentPool c <> [] /\ LocationPool c <> [] /\ CarrierPool c <> [].

(** The fields generation never writes. *)
Definition sameStatic (c c' : GenerationContext) : Prop :=
  SystemID c' = SystemID c /\ PSAPName c' = PSAPName c /\
  AgentPool c' = AgentPool c /\ LocationPool c' = LocationPool c /\
  CarrierPool c' = CarrierPool c /\ CurrentTime c' = CurrentTime c.

(** The context holds the pools [NewGenerationContext] installs. *)
Definition defaultPools (c : GenerationContext) : Prop :=
  AgentPool c = defaultAgents /\ LocationPool c = defaultLocations /\
  CarrierPool c = defaultCarriers.

End GenerationDefs.

(** The generator [New] builds for the synthetic sample endpoint, whose
    configuration asks for durations between 400 and 500 seconds. *)
Definition sampleSyntheticGenerator : generator.Generator :=
  match generator.New (RT := sampleRuntime) sampleRegistry sampleNoFiles 0
          (sampleSyntheticPort "/dev/ttyS0") 0 with
  | Ok g => g
  | Err _ => sampleReplayGenerator
  end.

(** A second synthetic generator, built later for another device with
    another system identity. *)
Definition sampleOtherSyntheticGenerator : generator.Generator :=
  match generator.New (RT := sampleRuntime) sampleRegistry sampleNoFiles 1000
          {| config.Device := "/dev/ttyS1"; config.BaudRate := 9600;
             config.DataBits := 8; config.StopBits := 1; config.Parity := "none";
             config.Format := "VESTA"; config.Mode := "synthetic";
             config.SampleFile := EmptyString; config.Loop := false;
             config.CallsPerMinute := 2.5; config.Enabled := true;
             config.Description := EmptyString;
             config.Synthetic :=
               Some {| config.SystemID := "psap-2"; config.AgentCount := 4;
                       config.MinDurationSec := 30; config.MaxDurationSec := 600;
                       config.IncludeAgentEvents := false |} |} 20 with
  | Ok g => g
  | Err _ => sampleReplayGenerator
  end.

(** ** Random draws *)

(** The outcomes of [Intn] for a list of bounds, drawn in order from a
    source; [None] when a bound makes [Intn] panic. *)
Fixpoint intnSeq (r : gorand.Rand) (bounds : list Z) : option (list Z) :=
  match bounds with
  | [] => Some []
  | n :: rest =>
      match gorand.Intn r n with
      | None => None
      | Some (v, r') =>
          match intnSeq r' rest with
          | None => None
          | Some vs => Some (v :: vs)
          end
      end
  end.

(** ** Reading viper blocks *)

Section ViperBlockDefs.
Import format samplelog viper.

Definition trimmedOf (m : message) : string := gostrings.TrimSpace (Message m).

(** The line is a [BEGIN] marker line of either kind. *)
Definition isBeginLine (s : string) : bool :=
  gostrings.HasPrefix (gostrings.TrimSpace s) ViperCDRBegin
  || gostrings.HasPrefix (gostrings.TrimSpace s) ViperAgentBegin.

Definition isEndMarker (t : string) : bool :=
  String.eqb t ViperCDREnd || String.eqb t ViperAgentEnd.

(** The line is an [END] marker line of either kind. *)
Definition isEndLine (s : string) : bool :=
  negb (isBeginLine s) && isEndMarker (gostrings.TrimSpace s).

(** The line is no marker line. *)
Definition isPlainLine (s : string) : bool :=
  negb (isBeginLine s) && negb (isEndMarker (gostrings.TrimSpace s)).

Definition isBeginMsg (m : message) : bool := isBeginLine (Message m).
Definition isEndMsg (m : message) : bool := isEndLine (Message m).
Definition isPlainMsg (m : message) : bool := isPlainLine (Message m).

Definition isBlankMsg (m : message) : bool := String.eqb (trimmedOf m) EmptyString.

(** The messages a block captures from the lines between its markers:
    those that are not blank, as they stand. *)
Definition captured (body : list message) : list string :=
  map Message (List.filter (fun m => negb (isBlankMsg m)) body).

(** The kind of block a [BEGIN] line opens. *)
Definition blockType (b : message) : string :=
  if gostrings.HasPrefix (trimmedOf b) ViperCDRBegin then "cdr" else "agent".

(** The identifier the loop holds after a captured line. *)
Definition nextID (id : string) (line : string) : string :=
  if String.eqb id EmptyString && gostrings.Contains line "Incoming Call(ID:"
  then match incomingCallID line with
       | Some id' => id'
       | None => id
       end
  else id.

(** The identifier of a block: from the first captured line that holds
    an extractable one. *)
Definition blockID (body : list message) : string :=
  fold_left nextID (captured body) EmptyString.

(** The record of a block with the given lines. *)
Definition blockRecord (now : gotime.Time) (b : message) (body : list message)
    (lines : list string) : CDRRecord :=
  {| ID := blockID body; Type_ := blockType b; Timestamp := now;
     Duration_ := 0; Lines := lines |}.

(** The state with further records in front of its own. *)
Definition prepend (R : list CDRRecord) (st : loopState) : loopState :=
  {| records := R ++ records st; currentLines := currentLines st;
     currentID := currentID st; currentType := currentType st;
     inBlock := inBlock st |}.

End ViperBlockDefs.

(** ** Reading vesta blocks *)

Section VestaBlockDefs.
Import format samplelog.

(** The identifier the vesta loop holds after a captured line. *)
Definition vestaNextID (id : string) (line : string) : string :=
  if gostrings.Contains line "Call " && gostrings.Contains line "Arrives On"
  then match vesta.afterCall (gostrings.Fields line) with
       | Some id' => id'
       | None => id
       end
  else id.

(** The vesta state with further records in front of its own. *)
Definition vestaPrepend (R : list CDRRecord) (st : vesta.loopState) : vesta.loopState :=
  {| vesta.records := R ++ vesta.records st;
     vesta.currentLines := vesta.currentLines st;
     vesta.currentID := vesta.currentID st |}.

(** The messages end where no vesta block is open: there are none, or
    the last one is a separator. *)
Definition vestaBoundary (pre : list message) : Prop :=
  match last pre with
  | None => True
  | Some m => Message m = vesta.VestaSeparator
  end.

(** The record of a vesta block with the given messages and lines. *)
Definition vestaBlockRecord (now : gotime.Time) (body : list message)
    (lines : list string) : CDRRecord :=
  vesta.mkRecord now (fold_left vestaNextID (map Message body) EmptyString) lines.

End VestaBlockDefs.


(** ** Shapes of lines *)

(** The line starts with a byte that is neither white space nor [=]. *)
Definition plainStart (s : string) : bool :=
  match s with
  | String c _ => negb (gostrings.isSpace c) && negb (Ascii.eqb c "=")
  | EmptyString => false
  end.

(** The line is not empty and does not start with [-]. *)
Definition vestaText (s : string) : bool :=
  match s with
  | String c _ => negb (Ascii.eqb c "-")
  | EmptyString => false
  end.

(** The line starts with a decimal digit. *)
Definition digitStart (s : string) : bool :=
  match s with
  | String c _ =>
      match strconv.digitVal c with Some _ => true | None => false end
  | EmptyString => false
  end.

(** A message the vesta loop appends to the open block: neither empty
    nor the separator. *)
Definition vestaCaptured (s : string) : bool :=
  negb (String.eqb s EmptyString) && negb (String.eqb s vesta.VestaSeparator).

(** ** Shapes of generated records *)

Section ShapeDefs.
Import format viper.

Definition isBlankLine (s : string) : bool :=
  String.eqb (gostrings.TrimSpace s) EmptyString.

(** The lines that are not blank. *)
Definition nonBlank (lines : list string) : list string :=
  List.filter (fun s => negb (isBlankLine s)) lines.

(** Lines that form one marker-delimited block: a first line that starts
    with the BEGIN marker and is its own trim, the END marker as last
    line, and no marker line between them. *)
Definition closedBlock (beginMarker endMarker : string) (lines : list string) : Prop :=
  match lines with
  | b :: rest =>
      String.prefix beginMarker b = true /\
      gostrings.TrimSpace b = b /\
      last rest = Some endMarker /\
      forallb isPlainLine (removelast rest) = true
  | [] => False
  end.

(** The lines of a viper record: a call block, alone or followed by an
    empty line and an agent block. *)
Definition viperShape (lines : list string) : Prop :=
  closedBlock ViperCDRBegin ViperCDREnd lines \/
  exists c a, lines = c ++ EmptyString :: a /\
              closedBlock ViperCDRBegin ViperCDREnd c /\
              closedBlock ViperAgentBegin ViperAgentEnd a.

(** What the viper lines need of a location and of a carrier taken from
    the pools. *)
Definition locationLinesOK (l : Location) : bool :=
  plainStart (gostrings.take
                (Z.to_nat (viper.min 16 (Z.of_nat (String.length (Address l)))))
                (Address l))
  && plainStart (gostrings.ToUpper (Address l))
  && plainStart (City l).

Definition carrierLinesOK (c : Carrier) : bool := plainStart (CarrierName c).

(** The rows a collector holds after capturing the lines in order: one
    row per line, numbered from 1, newest first. *)
Definition captureLog (lines : list string) : list (string * string) :=
  rev (imap (fun i l => (gofmt.d (Z.of_nat (S i)), l)) lines).

(** The messages of captured lines: numbered from 1, in order. *)
Definition capturedMessages (lines : list string) : list samplelog.message :=
  imap (fun i l => {| samplelog.SysIdent := Z.of_nat (S i); samplelog.Message := l |})
       lines.

(** The number of blocks a parser reads from the captured lines of a
    generated record. *)
Definition reparseCount (parse : Reader -> result (list CDRRecord))
    (out : option (result CDRRecord * GenerationContext)) : option nat :=
  match out with
  | Some (Ok rec, _) =>
      match parse (Ok (captureLog (Lines rec))) with
      | Ok blocks => Some (length blocks)
      | Err _ => None
      end
  | _ => None
  end.

End ShapeDefs.

(** The context [New] installs for the sample synthetic endpoint. *)
Definition sampleContext : format.GenerationContext :=
  format.NewGenerationContext (RT := sampleRuntime) 1000 "psap-1" "Default PSAP" 0.

(** * Properties *)

(** ** Basic facts *)

Lemma wrap64_id (z : Z) : minInt64 <= z <= maxInt64 -> wrap64 z = z.
Proof.
  unfold wrap64, minInt64, maxInt64. intros Hz.
  rewrite Z.mod_small; lia.
Qed.

(** ** Replay production ([nextReplayRecord]) *)

Section Replay.
Import format generator.

Lemma replayAt_setReplay g rs i j lp :
  replayAt g rs i lp -> replayAt (setReplay g rs j) rs j lp.
Proof. intros (Hm & Hr & Hi & Hl). repeat split; simpl; auto. Qed.

Lemma recordAt_nth (rs : list CDRRecord) (k : nat) :
  recordAt rs (Z.of_nat k) = nth_error rs k.
Proof.
  unfold recordAt. destruct (Z.ltb_spec (Z.of_nat k) 0); [lia|].
  now rewrite Nat2Z.id.
Qed.

(** A call with the cursor before the last record succeeds and advances. *)
Lemma nextReplay_inner now g rs (k : nat) lp r :
  replayAt g rs (Z.of_nat k) lp ->
  Z.of_nat (length rs) <= maxInt64 ->
  nth_error rs k = Some r ->
  (S k < length rs)%nat ->
  NextRecord now g = Some (Ok r, setReplay g rs (Z.of_nat (S k))).
Proof.
  intros (Hm & Hr & Hi & Hl) Hmax Hnth Hlt.
  unfold NextRecord. rewrite Hm. simpl.
  unfold nextReplayRecord. rewrite Hr, Hi.
  destruct (length rs) as [|n] eqn:Hn; [lia|]. simpl Nat.eqb. cbv iota.
  rewrite recordAt_nth, Hnth.
  rewrite wrap64_id by (unfold minInt64, maxInt64 in *; lia).
  replace (Z.of_nat k + 1) with (Z.of_nat (S k)) by lia.
  destruct (Z.leb_spec (Z.of_nat (S n)) (Z.of_nat (S k))); [lia|]. reflexivity.
Qed.

(** The call that reads the last record, looping disabled: the record is
    dropped and the call fails. *)
Lemma nextReplay_last_noloop now g rs (k : nat) r :
  replayAt g rs (Z.of_nat k) false ->
  Z.of_nat (length rs) <= maxInt64 ->
  nth_error rs k = Some r ->
  S k = length rs ->
  NextRecord now g =
    Some (Err "end of sample file reached", setReplay g rs (Z.of_nat (S k))).
Proof.
  intros (Hm & Hr & Hi & Hl) Hmax Hnth Hlen.
  unfold NextRecord. rewrite Hm. simpl.
  unfold nextReplayRecord. rewrite Hr, Hi, Hl.
  rewrite <- Hlen. simpl Nat.eqb. cbv iota.
  rewrite recordAt_nth, Hnth.
  rewrite wrap64_id by (unfold minInt64, maxInt64 in *; lia).
  replace (Z.of_nat k + 1) with (Z.of_nat (S k)) by lia.
  rewrite Z.leb_refl. reflexivity.
Qed.

(** With the cursor past the end the slice index panics. *)
Lemma nextReplay_past_end now g rs lp :
  replayAt g rs (Z.of_nat (length rs)) lp ->
  rs <> [] ->
  NextRecord now g = None.
Proof.
  intros (Hm & Hr & Hi & Hl) Hne.
  unfold NextRecord. rewrite Hm. simpl.
  unfold nextReplayRecord. rewrite Hr, Hi.
  destruct rs as [|r0 rs']; [congruence|]. simpl Nat.eqb. cbv iota.
  rewrite recordAt_nth.
  assert (Hnone : nth_error (r0 :: rs') (length (r0 :: rs')) = None)
    by (apply nth_error_None; lia).
  now rewrite Hnone.
Qed.

(** The first calls, as long as the cursor stays before the last record. *)
Lemma callN_inner now rs lp : forall (n k : nat) g,
  replayAt g rs (Z.of_nat k) lp ->
  Z.of_nat (length rs) <= maxInt64 ->
  (k + n < length rs)%nat ->
  callN now n g =
    Some (map Ok (firstn n (skipn k rs)), setReplay g rs (Z.of_nat (k + n))).
Proof.
  induction n as [|n IH]; intros k g Hg Hmax Hlt.
  - simpl. rewrite Nat.add_0_r. destruct Hg as (Hm & Hr & Hi & Hl).
    destruct g; simpl in *; subst; reflexivity.
  - destruct (nth_error rs k) as [r|] eqn:Hnth;
      [|apply nth_error_None in Hnth; lia].
    simpl. rewrite (nextReplay_inner now g rs k lp r) by (auto; lia).
    rewrite (IH (S k)); [| eapply replayAt_setReplay; eauto | auto | lia].
    assert (Hs : skipn k rs = r :: skipn (S k) rs).
    { clear -Hnth. revert k Hnth. induction rs as [|a rs IHrs]; intros [|k] H;
        simpl in *; try discriminate.
      - now injection H as ->.
      - now apply IHrs. }
    rewrite Hs. simpl. repeat f_equal. lia.
Qed.

(** C1 (the code departs from the claim).  A replay generator loaded with
    N >= 1 records, cursor at the start, looping disabled: the first
    N - 1 calls return the first N - 1 records in order; the N-th call
    reads the last record but fails with "end of sample file reached"
    instead of returning it; the (N+1)-th call panics on the slice index
    instead of failing with an error. *)
Theorem replay_noloop_last_record_lost now g rs :
  replayAt g rs 0 false ->
  rs <> [] ->
  Z.of_nat (length rs) <= maxInt64 ->
  exists g1 g2,
    callN now (length rs - 1) g =
      Some (map Ok (firstn (length rs - 1) rs), g1) /\
    NextRecord now g1 = Some (Err "end of sample file reached", g2) /\
    NextRecord now g2 = None.
Proof.
  intros Hg Hne Hmax.
  assert (Hlen : (0 < length rs)%nat) by (destruct rs; [congruence | simpl; lia]).
  destruct (nth_error rs (length rs - 1)) as [r|] eqn:Hnth;
    [|apply nth_error_None in Hnth; lia].
  exists (setReplay g rs (Z.of_nat (0 + (length rs - 1)))),
         (setReplay (setReplay g rs (Z.of_nat (0 + (length rs - 1)))) rs
            (Z.of_nat (S (length rs - 1)))).
  split; [|split].
  - apply (callN_inner now rs false (length rs - 1) 0 g); auto; lia.
  - apply nextReplay_last_noloop with (r := r); auto; [|lia].
    eapply replayAt_setReplay; eauto.
  - apply (nextReplay_past_end now _ rs false); auto.
    assert (Hpos : Z.of_nat (S (length rs - 1)) = Z.of_nat (length rs)) by lia.
    rewrite Hpos.
    eapply replayAt_setReplay. eapply replayAt_setReplay; eauto.
Qed.

End Replay.

(** The theorem on the two-record sample generator: the first call returns
    the first record, the second fails, the third panics. *)
Lemma replay_noloop_last_record_lost_sample :
  exists g1 g2,
    callN 0 (length sampleRecords - 1) sampleReplayGenerator =
      Some (map Ok (firstn (length sampleRecords - 1) sampleRecords), g1) /\
    generator.NextRecord 0 g1 = Some (Err "end of sample file reached", g2) /\
    generator.NextRecord 0 g2 = None.
Proof.
  apply (replay_noloop_last_record_lost 0 sampleReplayGenerator sampleRecords).
  - repeat split.
  - discriminate.
  - vm_compute. discriminate.
Defined.

(** ** The channel's production loop *)

Section ChannelErrors.
Context {P : Type} {PortP : serial.Port P}.
Import format generator output.

(** [recordError] touches the error counter and the last error only. *)
Lemma recordError_spec (c : Channel (P := P)) err :
  Errors (stats (recordError c err)) = wrap64 (Errors (stats c) + 1) /\
  LastError (stats (recordError c err)) = err /\
  RecordsSent (stats (recordError c err)) = RecordsSent (stats c) /\
  BytesSent (stats (recordError c err)) = BytesSent (stats c) /\
  state (recordError c err) = state c /\
  port (recordError c err) = port c /\
  generator_ (recordError c err) = generator_ c.
Proof. repeat split. Qed.

(** [handleError] with the transport open: the error is counted and
    recorded, nothing else changes. *)
Lemma handleError_open now turns (c : Channel (P := P)) err p :
  port c = Some p -> serial.IsOpen p = true ->
  handleError now turns c err = Some (recordError c err).
Proof.
  intros Hp Ho. unfold handleError.
  change (port (recordError c err)) with (port c). rewrite Hp, Ho. reflexivity.
Qed.

(** [handleError] with the transport closed: the error is counted and
    recorded and the reconnect procedure runs on the result. *)
Lemma handleError_closed now turns (c : Channel (P := P)) err p :
  port c = Some p -> serial.IsOpen p = false ->
  handleError now turns c err = Some (reconnect now turns (recordError c err)).1.1.
Proof.
  intros Hp Ho. unfold handleError.
  change (port (recordError c err)) with (port c). rewrite Hp, Ho. reflexivity.
Qed.

(** The reconnect loop leaves the statistics alone. *)
Lemma reconnectLoop_stats now turns : forall delay maxDelay (c : Channel (P := P)),
  stats (reconnectLoop now turns delay maxDelay c).1.1 = stats c.
Proof.
  induction turns as [|t rest IH]; intros delay maxDelay c; simpl; [reflexivity|].
  destruct (stopRequested t); [reflexivity|].
  unfold openPort. destruct (opened t) as [p|e]; simpl.
  - reflexivity.
  - now rewrite IH.
Qed.

(** The reconnect procedure enters [StateReconnecting]; it is left only
    through a reopen that succeeds, which sets [StateRunning]. *)
Lemma reconnectLoop_state now turns : forall delay maxDelay (c : Channel (P := P)),
  state c = StateReconnecting ->
  state (reconnectLoop now turns delay maxDelay c).1.1 = StateReconnecting \/
  state (reconnectLoop now turns delay maxDelay c).1.1 = StateRunning.
Proof.
  induction turns as [|t rest IH]; intros delay maxDelay c Hs; simpl; [now left|].
  destruct (stopRequested t); [now left|].
  unfold openPort. destruct (opened t) as [p|e]; simpl.
  - now right.
  - apply IH. exact Hs.
Qed.

Lemma reconnect_enters now (c : Channel (P := P)) :
  state (reconnect now [] c).1.1 = StateReconnecting.
Proof. reflexivity. Qed.

(** A failed tick (generator error or write error) with the transport
    open: the error is counted, its message recorded, the state kept. *)
Lemma tick_failure_open now turns (c c1 : Channel (P := P)) err p :
  sendNextRecord now c = Some (Some err, c1) ->
  port c1 = Some p -> serial.IsOpen p = true ->
  tick now turns c = Some (recordError c1 err).
Proof.
  intros Hs Hp Ho. unfold tick. rewrite Hs. now apply handleError_open with (p := p).
Qed.

(** C7 (the code departs from the claim).  A running channel with its
    transport open whose replay generator, looping disabled, has its
    cursor on the last record: the tick fails with the end-of-sample
    error, which is counted and recorded while the state stays as it was;
    the tick after it does not record an error: the generator's slice
    index panics and the panic leaves the loop. *)
Theorem tick_after_exhaustion_panics now turns turns' (c : Channel (P := P)) rs (k : nat) p :
  replayAt (generator_ c) rs (Z.of_nat k) false ->
  S k = length rs ->
  Z.of_nat (length rs) <= maxInt64 ->
  port c = Some p ->
  serial.IsOpen p = true ->
  exists c1,
    tick now turns c = Some c1 /\
    state c1 = state c /\
    Errors (stats c1) = wrap64 (Errors (stats c) + 1) /\
    LastError (stats c1) = "failed to get next record: end of sample file reached" /\
    tick now turns' c1 = None.
Proof.
  intros Hg Hk Hmax Hp Ho.
  destruct (nth_error rs k) as [r|] eqn:Hnth; [|apply nth_error_None in Hnth; lia].
  pose proof (nextReplay_last_noloop now _ rs k r Hg Hmax Hnth Hk) as Hnext.
  set (g1 := setReplay (generator_ c) rs (Z.of_nat (S k))) in *.
  assert (Hsend : sendNextRecord now c =
            Some (Some "failed to get next record: end of sample file reached",
                  setGenerator c g1)).
  { unfold sendNextRecord. rewrite Hnext. reflexivity. }
  exists (recordError (setGenerator c g1)
            "failed to get next record: end of sample file reached").
  split; [|split; [|split; [|split]]]; try reflexivity.
  - apply tick_failure_open with (p := p); auto.
  - unfold tick, sendNextRecord.
    change (generator_ (recordError (setGenerator c g1) _)) with g1.
    rewrite (nextReplay_past_end now g1 rs false); [reflexivity| |].
    + rewrite <- Hk. subst g1. eapply replayAt_setReplay; eauto.
    + intros ->. simpl in Hk. lia.
Qed.

End ChannelErrors.

(** The theorem on the sample channel (mock port, two records, cursor on
    the second). *)
Lemma tick_after_exhaustion_panics_sample :
  exists c1,
    output.tick 0 []
      (sampleChannelOf (generator.setReplay sampleReplayGenerator sampleRecords 1))
      = Some c1 /\
    output.state c1 = output.StateRunning /\
    output.Errors (output.stats c1) = wrap64 (0 + 1) /\
    output.LastError (output.stats c1) =
      "failed to get next record: end of sample file reached" /\
    output.tick 0 [] c1 = None.
Proof.
  apply (tick_after_exhaustion_panics 0 [] []
           (sampleChannelOf (generator.setReplay sampleReplayGenerator sampleRecords 1))
           sampleRecords 1 (serial.NewMockPort "/dev/ttyS0")).
  - repeat split.
  - reflexivity.
  - vm_compute. discriminate.
  - reflexivity.
  - reflexivity.
Defined.

(** ** Pacing ([NextInterval]) *)

(** *** The integer part of a binary64 *)

Lemma digits2_pos_bounds (m : positive) :
  2 ^ (Z.pos (digits2_pos m) - 1) <= Z.pos m < 2 ^ Z.pos (digits2_pos m).
Proof.
  induction m as [p IH|p IH|]; simpl digits2_pos.
  - rewrite Pos2Z.inj_succ.
    replace (Z.succ (Z.pos (digits2_pos p)) - 1) with (Z.succ (Z.pos (digits2_pos p) - 1)) by lia.
    rewrite !Z.pow_succ_r by lia. lia.
  - rewrite Pos2Z.inj_succ.
    replace (Z.succ (Z.pos (digits2_pos p)) - 1) with (Z.succ (Z.pos (digits2_pos p) - 1)) by lia.
    rewrite !Z.pow_succ_r by lia. lia.
  - simpl. lia.
Qed.

(** The shape of a valid finite binary64: at most 53 digits, and exactly
    53 unless the exponent is the least one. *)
Lemma valid_finite_shape s m e :
  valid_binary (S754_finite s m e) = true ->
  Z.pos m < 2 ^ 53 /\ (-1074 < e -> 2 ^ 52 <= Z.pos m) /\ -1074 <= e <= 971.
Proof.
  unfold valid_binary, bounded, canonical_mantissa, fexp, SpecFloat.emin, prec, emax.
  rewrite andb_true_iff, Z.eqb_eq, Z.leb_le. intros [Hc He].
  pose proof (digits2_pos_bounds m) as [Hlo Hhi].
  assert (Hd : Z.pos (digits2_pos m) <= 53) by lia.
  split; [|split].
  - eapply Z.lt_le_trans; [exact Hhi|]. apply Z.pow_le_mono_r; lia.
  - intros Hgt. assert (Hd53 : Z.pos (digits2_pos m) = 53) by lia.
    rewrite Hd53 in Hlo. exact Hlo.
  - lia.
Qed.

Lemma compare_cont_Eq_spec m1 m2 :
  match PosDef.Pos.compare_cont Eq m1 m2 with
  | Eq => Z.pos m1 = Z.pos m2
  | Lt => Z.pos m1 < Z.pos m2
  | Gt => Z.pos m1 > Z.pos m2
  end.
Proof.
  change (PosDef.Pos.compare_cont Eq m1 m2) with (Pos.compare m1 m2).
  destruct (Pos.compare_spec m1 m2); subst; lia.
Qed.

Lemma truncate_between_zero_and_one (r : float) :
  PrimFloat.ltb 0 r = true -> PrimFloat.ltb r 1 = true ->
  conv.truncate r = Some 0 /\ PrimFloat.leb r 0 = false.
Proof.
  rewrite !ltb_spec, leb_spec. pose proof (Prim2SF_valid r) as Hv.
  change (Prim2SF 0) with (S754_zero false).
  change (Prim2SF 1) with (S754_finite false 4503599627370496 (-52)).
  unfold conv.truncate, SFltb, SFleb.
  destruct (Prim2SF r) as [s|s| |s m e]; cbv beta iota delta [SFcompare]; try discriminate.
  - destruct s; discriminate.
  - destruct s; try discriminate. intros _ Hlt.
    apply valid_finite_shape in Hv. destruct Hv as (Hm & _ & He).
    split; [|reflexivity].
    assert (Hbound : e < 0 /\ Z.pos m < 2 ^ (- e)).
    { destruct (Z.compare_spec e (-52)) as [->| |]; try discriminate.
      - pose proof (compare_cont_Eq_spec m 4503599627370496) as Hc.
        destruct (PosDef.Pos.compare_cont Eq m 4503599627370496); try discriminate.
        split; [lia|]. change (2 ^ (- -52)) with 4503599627370496. lia.
      - split; [lia|]. eapply Z.lt_le_trans; [exact Hm|].
        apply Z.pow_le_mono_r; lia. }
    destruct Hbound as [Hneg Hsmall].
    destruct (Z.leb_spec 0 e); [lia|].
    rewrite Z.div_small by lia. reflexivity.
Qed.

Lemma truncate_at_least_one (r : float) :
  PrimFloat.leb 1 r = true -> PrimFloat.ltb r 0x1p63 = true ->
  exists z, conv.truncate r = Some z /\ 1 <= z <= maxInt64.
Proof.
  rewrite !ltb_spec, leb_spec. pose proof (Prim2SF_valid r) as Hv.
  change (Prim2SF 1) with (S754_finite false 4503599627370496 (-52)).
  change (Prim2SF 0x1p63) with (S754_finite false 4503599627370496 11).
  unfold conv.truncate, SFltb, SFleb.
  destruct (Prim2SF r) as [s|s| |s m e]; cbv beta iota delta [SFcompare]; try discriminate.
  - destruct s; discriminate.
  - destruct s; try discriminate. intros Hge Hlt.
    apply valid_finite_shape in Hv. destruct Hv as (Hm & Hnorm & He).
    assert (Hlow : -52 <= e /\ 2 ^ 52 <= Z.pos m).
    { destruct (Z.compare_spec (-52) e) as [<-| |]; try discriminate.
      - pose proof (compare_cont_Eq_spec 4503599627370496 m) as Hc.
        destruct (PosDef.Pos.compare_cont Eq 4503599627370496 m); try discriminate;
          split; lia.
      - split; [lia|]. apply Hnorm. lia. }
    assert (Hhigh : e <= 10).
    { destruct (Z.compare_spec e 11) as [->| |]; try discriminate; [|lia].
      pose proof (compare_cont_Eq_spec m 4503599627370496) as Hc.
      destruct (PosDef.Pos.compare_cont Eq m 4503599627370496); try discriminate. lia. }
    destruct Hlow as [Hle Hmlo].
    eexists. split; [reflexivity|]. unfold maxInt64.
    destruct (Z.leb_spec 0 e).
    + assert (2 ^ e <= 2 ^ 10) by (apply Z.pow_le_mono_r; lia).
      assert (0 < 2 ^ e) by (apply Z.pow_pos_nonneg; lia).
      nia.
    + assert (Hp : 0 < 2 ^ (- e)) by (apply Z.pow_pos_nonneg; lia).
      assert (Hq : 2 ^ (- e) <= 2 ^ 52) by (apply Z.pow_le_mono_r; lia).
      split.
      * apply Z.div_le_lower_bound; lia.
      * assert (Z.pos m / 2 ^ (- e) <= Z.pos m) by (apply Z.div_le_upper_bound; nia).
        lia.
Qed.

Section Pacing.
Context {RT : GoRuntime}.
Import gotime generator.

(** A rate that is not positive gives the default interval. *)
Lemma NextInterval_default (rl : RateLimiter) :
  PrimFloat.leb (callsPerMinute rl) 0 = true ->
  NextInterval rl = Some (Minute, rl).
Proof. intros H. unfold NextInterval. now rewrite H. Qed.

(** Rate 60 without jitter: one second, on every call. *)
Lemma NextInterval_sixty (rnd : gorand.Rand) :
  NextInterval {| callsPerMinute := 60; jitterPercent := 0; random := rnd |} =
    Some (Second, {| callsPerMinute := 60; jitterPercent := 0; random := rnd |}).
Proof. vm_compute. reflexivity. Qed.

(** The divisor of a rate in [[1, 2^63)] is its integer part, at least 1. *)
Lemma divisor_at_least_one (r : float) :
  PrimFloat.leb 1 r = true -> PrimFloat.ltb r 0x1p63 = true ->
  exists z, conv64.toInt64 r = z /\ conv.truncate r = Some z /\ 1 <= z <= maxInt64.
Proof.
  intros H1 H2. destruct (truncate_at_least_one r H1 H2) as (z & Hz & Hr).
  exists z. split; [|split]; auto.
  unfold conv64.toInt64. rewrite Hz. unfold inInt64, minInt64.
  unfold maxInt64 in *.
  destruct (Z.leb_spec (- 2 ^ 63) z); [|lia].
  destruct (Z.leb_spec z (2 ^ 63 - 1)); [reflexivity|lia].
Qed.

Lemma leb_one_not_leb_zero (r : float) :
  PrimFloat.leb 1 r = true -> PrimFloat.leb r 0 = false.
Proof.
  rewrite !leb_spec.
  change (Prim2SF 1) with (S754_finite false 4503599627370496 (-52)).
  change (Prim2SF 0) with (S754_zero false).
  unfold SFleb. destruct (Prim2SF r) as [s|s| |s m e]; cbv beta iota delta [SFcompare]; try discriminate.
  - destruct s; [discriminate | reflexivity].
  - destruct s; [discriminate | reflexivity].
Qed.

(** C10.  [NextInterval] divides by zero exactly on the rates strictly
    between 0 and 1.  A rate [r <= 0] takes the guard and returns one
    minute.  A rate [r >= 1] has a nonzero divisor, so the call returns
    an interval, with or without jitter: below 2^63 the divisor is the
    integer part of [r]; from 2^63 on the conversion is left to the
    implementation and the call returns whenever that value is not zero.
    A rate with [0 < r < 1] passes the guard, its integer part is zero,
    and the division panics. *)
Theorem NextInterval_divides_by_zero_between_0_and_1 (rl : RateLimiter) :
  (PrimFloat.leb (callsPerMinute rl) 0 = true ->
     NextInterval rl = Some (Minute, rl)) /\
  (PrimFloat.leb 1 (callsPerMinute rl) = true ->
     PrimFloat.ltb (callsPerMinute rl) 0x1p63 = true \/
       float64ToInt64Undef (callsPerMinute rl) <> 0 ->
     conv64.toInt64 (callsPerMinute rl) <> 0 /\
     exists d rl', NextInterval rl = Some (d, rl')) /\
  (PrimFloat.ltb 0 (callsPerMinute rl) = true ->
     PrimFloat.ltb (callsPerMinute rl) 1 = true ->
     PrimFloat.leb (callsPerMinute rl) 0 = false /\
     conv64.toInt64 (callsPerMinute rl) = 0 /\
     NextInterval rl = None).
Proof.
  split; [|split].
  - apply NextInterval_default.
  - intros H1 H2.
    assert (Hd : conv64.toInt64 (callsPerMinute rl) <> 0).
    { destruct (PrimFloat.ltb (callsPerMinute rl) 0x1p63) eqn:Hlt.
      - destruct (divisor_at_least_one _ H1 Hlt) as (z & Hz & _ & Hr). lia.
      - destruct H2 as [H2|H2]; [discriminate|].
        unfold conv64.toInt64.
        destruct (conv.truncate (callsPerMinute rl)) as [z|] eqn:Ht; [|exact H2].
        destruct (inInt64 z) eqn:Hin; [|exact H2].
        (* in range, so the rate is below 2^63 after all; the value is at
           least 1 because the rate is *)
        intros Hz. subst z.
        revert H1 Ht. rewrite leb_spec.
        change (Prim2SF 1) with (S754_finite false 4503599627370496 (-52)).
        pose proof (Prim2SF_valid (callsPerMinute rl)) as Hv.
        unfold conv.truncate, SFleb.
        destruct (Prim2SF (callsPerMinute rl)) as [s|s| |s m e]; cbv beta iota delta [SFcompare];
          try discriminate.
        + destruct s; try discriminate. intros Hge Ht.
          apply valid_finite_shape in Hv. destruct Hv as (Hm & Hnorm & He).
          assert (Hlow : -52 <= e /\ 2 ^ 52 <= Z.pos m).
          { destruct (Z.compare_spec (-52) e) as [<-| |]; try discriminate.
            - pose proof (compare_cont_Eq_spec 4503599627370496 m) as Hc.
              destruct (PosDef.Pos.compare_cont Eq 4503599627370496 m);
                try discriminate; split; lia.
            - split; [lia|]. apply Hnorm. lia. }
          destruct Hlow as [Hle Hmlo].
          destruct (Z.leb_spec 0 e).
          * assert (0 < 2 ^ e) by (apply Z.pow_pos_nonneg; lia).
            injection Ht as Ht. nia.
          * assert (Hp : 0 < 2 ^ (- e)) by (apply Z.pow_pos_nonneg; lia).
            assert (Hq : 2 ^ (- e) <= 2 ^ 52) by (apply Z.pow_le_mono_r; lia).
            assert (1 <= Z.pos m / 2 ^ (- e)) by (apply Z.div_le_lower_bound; lia).
            injection Ht as Ht. lia. }
    split; [exact Hd|].
    unfold NextInterval. rewrite (leb_one_not_leb_zero _ H1).
    destruct (Z.eqb_spec (conv64.toInt64 (callsPerMinute rl)) 0) as [Hz|_];
      [contradiction|].
    destruct (PrimFloat.ltb 0 (jitterPercent rl)).
    + destruct (gorand.Float64 (random rl)) as [u rnd]. eauto.
    + eauto.
  - intros H0 H1.
    destruct (truncate_between_zero_and_one _ H0 H1) as [Ht Hle].
    assert (Hz : conv64.toInt64 (callsPerMinute rl) = 0).
    { unfold conv64.toInt64. rewrite Ht. reflexivity. }
    split; [exact Hle|]. split; [exact Hz|].
    unfold NextInterval. rewrite Hle, Hz. reflexivity.
Qed.

(** C3 (the code departs from the claim).  The base interval is one
    minute divided by the integer part of the rate, not by the rate:
    2.5 calls per minute without jitter give 30 seconds where one minute
    divided by 2.5 is 24 seconds, and 0.5 calls per minute, which the
    configuration accepts, make the call panic where the quotient is
    two minutes. *)
Theorem NextInterval_truncates_the_rate (rnd : gorand.Rand) :
  NextInterval {| callsPerMinute := 2.5; jitterPercent := 0; random := rnd |} =
    Some (30 * Second, {| callsPerMinute := 2.5; jitterPercent := 0; random := rnd |}) /\
  NextInterval {| callsPerMinute := 0.5; jitterPercent := 0; random := rnd |} = None.
Proof. split; vm_compute; reflexivity. Qed.

End Pacing.

(** The three cases of the theorem on the sample limiter, at the rates
    -1, 60 and 0.5. *)
Lemma NextInterval_divides_by_zero_sample :
  generator.NextInterval (RT := sampleRuntime) (generator.NewRateLimiter (RT := sampleRuntime) 0 (-1) 0) =
    Some (gotime.Minute, generator.NewRateLimiter (RT := sampleRuntime) 0 (-1) 0) /\
  (exists d rl', generator.NextInterval (RT := sampleRuntime)
                   (generator.NewRateLimiter (RT := sampleRuntime) 0 60 20) = Some (d, rl')) /\
  generator.NextInterval (RT := sampleRuntime)
    (generator.NewRateLimiter (RT := sampleRuntime) 0 0.5 0) = None.
Proof.
  split; [|split].
  - apply (NextInterval_divides_by_zero_between_0_and_1 (RT := sampleRuntime)
             (generator.NewRateLimiter (RT := sampleRuntime) 0 (-1) 0)).
    reflexivity.
  - apply (NextInterval_divides_by_zero_between_0_and_1 (RT := sampleRuntime)
             (generator.NewRateLimiter (RT := sampleRuntime) 0 60 20)).
    + reflexivity.
    + left. reflexivity.
  - apply (NextInterval_divides_by_zero_between_0_and_1 (RT := sampleRuntime)
             (generator.NewRateLimiter (RT := sampleRuntime) 0 0.5 0));
      reflexivity.
Defined.

(** ** The format registry *)

Section RegistryProps.
Import format registry.

Lemma Register_fresh f (reg : Registry) :
  reg !! gostrings.ToLower (Name f) = None ->
  Register f reg = (None, <[gostrings.ToLower (Name f) := f]> reg).
Proof. intros H. unfold Register. now rewrite H. Qed.

Lemma Register_duplicate f g (reg : Registry) :
  reg !! gostrings.ToLower (Name f) = Some g ->
  (Register f reg).1 <> None /\ (Register f reg).2 = reg.
Proof. intros H. unfold Register. rewrite H. simpl. split; [discriminate|reflexivity]. Qed.

Lemma Get_lookup name (reg : Registry) f :
  Get name reg = Ok f <-> reg !! gostrings.ToLower name = Some f.
Proof.
  unfold Get. destruct (reg !! gostrings.ToLower name) as [g|].
  - split; intros H; congruence.
  - split; intros H; discriminate.
Qed.

Lemma Get_absent name (reg : Registry) :
  reg !! gostrings.ToLower name = None ->
  Get name reg = Err ("unknown format: " +:+ name).
Proof. intros H. unfold Get. now rewrite H. Qed.

Lemma List_sorted (reg : Registry) : Sorted String.le (List reg).
Proof. unfold List. apply Sorted_merge_sort. apply _. Qed.

Lemma List_keys (reg : Registry) (k : string) :
  k ∈ List reg <-> is_Some (reg !! k).
Proof.
  unfold List. rewrite merge_sort_Permutation.
  rewrite list_elem_of_fmap. split.
  - intros ([k' v] & -> & Hin). apply elem_of_map_to_list in Hin. simpl. eauto.
  - intros [v Hv]. exists (k, v). split; [reflexivity|]. now apply elem_of_map_to_list.
Qed.

Lemma List_NoDup (reg : Registry) : NoDup (List reg).
Proof.
  unfold List. rewrite merge_sort_Permutation. apply NoDup_fst_map_to_list.
Qed.

(** The keys of a registry filled by [Register] are the lowercase names
    of the formats it was given. *)
Lemma registerAll_keys fs : forall (reg : Registry) (k : string),
  is_Some (registerAll fs reg !! k) <->
  is_Some (reg !! k) \/ exists f, f ∈ fs /\ k = gostrings.ToLower (Name f).
Proof.
  induction fs as [|f fs IH]; intros reg k; simpl.
  - split; [auto|]. intros [H|(f & Hf & _)]; [exact H|]. inversion Hf.
  - unfold registerAll in *. simpl. rewrite IH. unfold Register.
    destruct (reg !! gostrings.ToLower (Name f)) as [g|] eqn:Hl; simpl.
    + split.
      * intros [H|(f' & Hf' & ->)]; [now left|]. right. exists f'. split; [|reflexivity].
        now apply list_elem_of_further.
      * intros [H|(f' & Hf' & ->)]; [now left|].
        apply elem_of_cons in Hf' as [->|Hf']; [left; rewrite Hl; eauto|].
        right. eauto.
    + split.
      * intros [H|(f' & Hf' & ->)].
        -- destruct (decide (gostrings.ToLower (Name f) = k)) as [<-|Hne].
           ++ right. exists f. split; [apply list_elem_of_here|reflexivity].
           ++ left. now rewrite lookup_insert_ne in H.
        -- right. exists f'. split; [|reflexivity]. now apply list_elem_of_further.
      * intros [H|(f' & Hf' & ->)].
        -- left. destruct (decide (gostrings.ToLower (Name f) = k)) as [<-|Hne].
           ++ rewrite lookup_insert_eq. eauto.
           ++ now rewrite lookup_insert_ne.
        -- apply elem_of_cons in Hf' as [->|Hf'].
           ++ left. rewrite lookup_insert_eq. eauto.
           ++ right. eauto.
Qed.

(** [List] is the one sorted arrangement of the keys. *)
Lemma List_unique (reg : Registry) (l : list string) :
  Sorted String.le l -> l ≡ₚ (map_to_list reg).*1 -> List reg = l.
Proof.
  intros Hs Hp. apply (Sorted_unique String.le).
  - apply List_sorted.
  - exact Hs.
  - unfold List. rewrite merge_sort_Permutation. now symmetry.
Qed.

(** C6.  [Register] fails, with the registry left as it was, exactly when
    the lowercase of the format's name is a key already, and otherwise
    stores the format under that key.  [Get] looks the lowercase of the
    name up: two names with the same lowercase find the same format, a
    format just registered is found under every such name, and an absent
    key gives the unknown-format error.  [List] is sorted, has no
    repetition, and holds exactly the keys; in a registry filled by
    [Register] these are the lowercase names of the formats given. *)
Theorem registry_operations (reg : Registry) :
  (forall f,
     ((Register f reg).1 <> None <-> is_Some (reg !! gostrings.ToLower (Name f))) /\
     ((Register f reg).1 <> None -> (Register f reg).2 = reg) /\
     ((Register f reg).1 = None ->
        (Register f reg).2 = <[gostrings.ToLower (Name f) := f]> reg /\
        forall name, gostrings.ToLower name = gostrings.ToLower (Name f) ->
                     Get name (Register f reg).2 = Ok f)) /\
  (forall n1 n2 f,
     gostrings.ToLower n1 = gostrings.ToLower n2 ->
     (Get n1 reg = Ok f <-> Get n2 reg = Ok f)) /\
  (forall name,
     reg !! gostrings.ToLower name = None ->
     Get name reg = Err ("unknown format: " +:+ name)) /\
  Sorted String.le (List reg) /\
  NoDup (List reg) /\
  (forall k, k ∈ List reg <-> is_Some (reg !! k)) /\
  (forall fs k,
     k ∈ List (registerAll fs ∅) <->
     exists f, f ∈ fs /\ k = gostrings.ToLower (Name f)).
Proof.
  split; [|split; [|split; [|split; [|split; [|split]]]]].
  - intros f. unfold Register.
    destruct (reg !! gostrings.ToLower (Name f)) as [g|] eqn:Hl; simpl.
    + split; [|split].
      * split; [eauto | discriminate].
      * reflexivity.
      * intros H. discriminate.
    + split; [|split].
      * split; [congruence | intros [x Hx]; discriminate].
      * congruence.
      * intros _. split; [reflexivity|]. intros name Hn.
        apply Get_lookup. rewrite Hn. apply lookup_insert_eq.
  - intros n1 n2 f Hn. rewrite !Get_lookup, Hn. reflexivity.
  - intros name H. now apply Get_absent.
  - apply List_sorted.
  - apply List_NoDup.
  - intros k. apply List_keys.
  - intros fs k. rewrite List_keys, registerAll_keys. split.
    + intros [H|H]; [|exact H]. rewrite lookup_empty in H. now destruct H.
    + eauto.
Qed.

End RegistryProps.

Lemma sampleRegistry_eq :
  sampleRegistry =
    <["viper" := viper.ViperFormat (RT := sampleRuntime)]>
      (<["vesta" := vesta.VestaFormat (RT := sampleRuntime)]> ∅).
Proof.
  unfold sampleRegistry, registerAll. cbn [fold_left].
  rewrite (Register_fresh (vesta.VestaFormat (RT := sampleRuntime)) ∅)
    by apply lookup_empty.
  cbn [snd].
  change (gostrings.ToLower (format.Name (vesta.VestaFormat (RT := sampleRuntime))))
    with "vesta".
  rewrite Register_fresh.
  - reflexivity.
  - change (gostrings.ToLower (format.Name (viper.ViperFormat (RT := sampleRuntime))))
      with "viper".
    rewrite lookup_insert_ne by discriminate. apply lookup_empty.
Qed.

(** The registry of the two shipped formats: the names come out sorted,
    a second registration under another casing fails, and every casing
    finds the registered format. *)
Lemma registry_operations_sample :
  registry.List sampleRegistry = ["vesta"; "viper"] /\
  (registry.Register
     {| format.Name := "Vesta"; format.Description := EmptyString;
        format.ParseRecords := vesta.ParseVestaCSV;
        format.GenerateRecord := vesta.GenerateVestaRecord (RT := sampleRuntime) |}
     sampleRegistry).2 = sampleRegistry /\
  registry.Get "VESTA" sampleRegistry = Ok (vesta.VestaFormat (RT := sampleRuntime)) /\
  registry.Get "vesta" sampleRegistry = Ok (vesta.VestaFormat (RT := sampleRuntime)).
Proof.
  assert (Hv : sampleRegistry !! "vesta" = Some (vesta.VestaFormat (RT := sampleRuntime))).
  { rewrite sampleRegistry_eq. rewrite lookup_insert_ne by discriminate.
    apply lookup_insert_eq. }
  destruct (registry_operations sampleRegistry) as (HR & HG & _).
  split; [|split; [|split]].
  - apply List_unique.
    + repeat constructor.
    + rewrite sampleRegistry_eq.
      rewrite map_to_list_insert
        by (rewrite lookup_insert_ne by discriminate; apply lookup_empty).
      rewrite map_to_list_insert by apply lookup_empty.
      rewrite map_to_list_empty. cbn [fmap list_fmap fst]. apply Permutation_swap.
  - apply HR. apply HR.
    change (gostrings.ToLower (format.Name _)) with "vesta". rewrite Hv. eauto.
  - apply (HG "vesta" "VESTA"); [reflexivity|].
    apply Get_lookup. exact Hv.
  - apply Get_lookup. exact Hv.
Defined.

(** ** Manager start-up *)

Section ManagerStartup.
Context {RT : GoRuntime} {P : Type} {PortP : serial.Port P}.
Import output.

Variables (reg : registry.Registry) (fs : generator.FileSystem)
          (open : Opener (P := P)) (now : gotime.Time).

Lemma startPorts_mconfig ports : forall m : Manager (P := P),
  mconfig (startPorts reg fs open now ports m).2 = mconfig m.
Proof.
  induction ports as [|p rest IH]; intros m; simpl; [reflexivity|].
  destruct (config.Enabled p); simpl.
  - destruct (generator.New reg fs now p _) as [gen|e]; simpl; [|reflexivity].
    destruct (Start open now _) as [[err|] c]; rewrite IH; reflexivity.
  - rewrite IH. reflexivity.
Qed.

(** A generator that cannot be built ends the loop with an error: the
    manager is left as it was, the endpoints after it are not looked at. *)
Lemma startPorts_generator_failure p rest (m : Manager (P := P)) e :
  config.Enabled p = true ->
  generator.New reg fs now p (config.JitterPercent (mconfig m)) = Err e ->
  startPorts reg fs open now (p :: rest) m =
    (Some ("failed to create generator for " +:+ config.Device p +:+ ": " +:+ e), m).
Proof. intros He Hn. simpl. rewrite He, Hn. reflexivity. Qed.

(** A channel that fails to start is logged and skipped; the loop goes on. *)
Lemma startPorts_channel_failure p rest (m : Manager (P := P)) gen err c :
  config.Enabled p = true ->
  generator.New reg fs now p (config.JitterPercent (mconfig m)) = Ok gen ->
  Start open now (NewChannel now p (config.Recovery (mconfig m)) gen) = (Some err, c) ->
  startPorts reg fs open now (p :: rest) m =
    startPorts reg fs open now rest
      (logTo m "ERROR" "Failed to start channel" (config.Device p)).
Proof. intros He Hn Hs. simpl. rewrite He, Hn, Hs. reflexivity. Qed.

(** When every enabled endpoint gets its generator the loop ends without
    an error and has appended the channels that started, in order. *)
Lemma startPorts_all_generators ports : forall m : Manager (P := P),
  generatorsOk reg fs now (mconfig m) ports ->
  (startPorts reg fs open now ports m).1 = None /\
  channels (startPorts reg fs open now ports m).2 =
    channels m ++ omap (tryStart reg fs open now (mconfig m)) ports.
Proof.
  induction ports as [|p rest IH]; intros m Hok; simpl.
  - split; [reflexivity|]. now rewrite app_nil_r.
  - assert (Hrest : forall m' : Manager (P := P), mconfig m' = mconfig m ->
                      generatorsOk reg fs now (mconfig m') rest).
    { intros m' Hm' q Hq Hen. rewrite Hm'. apply Hok; [now apply list_elem_of_further|exact Hen]. }
    unfold tryStart at 1.
    destruct (config.Enabled p) eqn:Hen; simpl.
    + pose proof (Hok p (list_elem_of_here _ _) Hen) as Hp.
      destruct (generator.New reg fs now p _) as [gen|e]; [|discriminate].
      destruct (Start open now _) as [[err|] c].
      * destruct (IH (logTo m "ERROR" "Failed to start channel" (config.Device p)))
          as [H1 H2]; [now apply Hrest|]. split; [exact H1|]. rewrite H2. reflexivity.
      * destruct (IH (logTo (addChannel m c) "INFO" "Started output channel"
                        (config.Device p))) as [H1 H2]; [now apply Hrest|].
        split; [exact H1|]. rewrite H2. simpl. now rewrite <- app_assoc.
    + destruct (IH (logTo m "INFO" "Skipping disabled port" (config.Device p)))
        as [H1 H2]; [now apply Hrest|]. split; [exact H1|]. rewrite H2. reflexivity.
Qed.

(** The loop up to the first endpoint whose generator cannot be built. *)
Lemma startPorts_first_failure pre p post e : forall m : Manager (P := P),
  generatorsOk reg fs now (mconfig m) pre ->
  config.Enabled p = true ->
  generator.New reg fs now p (config.JitterPercent (mconfig m)) = Err e ->
  (startPorts reg fs open now (pre ++ p :: post) m).1 =
    Some ("failed to create generator for " +:+ config.Device p +:+ ": " +:+ e) /\
  channels (startPorts reg fs open now (pre ++ p :: post) m).2 =
    channels m ++ omap (tryStart reg fs open now (mconfig m)) pre.
Proof.
  induction pre as [|q pre IH]; intros m Hok Hen Hn.
  - simpl app. rewrite (startPorts_generator_failure p post m e Hen Hn). simpl.
    split; [reflexivity|]. now rewrite app_nil_r.
  - assert (Hrest : forall m' : Manager (P := P), mconfig m' = mconfig m ->
                      generatorsOk reg fs now (mconfig m') pre).
    { intros m' Hm' r Hr Hr'. rewrite Hm'. apply Hok; [now apply list_elem_of_further|exact Hr']. }
    simpl. unfold tryStart at 1.
    destruct (config.Enabled q) eqn:Hq; simpl.
    + pose proof (Hok q (list_elem_of_here _ _) Hq) as Hp.
      destruct (generator.New reg fs now q _) as [gen|e']; [|discriminate].
      destruct (Start open now _) as [[err|] c].
      * destruct (IH (logTo m "ERROR" "Failed to start channel" (config.Device q))
                    (Hrest _ eq_refl) Hen Hn) as [H1 H2]. split; [exact H1|]. rewrite H2. reflexivity.
      * destruct (IH (logTo (addChannel m c) "INFO" "Started output channel"
                        (config.Device q)) (Hrest _ eq_refl) Hen Hn) as [H1 H2].
        split; [exact H1|]. rewrite H2. simpl. now rewrite <- app_assoc.
    + destruct (IH (logTo m "INFO" "Skipping disabled port" (config.Device q))
                  (Hrest _ eq_refl) Hen Hn) as [H1 H2]. split; [exact H1|]. rewrite H2. reflexivity.
Qed.

(** C2 (amended).  [Manager.Start] skips, with the error logged, an
    enabled endpoint whose channel fails to start and goes on with the
    remaining endpoints; an enabled endpoint whose generator cannot be
    built is not skipped: [Start] returns the error at once, keeping the
    channels started before it and leaving the endpoints after it
    unstarted.  When every enabled endpoint gets its generator, the
    manager holds the channels that started, and [Start] returns an
    error exactly when it holds none. *)
Theorem manager_start_outcome (m : Manager (P := P)) :
  (forall pre p post e,
     config.Ports (mconfig m) = pre ++ p :: post ->
     generatorsOk reg fs now (mconfig m) pre ->
     config.Enabled p = true ->
     generator.New reg fs now p (config.JitterPercent (mconfig m)) = Err e ->
     (ManagerStart reg fs open now m).1 =
       Some ("failed to create generator for " +:+ config.Device p +:+ ": " +:+ e) /\
     channels (ManagerStart reg fs open now m).2 =
       channels m ++ omap (tryStart reg fs open now (mconfig m)) pre) /\
  (generatorsOk reg fs now (mconfig m) (config.Ports (mconfig m)) ->
     channels (ManagerStart reg fs open now m).2 =
       channels m ++
       omap (tryStart reg fs open now (mconfig m)) (config.Ports (mconfig m)) /\
     ((ManagerStart reg fs open now m).1 <> None <->
      channels (ManagerStart reg fs open now m).2 = [])) /\
  (forall p rest m' gen err c,
     config.Enabled p = true ->
     generator.New reg fs now p (config.JitterPercent (mconfig m')) = Ok gen ->
     Start open now (NewChannel now p (config.Recovery (mconfig m')) gen) = (Some err, c) ->
     startPorts reg fs open now (p :: rest) m' =
       startPorts reg fs open now rest
         (logTo m' "ERROR" "Failed to start channel" (config.Device p))).
Proof.
  split; [|split].
  - intros pre p post e Hports Hok Hen Hn. unfold ManagerStart. rewrite Hports.
    destruct (startPorts_first_failure pre p post e m Hok Hen Hn) as [H1 H2].
    destruct (startPorts reg fs open now (pre ++ p :: post) m) as [err m1].
    simpl in H1, H2. subst err. simpl. split; [reflexivity|exact H2].
  - intros Hok. unfold ManagerStart.
    destruct (startPorts_all_generators _ m Hok) as [H1 H2].
    destruct (startPorts reg fs open now (config.Ports (mconfig m)) m) as [err m1].
    simpl in H1, H2. subst err.
    destruct (channels m1) as [|c cs] eqn:Hc; simpl.
    + split; [now rewrite Hc, <- H2|]. split; [intros _; exact Hc|discriminate].
    + split; [now rewrite Hc, <- H2|]. split; [congruence|].
      rewrite Hc. discriminate.
  - intros. now apply startPorts_channel_failure with (gen := gen) (err := err) (c := c).
Qed.

End ManagerStartup.

(** C2 as stated fails.  With a startable endpoint followed by one whose
    format is unknown, [Start] returns an error although one channel was
    started; with the two in the other order the startable endpoint is
    never started: the failing endpoint is not skipped. *)
Lemma manager_start_generator_failure_aborts :
  (output.ManagerStart (RT := sampleRuntime) sampleRegistry sampleNoFiles sampleOpener 0
     sampleManagerGoodBad).1 =
    Some "failed to create generator for /dev/ttyS1: unknown format nope: unknown format: nope" /\
  length (output.channels
            (output.ManagerStart (RT := sampleRuntime) sampleRegistry sampleNoFiles
               sampleOpener 0 sampleManagerGoodBad).2) = 1%nat /\
  (output.ManagerStart (RT := sampleRuntime) sampleRegistry sampleNoFiles sampleOpener 0
     sampleManagerBadGood).1 =
    Some "failed to create generator for /dev/ttyS1: unknown format nope: unknown format: nope" /\
  length (output.channels
            (output.ManagerStart (RT := sampleRuntime) sampleRegistry sampleNoFiles
               sampleOpener 0 sampleManagerBadGood).2) = 0%nat.
Proof. repeat split; vm_compute; reflexivity. Qed.

(** The amended statement on the sample manager: the error names the
    endpoint whose generator failed, the channel started before it is
    kept. *)
Lemma manager_start_outcome_sample :
  (output.ManagerStart (RT := sampleRuntime) sampleRegistry sampleNoFiles sampleOpener 0
     sampleManagerGoodBad).1 =
    Some ("failed to create generator for " +:+
          config.Device (sampleBadFormatPort "/dev/ttyS1") +:+ ": " +:+
          "unknown format nope: unknown format: nope") /\
  output.channels
    (output.ManagerStart (RT := sampleRuntime) sampleRegistry sampleNoFiles sampleOpener 0
       sampleManagerGoodBad).2 =
    output.channels sampleManagerGoodBad ++
    omap (tryStart (RT := sampleRuntime) sampleRegistry sampleNoFiles sampleOpener 0
            (output.mconfig sampleManagerGoodBad))
      [sampleSyntheticPort "/dev/ttyS0"].
Proof.
  apply (manager_start_outcome (RT := sampleRuntime) sampleRegistry sampleNoFiles
           sampleOpener 0 sampleManagerGoodBad) with (post := []).
  - reflexivity.
  - intros p Hp _. apply list_elem_of_singleton in Hp. subst p.
    vm_compute. reflexivity.
  - reflexivity.
  - vm_compute. reflexivity.
Defined.

(** ** Synthetic generation: the context's methods *)

Section GenerationRules.
Import gotime format formatctx.
Local Open Scope gen_scope.

Lemma sameStatic_refl c : sameStatic c c.
Proof. repeat split. Qed.

Lemma sameStatic_trans c1 c2 c3 :
  sameStatic c1 c2 -> sameStatic c2 c3 -> sameStatic c1 c3.
Proof.
  intros (a1 & a2 & a3 & a4 & a5 & a6) (b1 & b2 & b3 & b4 & b5 & b6).
  repeat split; congruence.
Qed.

Lemma sameStatic_defaultPools c c' :
  sameStatic c c' -> defaultPools c -> defaultPools c'.
Proof.
  intros (_ & _ & a3 & a4 & a5 & _) (b1 & b2 & b3). repeat split; congruence.
Qed.

Lemma post_ret {A} (a : A) ctx Q : Q a ctx -> post (ret a) ctx Q.
Proof. intros H. exact H. Qed.

Lemma post_bind {A B} (m : Gen A) (k : A -> Gen B) ctx Q :
  post m ctx (fun a c => post (k a) c Q) -> post (bind m k) ctx Q.
Proof.
  unfold post, bind. destruct (m ctx) as [[a c]|]; [intros H; exact H | trivial].
Qed.

Lemma post_mono {A} (m : Gen A) ctx (Q Q' : A -> GenerationContext -> Prop) :
  (forall a c, Q a c -> Q' a c) -> post m ctx Q -> post m ctx Q'.
Proof.
  unfold post. intros HQ. destruct (m ctx) as [[a c]|]; [apply HQ | trivial].
Qed.

Lemma post_elim {A} (m : Gen A) ctx Q a c :
  post m ctx Q -> m ctx = Some (a, c) -> Q a c.
Proof. unfold post. intros H E. now rewrite E in H. Qed.

Lemma post_get ctx Q : Q ctx ctx -> post get ctx Q.
Proof. intros H. exact H. Qed.

Lemma post_panic {A} ctx (Q : A -> GenerationContext -> Prop) : post panic ctx Q.
Proof. exact I. Qed.

Lemma post_Intn n ctx Q :
  (forall v c, sameStatic ctx c -> CallNumber c = CallNumber ctx ->
               0 <= v < n -> Q v c) ->
  post (Intn n) ctx Q.
Proof.
  intros H. unfold post, Intn, gorand.Intn.
  destruct (Z.leb_spec n 0); [exact I|]. simpl.
  apply H; [repeat split | reflexivity | apply Z.mod_pos_bound; lia].
Qed.

Lemma post_Float64 ctx Q :
  (forall v c, sameStatic ctx c -> CallNumber c = CallNumber ctx -> Q v c) ->
  post Float64 ctx Q.
Proof. intros H. unfold post, Float64. simpl. apply H; [repeat split | reflexivity]. Qed.

Lemma post_Float32 ctx Q :
  (forall v c, sameStatic ctx c -> CallNumber c = CallNumber ctx -> Q v c) ->
  post Float32 ctx Q.
Proof. intros H. unfold post, Float32. simpl. apply H; [repeat split | reflexivity]. Qed.

Lemma post_index {A} (pool : list A) i ctx Q :
  (forall a, a ∈ pool -> Q a ctx) -> post (index pool i) ctx Q.
Proof.
  intros H. unfold post, index. destruct (i <? 0); [exact I|].
  destruct (nth_error pool (Z.to_nat i)) as [a|] eqn:E; [|exact I].
  apply H. apply list_elem_of_In. eapply nth_error_In; eauto.
Qed.

Lemma post_NextCallNumber ctx Q :
  (forall c, sameStatic ctx c -> CallNumber c = wrap64 (CallNumber ctx + 1) ->
             Q (wrap64 (CallNumber ctx + 1)) c) ->
  post NextCallNumber ctx Q.
Proof. intros H. unfold post, NextCallNumber. apply H; [repeat split | reflexivity]. Qed.

Lemma post_RandomAgent ctx Q :
  (forall a c, sameStatic ctx c -> CallNumber c = CallNumber ctx ->
               a ∈ AgentPool ctx -> Q a c) ->
  post RandomAgent ctx Q.
Proof.
  intros H. unfold RandomAgent. apply post_bind, post_get, post_bind, post_Intn.
  intros v c Hs Hc Hv. apply post_index. intros a Ha. now apply H.
Qed.

Lemma post_RandomLocation ctx Q :
  (forall a c, sameStatic ctx c -> CallNumber c = CallNumber ctx ->
               a ∈ LocationPool ctx -> Q a c) ->
  post RandomLocation ctx Q.
Proof.
  intros H. unfold RandomLocation. apply post_bind, post_get, post_bind, post_Intn.
  intros v c Hs Hc Hv. apply post_index. intros a Ha. now apply H.
Qed.

Lemma post_RandomCarrier ctx Q :
  (forall a c, sameStatic ctx c -> CallNumber c = CallNumber ctx ->
               a ∈ CarrierPool ctx -> Q a c) ->
  post RandomCarrier ctx Q.
Proof.
  intros H. unfold RandomCarrier. apply post_bind, post_get, post_bind, post_Intn.
  intros v c Hs Hc Hv. apply post_index. intros a Ha. now apply H.
Qed.

Lemma post_RandomPhoneNumber ctx Q :
  (forall a e s c, sameStatic ctx c -> CallNumber c = CallNumber ctx ->
     200 <= a < 1000 -> 200 <= e < 1000 -> 0 <= s < 10000 ->
     Q (formatPhone a e s) c) ->
  post RandomPhoneNumber ctx Q.
Proof.
  intros H. unfold RandomPhoneNumber.
  apply post_bind, post_Intn. intros a c1 Hs1 Hc1 Ha.
  apply post_bind, post_Intn. intros e c2 Hs2 Hc2 He.
  apply post_bind, post_Intn. intros s c3 Hs3 Hc3 Hsub.
  apply post_ret. apply H; try lia. eauto using sameStatic_trans.
Qed.

(** [RandomDuration]: for [maxSec <= minSec] exactly [minSec] seconds,
    without a draw; otherwise a whole number of seconds in
    [[minSec, maxSec)]. *)
Lemma post_RandomDuration minSec maxSec ctx Q :
  - 2 ^ 31 <= minSec <= 2 ^ 31 -> - 2 ^ 31 <= maxSec <= 2 ^ 31 ->
  (maxSec <= minSec -> Q (minSec * Second) ctx) ->
  (forall k c, sameStatic ctx c -> CallNumber c = CallNumber ctx ->
     minSec < maxSec -> 0 <= k < maxSec - minSec -> Q ((minSec + k) * Second) c) ->
  post (RandomDuration minSec maxSec) ctx Q.
Proof.
  intros Hmin Hmax Hfix Hrnd. unfold RandomDuration.
  destruct (Z.leb_spec maxSec minSec).
  - apply post_ret. rewrite wrap64_id; [now apply Hfix|].
    unfold minInt64, maxInt64, Second. lia.
  - rewrite (wrap64_id (maxSec - minSec)) by (unfold minInt64, maxInt64; lia).
    apply post_bind, post_Intn. intros k c Hs Hc Hk. apply post_ret.
    rewrite (wrap64_id (minSec + k)) by (unfold minInt64, maxInt64; lia).
    rewrite wrap64_id by (unfold minInt64, maxInt64, Second; lia).
    now apply Hrnd.
Qed.

Lemma post_skip {A B} (m : Gen A) (k : A -> Gen B) ctx Q :
  (forall a c, post (k a) c Q) -> post (bind m k) ctx Q.
Proof.
  intros H. apply post_bind. unfold post at 1.
  destruct (m ctx) as [[a c]|]; [apply H | exact I].
Qed.

End GenerationRules.

(** A [let] at the head of the computation becomes a local definition. *)
Ltac gen_let :=
  lazymatch goal with
  | |- post (let x := ?v in @?b x) ?c ?Q =>
      let y := fresh x in pose (y := v); change (post (b y) c Q); cbv beta
  end.

(** Pass a step whose result is not needed. *)
Ltac gen_skip :=
  first [ gen_let | apply post_skip; intros ? ?; cbv beta ].

(** ** Synthetic generation: call duration *)

Section GenerationDuration.
Context {RT : GoRuntime}.
Import gotime format formatctx.

Lemma Milliseconds_of_seconds n :
  goduration.Milliseconds (n * Second) * Millisecond = n * Second.
Proof.
  unfold goduration.Milliseconds, Second, Millisecond.
  replace (n * 1000000000) with (n * 1000 * 1000000) by lia.
  rewrite Z.quot_mul by lia. lia.
Qed.

(** The duration of a synthesized viper record: a whole number of seconds
    from 30 to 299. *)
Lemma GenerateViperRecord_duration clock ctx :
  post (viper.GenerateViperRecord clock) ctx
    (fun r _ => exists rec k,
       r = Ok rec /\ 0 <= k < 270 /\ Duration_ rec = (30 + k) * Second).
Proof.
  unfold viper.GenerateViperRecord.
  do 6 gen_skip. try gen_let.
  apply post_bind, post_RandomDuration; [lia | lia | intros; lia |].
  intros k cd Hs Hc _ Hk. cbv beta.
  repeat gen_skip.
  apply post_ret. eexists _, k. split; [reflexivity|]. split; [exact Hk|].
  cbn [Duration_]. rewrite Milliseconds_of_seconds.
  apply wrap64_id. unfold minInt64, maxInt64, Second. lia.
Qed.

(** The same for a synthesized vesta record. *)
Lemma GenerateVestaRecord_duration clock ctx :
  post (vesta.GenerateVestaRecord clock) ctx
    (fun r _ => exists rec k,
       r = Ok rec /\ 0 <= k < 270 /\ Duration_ rec = (30 + k) * Second).
Proof.
  unfold vesta.GenerateVestaRecord.
  gen_skip. try gen_let. do 6 gen_skip. try gen_let.
  apply post_bind, post_RandomDuration; [lia | lia | intros; lia |].
  intros k cd Hs Hc _ Hk. cbv beta.
  repeat gen_skip.
  apply post_ret. eexists _, k. split; [reflexivity|]. split; [exact Hk|]. reflexivity.
Qed.

(** C5 (the code departs from the claim).  Whatever minimum and maximum
    duration the endpoint's synthetic configuration holds, a record
    synthesized by either protocol has a duration of a whole number of
    seconds in [[30, 300)]: the generators call [RandomDuration(30, 300)]
    and never read the configured bounds. *)
Theorem synthetic_duration_ignores_configured_range clock (g g' : generator.Generator) r :
  generator.format_ g = viper.ViperFormat \/ generator.format_ g = vesta.VestaFormat ->
  generator.mode g = generator.ModeSynthetic ->
  generator.NextRecord clock g = Some (Ok r, g') ->
  30 * Second <= Duration_ r < 300 * Second.
Proof.
  intros Hf Hm H. unfold generator.NextRecord in H. rewrite Hm in H. simpl in H.
  unfold generator.nextSyntheticRecord in H.
  destruct (generator.genContext g) as [ctx|]; [|discriminate].
  assert (Hpost : post (GenerateRecord (generator.format_ g) clock) ctx
            (fun r _ => exists rec k,
               r = Ok rec /\ 0 <= k < 270 /\ Duration_ rec = (30 + k) * Second)).
  { destruct Hf as [-> | ->]; simpl;
      [apply GenerateViperRecord_duration | apply GenerateVestaRecord_duration]. }
  destruct (GenerateRecord (generator.format_ g) clock ctx) as [[r0 ctx']|] eqn:E;
    [|discriminate].
  injection H as -> _.
  destruct (post_elim _ _ _ _ _ Hpost E) as (rec & k & Hr & Hk & Hd).
  injection Hr as <-. rewrite Hd. unfold Second. lia.
Qed.

End GenerationDuration.

Lemma result_ok_eq {A} (x : result A) (d : A) :
  is_ok x = true -> x = Ok (match x with Ok a => a | Err _ => d end).
Proof. destruct x; [reflexivity | discriminate]. Qed.

(** The duration theorem on the viper generator built from the sample
    endpoint, whose configuration asks for 400 to 500 seconds: the
    record it produces lasts 222 seconds. *)
Lemma synthetic_duration_ignores_configured_range_sample :
  option_map (config.MinDurationSec) (config.Synthetic (sampleSyntheticPort "/dev/ttyS0"))
    = Some 400 /\
  exists r g',
    generator.NextRecord 0 sampleSyntheticGenerator = Some (Ok r, g') /\
    30 * gotime.Second <= format.Duration_ r < 300 * gotime.Second.
Proof.
  split; [reflexivity|].
  assert (Hc : option_map (fun x => is_ok x.1)
                 (generator.NextRecord 0 sampleSyntheticGenerator) = Some true)
    by (vm_compute; reflexivity).
  destruct (generator.NextRecord 0 sampleSyntheticGenerator) as [[[r|e] g']|] eqn:H;
    try discriminate Hc.
  exists r, g'. split; [reflexivity|].
  apply (synthetic_duration_ignores_configured_range (RT := sampleRuntime) 0
           sampleSyntheticGenerator g' r).
  - left. reflexivity.
  - vm_compute. reflexivity.
  - exact H.
Defined.

(** ** Synthetic generation: the randomness source *)

Section GenerationSeed.
Context {RT : GoRuntime}.
Import format generator.

Lemma loadSampleFile_mode fs now g g' :
  loadSampleFile fs now g = Ok g' -> mode g' = mode g.
Proof.
  unfold loadSampleFile.
  destruct (String.eqb _ _); [discriminate|].
  destruct (fs _) as [file|]; [|discriminate].
  destruct (ParseRecords _ _ _) as [rs|e]; [|discriminate].
  destruct (Nat.eqb _ _); [discriminate|]. intros H. injection H as <-. reflexivity.
Qed.

(** A synthetic generator built by [New] draws from the source seeded
    with the constant 0, whatever its configuration and the time. *)
Lemma New_synthetic_seed reg fs now portCfg jitter g :
  New reg fs now portCfg jitter = Ok g ->
  mode g = ModeSynthetic ->
  exists ctx, genContext g = Some ctx /\ Random ctx = gorand.New 0.
Proof.
  unfold New. destruct (registry.Get _ reg) as [f|e]; [|discriminate].
  destruct (negb _ && negb _); [discriminate|].
  destruct (String.eqb (config.Mode portCfg) ModeReplay) eqn:Hm.
  - intros H Hs. apply loadSampleFile_mode in H. simpl in H.
    apply String.eqb_eq in Hm. rewrite Hs, Hm in H. discriminate.
  - intros H _. injection H as <-. simpl. eauto.
Qed.

(** C8 (the code departs from the claim).  Any two synthetic generators
    built by [New], from whatever registries, configurations and at
    whatever times, hold sources in the same state, the one seeded with
    0: every sequence of draws from one is the sequence of draws from
    the other. *)
Theorem synthetic_generators_share_one_seed
    reg1 reg2 fs1 fs2 now1 now2 p1 p2 j1 j2 g1 g2 :
  New reg1 fs1 now1 p1 j1 = Ok g1 ->
  New reg2 fs2 now2 p2 j2 = Ok g2 ->
  mode g1 = ModeSynthetic ->
  mode g2 = ModeSynthetic ->
  exists c1 c2,
    genContext g1 = Some c1 /\ genContext g2 = Some c2 /\
    Random c1 = Random c2 /\
    (forall bounds, intnSeq (Random c1) bounds = intnSeq (Random c2) bounds) /\
    (forall i, gorand.stream (Random c1) i = rngStream 0 i).
Proof.
  intros H1 H2 M1 M2.
  destruct (New_synthetic_seed _ _ _ _ _ _ H1 M1) as (c1 & Hc1 & Hr1).
  destruct (New_synthetic_seed _ _ _ _ _ _ H2 M2) as (c2 & Hc2 & Hr2).
  exists c1, c2. repeat split; auto.
  - congruence.
  - intros bounds. now rewrite Hr1, Hr2.
  - intros i. now rewrite Hr1.
Qed.

End GenerationSeed.

(** The theorem on two sample generators that differ in device, format,
    system identity, rate and construction time. *)
Lemma synthetic_generators_share_one_seed_sample :
  exists c1 c2,
    generator.genContext sampleSyntheticGenerator = Some c1 /\
    generator.genContext sampleOtherSyntheticGenerator = Some c2 /\
    format.Random c1 = format.Random c2 /\
    (forall bounds, intnSeq (format.Random c1) bounds = intnSeq (format.Random c2) bounds) /\
    (forall i, gorand.stream (format.Random c1) i = rngStream (GoRuntime := sampleRuntime) 0 i).
Proof.
  eapply (synthetic_generators_share_one_seed (RT := sampleRuntime)).
  - apply (result_ok_eq _ sampleReplayGenerator). vm_compute. reflexivity.
  - apply (result_ok_eq _ sampleReplayGenerator). vm_compute. reflexivity.
  - vm_compute. reflexivity.
  - vm_compute. reflexivity.
Defined.

(** ** The viper parser: block segmentation *)

Section ViperBlocks.
Import format samplelog viper.

Variable now : gotime.Time.

Lemma flushOpen_prepend R st : flushOpen now (prepend R st) = R ++ flushOpen now st.
Proof.
  unfold flushOpen, prepend. simpl.
  destruct (inBlock st && negb (Nat.eqb (length (currentLines st)) 0));
    [now rewrite app_assoc | reflexivity].
Qed.

(** The loop only ever appends to the records. *)
Lemma step_prepend R st m : step now (prepend R st) m = prepend R (step now st m).
Proof.
  unfold step.
  destruct (gostrings.HasPrefix _ ViperCDRBegin);
    [unfold prepend at 2; simpl; now rewrite flushOpen_prepend|].
  destruct (gostrings.HasPrefix _ ViperAgentBegin);
    [unfold prepend at 2; simpl; now rewrite flushOpen_prepend|].
  destruct (String.eqb _ ViperCDREnd || String.eqb _ ViperAgentEnd).
  - simpl. destruct (inBlock st); [|reflexivity].
    unfold prepend; simpl. now rewrite app_assoc.
  - simpl. destruct (inBlock st && negb (String.eqb _ EmptyString)); reflexivity.
Qed.

Lemma fold_prepend R ms : forall st,
  fold_left (step now) ms (prepend R st) = prepend R (fold_left (step now) ms st).
Proof.
  induction ms as [|m ms IH]; intros st; simpl; [reflexivity|].
  now rewrite step_prepend, IH.
Qed.

(** A [BEGIN] line flushes the open block and opens a new one. *)
Lemma step_begin st b :
  isBeginMsg b = true ->
  step now st b =
    {| records := flushOpen now st; currentLines := [trimmedOf b];
       currentID := EmptyString; currentType := blockType b; inBlock := true |}.
Proof.
  unfold isBeginMsg, isBeginLine, step, blockType, trimmedOf. intros H.
  destruct (gostrings.HasPrefix _ ViperCDRBegin); [reflexivity|].
  simpl in H. rewrite H. reflexivity.
Qed.

(** Inside a block a line that is no marker is captured unless blank. *)
Lemma step_plain st m :
  isPlainMsg m = true -> inBlock st = true ->
  step now st m =
    {| records := records st;
       currentLines := currentLines st ++ captured [m];
       currentID := fold_left nextID (captured [m]) (currentID st);
       currentType := currentType st; inBlock := true |}.
Proof.
  unfold isPlainMsg, isPlainLine, isBeginLine, isEndMarker, step, captured, isBlankMsg, trimmedOf.
  intros H Hin. apply andb_true_iff in H as [Hb He].
  apply negb_true_iff, orb_false_iff in Hb as [Hb1 Hb2].
  apply negb_true_iff in He. rewrite Hb1, Hb2, He, Hin. simpl.
  destruct (String.eqb (gostrings.TrimSpace (Message m)) EmptyString) eqn:Hblank; simpl.
  - rewrite app_nil_r. destruct st; simpl in *; subst; reflexivity.
  - reflexivity.
Qed.

Lemma captured_app l1 l2 : captured (l1 ++ l2) = captured l1 ++ captured l2.
Proof. unfold captured. now rewrite List.filter_app, map_app. Qed.

Lemma fold_plain body : forall st,
  forallb isPlainMsg body = true -> inBlock st = true ->
  fold_left (step now) body st =
    {| records := records st;
       currentLines := currentLines st ++ captured body;
       currentID := fold_left nextID (captured body) (currentID st);
       currentType := currentType st; inBlock := true |}.
Proof.
  induction body as [|m body IH]; intros st Hall Hin.
  - simpl. rewrite app_nil_r. destruct st; simpl in *; subst; reflexivity.
  - simpl in Hall. apply andb_true_iff in Hall as [Hm Hall].
    simpl fold_left. rewrite (step_plain st m Hm Hin), IH by auto. simpl.
    change (m :: body) with ([m] ++ body).
    rewrite captured_app, fold_left_app, app_assoc. reflexivity.
Qed.

(** An [END] line closes the open block, appending itself. *)
Lemma step_end st e :
  isEndMsg e = true -> inBlock st = true ->
  step now st e =
    {| records := records st ++ [mkRecord now st (currentLines st ++ [trimmedOf e])];
       currentLines := []; currentID := EmptyString; currentType := EmptyString;
       inBlock := false |}.
Proof.
  unfold isEndMsg, isEndLine, isBeginLine, isEndMarker, step, trimmedOf. intros H Hin.
  apply andb_true_iff in H as [Hb He].
  apply negb_true_iff, orb_false_iff in Hb as [Hb1 Hb2].
  rewrite Hb1, Hb2, He, Hin. reflexivity.
Qed.

(** The stream up to and including a closed block. *)
Lemma fold_closed_block st b body e :
  isBeginMsg b = true -> forallb isPlainMsg body = true -> isEndMsg e = true ->
  fold_left (step now) (b :: body ++ [e]) st =
    prepend (flushOpen now st ++
             [blockRecord now b body (trimmedOf b :: captured body ++ [trimmedOf e])])
      initState.
Proof.
  intros Hb Hbody He. simpl fold_left. rewrite fold_left_app, (step_begin st b Hb).
  rewrite (fold_plain body); [|exact Hbody|reflexivity]. simpl fold_left.
  rewrite step_end; [|exact He|reflexivity].
  unfold prepend, initState, mkRecord, blockRecord, blockID.
  simpl. rewrite app_nil_r. reflexivity.
Qed.


(** A closed block splits the parse: the blocks before it, the block
    with its own lines and nothing else, the blocks after it. *)
Lemma groupBlocks_closed_block pre b body e post :
  isBeginMsg b = true -> forallb isPlainMsg body = true -> isEndMsg e = true ->
  groupBlocks now (pre ++ b :: body ++ e :: post) =
    groupBlocks now pre ++
    [blockRecord now b body (trimmedOf b :: captured body ++ [trimmedOf e])] ++
    groupBlocks now post.
Proof.
  intros Hb Hbody He. unfold groupBlocks.
  replace (pre ++ b :: body ++ e :: post) with (pre ++ (b :: body ++ [e]) ++ post)
    by (simpl; now rewrite <- app_assoc).
  rewrite !fold_left_app, fold_closed_block by auto.
  rewrite fold_prepend, flushOpen_prepend. now rewrite <- app_assoc.
Qed.






End ViperBlocks.


(** ** Facts about strings *)

Section StringFacts.
Import gostrings.

Lemma append_cons c (a b : string) : String c a +:+ b = String c (a +:+ b).
Proof. reflexivity. Qed.

Lemma prefix_cons a p c r :
  String.prefix (String a p) (String c r) =
    if ascii_dec a c then String.prefix p r else false.
Proof. reflexivity. Qed.

Lemma eqb_cons c r a p :
  String.eqb (String c r) (String a p) = Ascii.eqb c a && String.eqb r p.
Proof. reflexivity. Qed.

Lemma append_nil_l (b : string) : EmptyString +:+ b = b.
Proof. reflexivity. Qed.

Lemma append_nil_r (s : string) : s +:+ EmptyString = s.
Proof.
  induction s as [|c s IH]; [reflexivity | now rewrite append_cons, IH].
Qed.

Lemma append_assoc (a b c : string) : (a +:+ b) +:+ c = a +:+ (b +:+ c).
Proof.
  induction a as [|x a IH]; [reflexivity | now rewrite !append_cons, IH].
Qed.

Lemma length_append (a b : string) :
  String.length (a +:+ b) = (String.length a + String.length b)%nat.
Proof.
  induction a as [|x a IH]; [reflexivity | rewrite append_cons; simpl; now rewrite IH].
Qed.

Lemma trimRight_cons c r :
  trimRight (String c r) =
    match trimRight r with
    | EmptyString => if isSpace c then EmptyString else String c EmptyString
    | r' => String c r'
    end.
Proof. reflexivity. Qed.

Lemma trimRight_cons_nonspace c r :
  isSpace c = false -> exists r', trimRight (String c r) = String c r'.
Proof.
  intros Hc. simpl. destruct (trimRight r); [rewrite Hc|]; eauto.
Qed.

(** Trimming keeps a first byte that is not white space. *)
Lemma TrimSpace_cons_nonspace c r :
  isSpace c = false -> exists r', TrimSpace (String c r) = String c r'.
Proof.
  intros Hc. unfold TrimSpace. simpl trimLeft. rewrite Hc.
  now apply trimRight_cons_nonspace.
Qed.

Lemma TrimSpace_cons_space c r :
  isSpace c = true -> TrimSpace (String c r) = TrimSpace r.
Proof. intros Hc. unfold TrimSpace. simpl trimLeft. now rewrite Hc. Qed.

(** A string with a last byte that is not white space is its own right
    trim. *)
Lemma trimRight_app_stable x y :
  y <> EmptyString -> trimRight y = y -> trimRight (x +:+ y) = x +:+ y.
Proof.
  intros Hne Hy. induction x as [|c x IH]; [exact Hy|].
  rewrite append_cons. simpl. rewrite IH. destruct (x +:+ y) eqn:E; [|reflexivity].
  destruct x; [rewrite append_nil_l in E; congruence | discriminate].
Qed.

(** A prefix that ends in a byte that is not white space survives the
    right trim. *)
Lemma prefix_trimRight p : forall s,
  p <> EmptyString -> trimRight p = p ->
  String.prefix p s = true -> String.prefix p (trimRight s) = true.
Proof.
  induction p as [|a p IH]; intros s Hne Hp Hpre; [congruence|].
  destruct s as [|b s]; [discriminate|]. simpl in Hpre.
  destruct (ascii_dec a b) as [<-|]; [|discriminate].
  rewrite trimRight_cons in Hp. rewrite trimRight_cons.
  destruct p as [|a' p'].
  - simpl in Hp. destruct (isSpace a) eqn:Ha; [discriminate|].
    destruct (trimRight s); simpl; destruct (ascii_dec a a); congruence.
  - assert (Hp' : trimRight (String a' p') = String a' p').
    { destruct (trimRight (String a' p')) eqn:E.
      - destruct (isSpace a); discriminate.
      - injection Hp as -> ->. reflexivity. }
    specialize (IH s ltac:(discriminate) Hp' Hpre).
    destruct (trimRight s) as [|c t] eqn:E; [discriminate|].
    simpl. destruct (ascii_dec a a); [exact IH | congruence].
Qed.

End StringFacts.

(** ** Facts about formatted numbers *)

Section NumberFacts.

Lemma string_of_uint_plainStart (u : Decimal.uint) :
  plainStart (DecimalString.NilZero.string_of_uint u) = true.
Proof. destruct u; reflexivity. Qed.

Lemma digits_plainStart n : plainStart (gofmt.digits n) = true.
Proof. apply string_of_uint_plainStart. Qed.

Lemma plainStart_app a x : plainStart a = true -> plainStart (a +:+ x) = true.
Proof. destruct a as [|c a]; [discriminate | intros H; exact H]. Qed.

Lemma repeatByte_zero_plainStart k x :
  plainStart x = true -> plainStart (gofmt.repeatByte "0" k +:+ x) = true.
Proof. destruct k; [intros H; exact H | reflexivity]. Qed.

(** A number printed with [%d] or [%0wd] starts with a digit or a sign. *)
Lemma d0_plainStart w n : plainStart (gofmt.d0 w n) = true.
Proof.
  unfold gofmt.d0. destruct (n <? 0); [reflexivity|].
  apply repeatByte_zero_plainStart, digits_plainStart.
Qed.

Lemma d_plainStart n : plainStart (gofmt.d n) = true.
Proof. unfold gofmt.d. destruct (n <? 0); [reflexivity | apply digits_plainStart]. Qed.

Lemma plainStart_vestaText s :
  plainStart s = true ->
  (forall c r, s = String c r -> c <> "-"%char) -> vestaText s = true.
Proof.
  destruct s as [|c r]; [discriminate|]. intros _ H. simpl.
  destruct (Ascii.eqb_spec c "-"); [exfalso; eapply H; eauto | reflexivity].
Qed.

End NumberFacts.

(** ** Facts about viper lines *)

Section ViperLineFacts.
Import gostrings viper.

(** A line that starts with text other than [=] is no marker line. *)
Lemma isPlainLine_plainStart s : plainStart s = true -> isPlainLine s = true.
Proof.
  destruct s as [|c r]; [discriminate|]. simpl. intros H.
  apply andb_true_iff in H as [Hs He]. apply negb_true_iff in Hs, He.
  destruct (TrimSpace_cons_nonspace c r Hs) as [r' Ht].
  unfold isPlainLine, isBeginLine, isEndMarker, HasPrefix. rewrite Ht.
  unfold ViperCDRBegin, ViperAgentBegin, ViperCDREnd, ViperAgentEnd.
  rewrite !prefix_cons, !eqb_cons, He.
  destruct (ascii_dec "=" c) as [<-|]; [discriminate | reflexivity].
Qed.

Lemma isPlainLine_app a x : plainStart a = true -> isPlainLine (a +:+ x) = true.
Proof. intros H. now apply isPlainLine_plainStart, plainStart_app. Qed.

(** Leading white space does not count. *)
Lemma isPlainLine_space c r :
  isSpace c = true -> isPlainLine (String c r) = isPlainLine r.
Proof.
  intros H. unfold isPlainLine, isBeginLine. now rewrite (TrimSpace_cons_space c r H).
Qed.

(** A line that starts with a BEGIN marker is a BEGIN line. *)
Lemma isBeginLine_prefix c r p :
  isSpace c = false ->
  (p = ViperCDRBegin \/ p = ViperAgentBegin) ->
  String.prefix p (String c r) = true ->
  isBeginLine (String c r) = true /\
  HasPrefix (TrimSpace (String c r)) p = true.
Proof.
  intros Hc Hp Hpre. unfold isBeginLine, HasPrefix, TrimSpace.
  simpl trimLeft. rewrite Hc.
  assert (H : String.prefix p (trimRight (String c r)) = true).
  { destruct Hp as [-> | ->];
      (apply prefix_trimRight; [discriminate | reflexivity | exact Hpre]). }
  split; [|exact H]. destruct Hp as [-> | ->]; rewrite H; [reflexivity|].
  apply orb_true_r.
Qed.

(** A BEGIN line as the generators write it is left alone by the trim. *)
Lemma TrimSpace_begin_line c r t :
  isSpace c = false ->
  TrimSpace (String c r +:+ t +:+ " =====") = String c r +:+ t +:+ " =====".
Proof.
  intros Hc. unfold TrimSpace. rewrite append_cons. simpl trimLeft. rewrite Hc.
  rewrite <- append_cons, <- append_assoc.
  apply trimRight_app_stable; [discriminate | reflexivity].
Qed.

End ViperLineFacts.

(** ** The lines of synthesized records *)

Section GeneratedShape.
Context {RT : GoRuntime}.
Import gotime format formatctx.

Lemma post_sliceTo n s ctx Q :
  Q (gostrings.take n s) ctx -> post (viper.sliceTo n s) ctx Q.
Proof.
  intros H. unfold viper.sliceTo. destruct (String.length s <? n)%nat; [exact I | exact H].
Qed.

Lemma forallb_cons_true {A} (f : A -> bool) x l :
  f x = true -> forallb f l = true -> forallb f (x :: l) = true.
Proof. intros H1 H2. simpl. now rewrite H1, H2. Qed.

Lemma pools_checked :
  forallb locationLinesOK defaultLocations = true /\
  forallb carrierLinesOK defaultCarriers = true.
Proof. split; vm_compute; reflexivity. Qed.

Lemma location_in_pool l :
  l ∈ defaultLocations ->
  plainStart (gostrings.take
                (Z.to_nat (viper.min 16 (Z.of_nat (String.length (Address l)))))
                (Address l)) = true /\
  plainStart (gostrings.ToUpper (Address l)) = true /\
  plainStart (City l) = true.
Proof.
  intros Hl. destruct pools_checked as [H _]. rewrite forallb_forall in H.
  specialize (H l (proj1 (list_elem_of_In _ _) Hl)). unfold locationLinesOK in H.
  apply andb_true_iff in H as [H H3]. apply andb_true_iff in H as [H1 H2]. auto.
Qed.

Lemma carrier_in_pool c :
  c ∈ defaultCarriers -> plainStart (CarrierName c) = true.
Proof.
  intros Hc. destruct pools_checked as [_ H]. rewrite forallb_forall in H.
  exact (H c (proj1 (list_elem_of_In _ _) Hc)).
Qed.

Lemma formatDuration_plainStart d : plainStart (viper.formatDuration d) = true.
Proof. unfold viper.formatDuration. apply plainStart_app, d0_plainStart. Qed.

(** The agent block: its BEGIN line, seven lines that are no markers,
    its END line. *)
Lemma generateAgentBlock_shape agent callID posNum stnNum now ctx :
  post (viper.generateAgentBlock agent callID posNum stnNum now) ctx
    (fun ls _ => closedBlock viper.ViperAgentBegin viper.ViperAgentEnd ls).
Proof.
  unfold viper.generateAgentBlock. do 3 gen_skip. apply post_ret.
  unfold closedBlock. split; [reflexivity|]. split; [|split; [reflexivity|]].
  - apply (TrimSpace_begin_line "=" "==== AGENT BEGIN : "). reflexivity.
  - cbn [removelast].
    repeat (apply forallb_cons_true;
            [first [ apply isPlainLine_app; reflexivity | reflexivity ] |]).
    reflexivity.
Qed.

(** One line of a call block is no marker line. *)
Ltac plain_line :=
  first
    [ apply isPlainLine_app;
      first [ reflexivity
            | apply formatDuration_plainStart
            | assumption
            | unfold gofmt.sLeft; apply plainStart_app; assumption ]
    | unfold gofmt.sLeft; apply isPlainLine_app; assumption
    | rewrite append_cons, isPlainLine_space by reflexivity;
      apply isPlainLine_app; reflexivity
    | reflexivity ].

(** The lines of a synthesized viper record. *)
Lemma GenerateViperRecord_shape clock ctx :
  defaultPools ctx ->
  post (viper.GenerateViperRecord clock) ctx
    (fun r _ => exists rec, r = Ok rec /\ viperShape (Lines rec)).
Proof.
  intros Hpools. unfold viper.GenerateViperRecord.
  apply post_bind, post_NextCallNumber. intros c1 Hs1 _. cbv beta.
  apply post_bind, post_RandomPhoneNumber. intros pa pe ps c2 Hs2 _ _ _ _. cbv beta.
  assert (Hp2 : defaultPools c2)
    by (eapply sameStatic_defaultPools; [|exact Hpools]; eauto using sameStatic_trans).
  apply post_bind, post_RandomLocation. intros location c3 Hs3 _ Hloc. cbv beta.
  assert (Hp3 : defaultPools c3) by (eapply sameStatic_defaultPools; eauto).
  destruct Hp2 as (_ & Hlp & _). rewrite Hlp in Hloc.
  destruct (location_in_pool _ Hloc) as (Hl1 & Hl2 & Hl3).
  apply post_bind, post_RandomCarrier. intros carrier c4 Hs4 _ Hcar. cbv beta.
  destruct Hp3 as (_ & _ & Hcp). rewrite Hcp in Hcar.
  pose proof (carrier_in_pool _ Hcar) as Hc1.
  repeat (lazymatch goal with
          | |- post (bind (viper.sliceTo _ (Address _)) _) _ _ => fail
          | _ => gen_skip
          end).
  apply post_bind, post_sliceTo. cbv beta.
  repeat (lazymatch goal with
          | |- post (bind (if _ then _ else _) _) _ _ => fail
          | _ => gen_skip
          end).
  lazymatch goal with
  | |- post (bind (if _ then _ else ret ?L) _) _ _ =>
      assert (Hcdr : closedBlock viper.ViperCDRBegin viper.ViperCDREnd L)
  end.
  { unfold closedBlock. split; [reflexivity|]. split; [|split; [reflexivity|]].
    - apply (TrimSpace_begin_line "=" "==== CDR BEGIN : "). reflexivity.
    - cbn [removelast].
      repeat (apply forallb_cons_true; [plain_line|]). reflexivity. }
  apply post_bind.
  destruct (PrimFloat.ltb viper.agentThreshold _).
  - apply post_bind. eapply post_mono; [|apply generateAgentBlock_shape].
    intros ls cl Hls. apply post_ret. apply post_ret.
    eexists. split; [reflexivity|]. right. eexists _, ls.
    split; [reflexivity|]. split; [exact Hcdr | exact Hls].
  - apply post_ret. apply post_ret.
    eexists. split; [reflexivity|]. left. exact Hcdr.
Qed.

End GeneratedShape.

(** ** The lines of synthesized vesta records *)

Section GeneratedVestaShape.
Context {RT : GoRuntime}.
Import gotime format formatctx.

Lemma string_of_uint_digitStart (u : Decimal.uint) :
  digitStart (DecimalString.NilZero.string_of_uint u) = true.
Proof. destruct u; reflexivity. Qed.

Lemma digitStart_app a x : digitStart a = true -> digitStart (a +:+ x) = true.
Proof. destruct a as [|c a]; [discriminate | intros H; exact H]. Qed.

Lemma d0_digitStart w n : 0 <= n -> digitStart (gofmt.d0 w n) = true.
Proof.
  intros Hn. unfold gofmt.d0. destruct (Z.ltb_spec n 0); [lia|].
  destruct (w - String.length (gofmt.digits n))%nat; [|reflexivity].
  apply string_of_uint_digitStart.
Qed.

Lemma formatPhone_digitStart a e s :
  0 <= a -> digitStart (formatPhone a e s) = true.
Proof. intros Ha. unfold formatPhone. now apply digitStart_app, d0_digitStart. Qed.

Lemma formatPhoneWithDashes_digitStart p :
  digitStart p = true -> digitStart (vesta.formatPhoneWithDashes p) = true.
Proof.
  intros Hp. unfold vesta.formatPhoneWithDashes.
  destruct (Nat.eqb (String.length p) 10); [|exact Hp].
  destruct p as [|c r]; [discriminate|]. exact Hp.
Qed.

Lemma vestaCaptured_digitStart a x :
  digitStart a = true -> vestaCaptured (a +:+ x) = true.
Proof.
  destruct a as [|c r]; [discriminate|]. rewrite append_cons. unfold vestaCaptured.
  simpl digitStart. unfold vesta.VestaSeparator. rewrite eqb_cons. simpl String.eqb at 1.
  destruct (Ascii.eqb_spec c "-") as [->|]; [discriminate | reflexivity].
Qed.

Lemma vestaCaptured_vestaText a x :
  vestaText a = true -> vestaCaptured (a +:+ x) = true.
Proof.
  destruct a as [|c r]; [discriminate|]. rewrite append_cons. unfold vestaCaptured.
  simpl vestaText. unfold vesta.VestaSeparator. rewrite eqb_cons. simpl String.eqb at 1.
  intros H. apply negb_true_iff in H. rewrite H. reflexivity.
Qed.

Lemma vestaCaptured_length s :
  String.length s = 24%nat -> vestaCaptured s = true.
Proof.
  intros H. unfold vestaCaptured.
  destruct (String.eqb_spec s EmptyString) as [->|]; [discriminate|].
  destruct (String.eqb_spec s vesta.VestaSeparator) as [->|]; [discriminate|].
  reflexivity.
Qed.

Lemma post_byteAt chars i ctx Q :
  (forall c, Q c ctx) -> post (vesta.byteAt chars i) ctx Q.
Proof.
  intros H. unfold vesta.byteAt. destruct (i <? 0); [exact I|].
  destruct (String.get _ _); [apply H | exact I].
Qed.

(** The loop of [generateSIPCallID] appends one byte per turn. *)
Lemma generateSIPCallIDLoop_length n : forall sb ctx,
  post (vesta.generateSIPCallIDLoop n sb) ctx
    (fun s _ => String.length s = (String.length sb + n)%nat).
Proof.
  induction n as [|n IH]; intros sb ctx; simpl.
  - apply post_ret. lia.
  - apply post_skip. intros i c. apply post_bind, post_byteAt. intros b.
    eapply post_mono; [|apply IH]. intros s c0 Hs. simpl in Hs.
    rewrite Hs, length_append. simpl. lia.
Qed.

Lemma generateSIPCallID_length ctx :
  post vesta.generateSIPCallID ctx (fun s _ => String.length s = 24%nat).
Proof.
  unfold vesta.generateSIPCallID. apply post_bind.
  eapply post_mono; [|apply generateSIPCallIDLoop_length].
  intros s c Hs. apply post_ret. rewrite length_append, Hs. reflexivity.
Qed.

(** The lines of a synthesized vesta record: six lines that are neither
    empty nor the separator, then the separator. *)
Lemma GenerateVestaRecord_shape clock ctx :
  post (vesta.GenerateVestaRecord clock) ctx
    (fun r _ => exists rec body,
       r = Ok rec /\ Lines rec = body ++ [vesta.VestaSeparator] /\
       forallb vestaCaptured body = true /\ length body = 6%nat).
Proof.
  unfold vesta.GenerateVestaRecord.
  gen_skip. try gen_let.
  apply post_bind, post_RandomPhoneNumber. intros pa pe ps c2 Hs2 _ Hpa _ _. cbv beta.
  repeat (lazymatch goal with
          | |- post (bind vesta.generateSIPCallID _) _ _ => fail
          | _ => gen_skip
          end).
  apply post_bind. eapply post_mono; [|apply generateSIPCallID_length].
  intros sip csip Hsip. cbv beta. repeat gen_let.
  apply post_ret. eexists _, _. split; [reflexivity|].
  split; [|split].
  - cbn [Lines].
    lazymatch goal with
    | |- [?l1; ?l2; ?l3; ?l4; ?l5; ?l6; ?l7] = _ =>
        change ([l1; l2; l3; l4; l5; l6; l7]) with ([l1; l2; l3; l4; l5; l6] ++ [l7])
    end.
    reflexivity.
  - repeat (apply forallb_cons_true;
            [first [ apply vestaCaptured_vestaText; reflexivity
                   | apply vestaCaptured_digitStart, formatPhoneWithDashes_digitStart,
                       formatPhone_digitStart; lia
                   | apply vestaCaptured_length; assumption
                   | reflexivity ] |]).
    reflexivity.
  - reflexivity.
Qed.

End GeneratedVestaShape.

(** ** Parsing the lines of a synthesized viper record *)

Section ViperReparse.
Import format samplelog viper gostrings.

Variable now : gotime.Time.

Lemma prefix_app_inv p : forall s,
  String.prefix p s = true -> exists t, s = p +:+ t.
Proof.
  induction p as [|a p IH]; intros s H.
  - exists s. reflexivity.
  - destruct s as [|c r]; [discriminate|]. rewrite prefix_cons in H.
    destruct (ascii_dec a c) as [->|]; [|discriminate].
    destruct (IH r H) as [t ->]. exists t. now rewrite append_cons.
Qed.

Lemma groupBlocks_blank m : Message m = EmptyString -> groupBlocks now [m] = [].
Proof. intros H. unfold groupBlocks. simpl. unfold step. rewrite H. reflexivity. Qed.

Lemma captured_nonBlank body : captured body = nonBlank (map Message body).
Proof.
  unfold captured, nonBlank. induction body as [|m body IH]; [reflexivity|].
  simpl. unfold isBlankMsg at 1, trimmedOf, isBlankLine at 1.
  destruct (String.eqb (TrimSpace (Message m)) EmptyString); simpl; now rewrite IH.
Qed.

Lemma forallb_plain_map body :
  forallb isPlainLine (map Message body) = forallb isPlainMsg body.
Proof. induction body as [|m body IH]; [reflexivity|]. simpl. now rewrite IH. Qed.

Lemma nonBlank_app l1 l2 : nonBlank (l1 ++ l2) = nonBlank l1 ++ nonBlank l2.
Proof. unfold nonBlank. apply List.filter_app. Qed.

(** Messages whose texts form a closed block are a BEGIN message, messages
    that are no markers, and an END message. *)
Lemma closedBlock_messages B E ms :
  (B = ViperCDRBegin /\ E = ViperCDREnd) \/ (B = ViperAgentBegin /\ E = ViperAgentEnd) ->
  closedBlock B E (map Message ms) ->
  exists b body e,
    ms = b :: body ++ [e] /\
    isBeginMsg b = true /\ forallb isPlainMsg body = true /\ isEndMsg e = true /\
    String.prefix B (Message b) = true /\ trimmedOf b = Message b /\
    trimmedOf e = Message e /\ Message e = E.
Proof.
  intros HBE Hc. destruct ms as [|b rest]; [contradiction|].
  simpl in Hc. destruct Hc as (Hpre & Htrim & Hlast & Hplain).
  destruct rest as [|e body _] using rev_ind; [discriminate|].
  rewrite map_app in Hlast, Hplain. simpl in Hlast, Hplain.
  rewrite last_snoc in Hlast. injection Hlast as He.
  rewrite removelast_last, forallb_plain_map in Hplain.
  exists b, body, e. split; [reflexivity|].
  assert (Hee : isEndMsg e = true /\ trimmedOf e = Message e).
  { unfold isEndMsg, trimmedOf. rewrite He.
    destruct HBE as [[_ ->]|[_ ->]]; split; reflexivity. }
  destruct Hee as [He1 He2].
  repeat split; auto.
  unfold isBeginMsg, isBeginLine, HasPrefix. rewrite Htrim.
  destruct HBE as [[-> _]|[-> _]]; rewrite Hpre; [reflexivity | apply orb_true_r].
Qed.

Lemma blockType_cdr b :
  String.prefix ViperCDRBegin (Message b) = true -> trimmedOf b = Message b ->
  blockType b = "cdr".
Proof. intros H Ht. unfold blockType, HasPrefix. now rewrite Ht, H. Qed.

Lemma blockType_agent b :
  String.prefix ViperAgentBegin (Message b) = true -> trimmedOf b = Message b ->
  blockType b = "agent".
Proof.
  intros H Ht. unfold blockType, HasPrefix. rewrite Ht.
  destruct (prefix_app_inv _ _ H) as [t ->]. reflexivity.
Qed.

Lemma isBlankLine_trimmed s :
  TrimSpace s = s -> s <> EmptyString -> isBlankLine s = false.
Proof.
  intros Ht Hne. unfold isBlankLine. rewrite Ht.
  destruct (String.eqb_spec s EmptyString); [contradiction | reflexivity].
Qed.

(** The lines of the record of a closed block are the lines of the block
    that are not blank. *)
Lemma closed_block_lines B E b body e :
  (B = ViperCDRBegin /\ E = ViperCDREnd) \/ (B = ViperAgentBegin /\ E = ViperAgentEnd) ->
  String.prefix B (Message b) = true -> trimmedOf b = Message b ->
  trimmedOf e = Message e -> Message e = E ->
  trimmedOf b :: captured body ++ [trimmedOf e] =
    nonBlank (map Message (b :: body ++ [e])).
Proof.
  intros HBE Hpre Hb He HE.
  rewrite map_cons, map_app. change (?x :: ?l ++ ?r) with ([x] ++ l ++ r).
  rewrite !nonBlank_app, captured_nonBlank, Hb, He. f_equal; [|f_equal].
  - unfold nonBlank. simpl. rewrite isBlankLine_trimmed; [reflexivity | exact Hb |].
    intros Hnil. rewrite Hnil in Hpre.
    destruct HBE as [[-> _]|[-> _]]; discriminate.
  - unfold nonBlank. simpl. rewrite HE.
    destruct HBE as [[_ ->]|[_ ->]]; reflexivity.
Qed.

(** A call block holds no agent END marker. *)
Lemma closedBlock_cdr_no_agent ms :
  closedBlock ViperCDRBegin ViperCDREnd (map Message ms) ->
  ~ In ViperAgentEnd (map Message ms).
Proof.
  intros Hc Hin.
  destruct (closedBlock_messages _ _ ms (or_introl (conj eq_refl eq_refl)) Hc)
    as (b & body & e & -> & Hb & Hbody & He & Hpre & Htb & Hte & HE).
  apply in_map_iff in Hin as (m & Hm & Hin).
  destruct Hin as [<- | Hin].
  - rewrite Hm in Hpre. discriminate Hpre.
  - apply in_app_or in Hin as [Hin | [<- | []]].
    + rewrite forallb_forall in Hbody. specialize (Hbody m Hin).
      unfold isPlainMsg in Hbody. rewrite Hm in Hbody. discriminate Hbody.
    + rewrite Hm in HE. discriminate HE.
Qed.

(** The parse of messages whose texts have the shape of a viper record:
    one call block, or a call block and an agent block; what the blocks
    hold are the lines that are not blank. *)
Lemma groupBlocks_viperShape ms :
  viperShape (map Message ms) ->
  (~ In ViperAgentEnd (map Message ms) /\
   exists blk, groupBlocks now ms = [blk] /\ Type_ blk = "cdr" /\
               Lines blk = nonBlank (map Message ms)) \/
  (In ViperAgentEnd (map Message ms) /\
   exists b1 b2, groupBlocks now ms = [b1; b2] /\
                 Type_ b1 = "cdr" /\ Type_ b2 = "agent" /\
                 Lines b1 ++ Lines b2 = nonBlank (map Message ms)).
Proof.
  intros [Hc | (c & a & Hsplit & Hc & Ha)].
  - left. split; [now apply closedBlock_cdr_no_agent|].
    destruct (closedBlock_messages _ _ ms (or_introl (conj eq_refl eq_refl)) Hc)
      as (b & body & e & -> & Hb & Hbody & He & Hpre & Htb & Hte & HE).
    eexists. split; [|split].
    + change (b :: body ++ [e]) with ([] ++ b :: body ++ e :: []).
      rewrite groupBlocks_closed_block by assumption. reflexivity.
    + now apply blockType_cdr.
    + cbn [Lines blockRecord].
      now apply (closed_block_lines ViperCDRBegin ViperCDREnd);
        [left; split; reflexivity | ..].
  - right. split.
    { rewrite Hsplit. apply in_or_app. right. right.
      destruct a as [|x rest]; [contradiction|]. destruct Ha as (_ & _ & Hl & _).
      right. apply list_elem_of_In, last_Some_elem_of, Hl. }
    apply map_eq_app in Hsplit as (m1 & m2' & -> & Hm1 & Hm2).
    destruct m2' as [|blank m2]; [discriminate|]. simpl in Hm2.
    injection Hm2 as Hblank Hm2. subst c a.
    destruct (closedBlock_messages _ _ m1 (or_introl (conj eq_refl eq_refl)) Hc)
      as (b & body & e & -> & Hb & Hbody & He & Hpre & Htb & Hte & HE).
    destruct (closedBlock_messages _ _ m2 (or_intror (conj eq_refl eq_refl)) Ha)
      as (b' & body' & e' & -> & Hb' & Hbody' & He' & Hpre' & Htb' & Hte' & HE').
    eexists _, _. split; [|split; [|split]].
    + replace ((b :: body ++ [e]) ++ blank :: b' :: body' ++ [e'])
        with ([] ++ b :: body ++ e :: ([blank] ++ b' :: body' ++ e' :: []))
        by (simpl; now rewrite <- app_assoc).
      rewrite groupBlocks_closed_block by assumption.
      rewrite groupBlocks_closed_block by assumption.
      rewrite (groupBlocks_blank blank Hblank). reflexivity.
    + now apply blockType_cdr.
    + now apply blockType_agent.
    + cbn [Lines blockRecord].
      rewrite map_app, nonBlank_app.
      change (map Message (blank :: ?l)) with ([Message blank] ++ map Message l).
      rewrite nonBlank_app, Hblank. change (nonBlank [EmptyString]) with (@nil string).
      rewrite app_nil_l.
      f_equal.
      * now apply (closed_block_lines ViperCDRBegin ViperCDREnd);
          [left; split; reflexivity | ..].
      * now apply (closed_block_lines ViperAgentBegin ViperAgentEnd);
          [right; split; reflexivity | ..].
Qed.

End ViperReparse.

(** ** The vesta block loop *)

Section VestaBlocks.
Import format samplelog.

Variable now : gotime.Time.

Lemma vesta_flushOpen_prepend R st :
  vesta.flushOpen now (vestaPrepend R st) = R ++ vesta.flushOpen now st.
Proof.
  unfold vesta.flushOpen, vestaPrepend. simpl.
  destruct (negb _); [now rewrite <- app_assoc | reflexivity].
Qed.

(** The vesta loop only ever appends to the records. *)
Lemma vesta_step_prepend R st m :
  vesta.step now (vestaPrepend R st) m = vestaPrepend R (vesta.step now st m).
Proof.
  unfold vesta.step.
  destruct (String.eqb (Message m) vesta.VestaSeparator).
  - unfold vestaPrepend at 1. cbn [vesta.currentLines vesta.records vesta.currentID].
    destruct (negb _); [|reflexivity].
    unfold vestaPrepend. simpl. now rewrite <- app_assoc.
  - destruct (String.eqb (Message m) EmptyString); reflexivity.
Qed.

Lemma vesta_fold_prepend R ms : forall st,
  fold_left (vesta.step now) ms (vestaPrepend R st) =
    vestaPrepend R (fold_left (vesta.step now) ms st).
Proof.
  induction ms as [|m ms IH]; intros st; [reflexivity|].
  simpl. now rewrite vesta_step_prepend, IH.
Qed.

(** A message that is neither empty nor the separator is appended to the
    open block. *)
Lemma vesta_step_captured st m :
  vestaCaptured (Message m) = true ->
  vesta.step now st m =
    {| vesta.records := vesta.records st;
       vesta.currentLines := vesta.currentLines st ++ [Message m];
       vesta.currentID := vestaNextID (vesta.currentID st) (Message m) |}.
Proof.
  unfold vestaCaptured. intros H. apply andb_true_iff in H as [H1 H2].
  apply negb_true_iff in H1, H2. unfold vesta.step. now rewrite H2, H1.
Qed.

Lemma vesta_fold_captured body : forall st,
  forallb vestaCaptured (map Message body) = true ->
  fold_left (vesta.step now) body st =
    {| vesta.records := vesta.records st;
       vesta.currentLines := vesta.currentLines st ++ map Message body;
       vesta.currentID := fold_left vestaNextID (map Message body) (vesta.currentID st) |}.
Proof.
  induction body as [|m body IH]; intros st H.
  - simpl. rewrite app_nil_r. now destruct st.
  - simpl in H. apply andb_true_iff in H as [Hm H]. simpl fold_left at 1.
    rewrite (vesta_step_captured st m Hm), (IH _ H). simpl.
    now rewrite <- app_assoc.
Qed.

(** The separator closes an open block, appending itself, and is dropped
    when no block is open; an empty message is dropped. *)
Lemma vesta_step_separator st m :
  Message m = vesta.VestaSeparator ->
  vesta.step now st m =
    match vesta.currentLines st with
    | [] => st
    | _ => {| vesta.records := vesta.records st ++
                [vesta.mkRecord now (vesta.currentID st)
                   (vesta.currentLines st ++ [vesta.VestaSeparator])];
              vesta.currentLines := [];
              vesta.currentID := EmptyString |}
    end.
Proof.
  intros H. unfold vesta.step. rewrite H, String.eqb_refl.
  now destruct (vesta.currentLines st).
Qed.

Lemma vesta_step_empty st m :
  Message m = EmptyString -> vesta.step now st m = st.
Proof. intros H. unfold vesta.step. now rewrite H. Qed.

(** With no open block the loop holds no identifier. *)
Lemma vesta_step_idle st m :
  (vesta.currentLines st = [] -> vesta.currentID st = EmptyString) ->
  vesta.currentLines (vesta.step now st m) = [] ->
  vesta.currentID (vesta.step now st m) = EmptyString.
Proof.
  intros Hinv. unfold vesta.step.
  destruct (String.eqb (Message m) vesta.VestaSeparator).
  - destruct (negb _); [reflexivity | exact Hinv].
  - destruct (String.eqb (Message m) EmptyString); [exact Hinv|].
    simpl. intros H. now destruct (vesta.currentLines st).
Qed.

Lemma vesta_fold_idle ms : forall st,
  (vesta.currentLines st = [] -> vesta.currentID st = EmptyString) ->
  vesta.currentLines (fold_left (vesta.step now) ms st) = [] ->
  vesta.currentID (fold_left (vesta.step now) ms st) = EmptyString.
Proof.
  induction ms as [|m ms IH]; intros st Hinv; [exact Hinv|].
  simpl. apply IH. now apply vesta_step_idle.
Qed.

(** At a boundary the loop is in its initial state but for the records. *)
Lemma vesta_boundary_state pre :
  vestaBoundary pre ->
  fold_left (vesta.step now) pre vesta.initState =
    vestaPrepend (vesta.groupBlocks now pre) vesta.initState.
Proof.
  unfold vestaBoundary, vesta.groupBlocks.
  destruct pre as [|m pre' _] using rev_ind; [reflexivity|].
  rewrite last_snoc, fold_left_app. simpl. intros Hm.
  set (st := fold_left (vesta.step now) pre' vesta.initState).
  assert (Hid : vesta.currentLines st = [] -> vesta.currentID st = EmptyString).
  { apply vesta_fold_idle. reflexivity. }
  rewrite (vesta_step_separator st m Hm).
  destruct (vesta.currentLines st) as [|l ls] eqn:El.
  - unfold vesta.flushOpen, vestaPrepend. rewrite El. simpl. rewrite app_nil_r.
    destruct st as [r cl ci]. simpl in *. subst cl. now rewrite Hid.
  - unfold vesta.flushOpen, vestaPrepend. simpl. now rewrite app_nil_r.
Qed.

(** A run of captured messages closed by a separator splits the parse:
    the blocks before it, the block with the run and the separator as its
    last line, the blocks after it. *)
Lemma vesta_groupBlocks_closed_block pre body sep post :
  vestaBoundary pre -> body <> [] ->
  forallb vestaCaptured (map Message body) = true ->
  Message sep = vesta.VestaSeparator ->
  vesta.groupBlocks now (pre ++ body ++ sep :: post) =
    vesta.groupBlocks now pre ++
    [vestaBlockRecord now body (map Message body ++ [vesta.VestaSeparator])] ++
    vesta.groupBlocks now post.
Proof.
  intros Hpre Hne Hbody Hsep. unfold vesta.groupBlocks at 1.
  rewrite !fold_left_app, (vesta_boundary_state pre Hpre).
  rewrite vesta_fold_prepend, (vesta_fold_captured body _ Hbody).
  simpl fold_left. rewrite vesta_step_prepend, (vesta_step_separator _ sep Hsep).
  cbn [vesta.currentLines vesta.records vesta.currentID vesta.initState app].
  destruct (map Message body) as [|l ls] eqn:El.
  { destruct body; [contradiction | discriminate]. }
  rewrite <- El.
  change {| vesta.records := [vesta.mkRecord now
              (fold_left vestaNextID (map Message body) EmptyString)
              (map Message body ++ [vesta.VestaSeparator])];
            vesta.currentLines := []; vesta.currentID := EmptyString |}
    with (vestaPrepend [vestaBlockRecord now body
                          (map Message body ++ [vesta.VestaSeparator])] vesta.initState).
  rewrite !vesta_fold_prepend, !vesta_flushOpen_prepend. reflexivity.
Qed.

(** A run of captured messages that reaches the end of the input is
    emitted too, without a separator. *)
Lemma vesta_groupBlocks_dangling_block pre body :
  vestaBoundary pre -> body <> [] ->
  forallb vestaCaptured (map Message body) = true ->
  vesta.groupBlocks now (pre ++ body) =
    vesta.groupBlocks now pre ++ [vestaBlockRecord now body (map Message body)].
Proof.
  intros Hpre Hne Hbody. unfold vesta.groupBlocks at 1.
  rewrite fold_left_app, (vesta_boundary_state pre Hpre).
  rewrite vesta_fold_prepend, (vesta_fold_captured body _ Hbody).
  rewrite vesta_flushOpen_prepend. f_equal.
  unfold vesta.flushOpen. cbn [vesta.currentLines vesta.records vesta.currentID vesta.initState app].
  destruct (map Message body) as [|l ls] eqn:El.
  { destruct body; [contradiction | discriminate]. }
  unfold vestaBlockRecord. rewrite El. reflexivity.
Qed.

End VestaBlocks.

(** ** Generation returns *)

Section GenerationRuns.
Import gotime format formatctx.
Local Open Scope gen_scope.

Lemma runs_ret {A} (a : A) ctx Q : Q a ctx -> runs (ret a) ctx Q.
Proof. intros H. exact H. Qed.

Lemma runs_bind {A B} (m : Gen A) (k : A -> Gen B) ctx Q :
  runs m ctx (fun a c => runs (k a) c Q) -> runs (bind m k) ctx Q.
Proof.
  unfold runs, bind. destruct (m ctx) as [[a c]|]; [intros H; exact H | trivial].
Qed.

Lemma runs_mono {A} (m : Gen A) ctx (Q Q' : A -> GenerationContext -> Prop) :
  (forall a c, Q a c -> Q' a c) -> runs m ctx Q -> runs m ctx Q'.
Proof.
  unfold runs. intros HQ. destruct (m ctx) as [[a c]|]; [apply HQ | trivial].
Qed.

(** What holds of every result holds of the result of a computation
    that returns. *)
Lemma runs_post {A} (m : Gen A) ctx (Q Q' : A -> GenerationContext -> Prop) :
  runs m ctx Q -> post m ctx Q' -> runs m ctx (fun a c => Q a c /\ Q' a c).
Proof.
  unfold runs, post. destruct (m ctx) as [[a c]|]; [now split | trivial].
Qed.

Lemma runs_elim {A} (m : Gen A) ctx Q :
  runs m ctx Q -> exists a c, m ctx = Some (a, c) /\ Q a c.
Proof.
  unfold runs. destruct (m ctx) as [[a c]|]; [eauto | contradiction].
Qed.

Lemma runs_get ctx Q : Q ctx ctx -> runs get ctx Q.
Proof. intros H. exact H. Qed.

Lemma runs_Intn n ctx Q :
  0 < n ->
  (forall v c, sameStatic ctx c -> CallNumber c = CallNumber ctx ->
               0 <= v < n -> Q v c) ->
  runs (Intn n) ctx Q.
Proof.
  intros Hn H. unfold runs, Intn, gorand.Intn.
  destruct (Z.leb_spec n 0); [lia|]. simpl.
  apply H; [repeat split | reflexivity | apply Z.mod_pos_bound; lia].
Qed.

(** [Intn] panics on a bound that is not positive. *)
Lemma Intn_panics n ctx : n <= 0 -> Intn n ctx = None.
Proof.
  intros Hn. unfold Intn, gorand.Intn. now destruct (Z.leb_spec n 0); [|lia].
Qed.

Lemma runs_Float64 ctx Q :
  (forall v c, sameStatic ctx c -> CallNumber c = CallNumber ctx -> Q v c) ->
  runs Float64 ctx Q.
Proof. intros H. unfold runs, Float64. simpl. apply H; [repeat split | reflexivity]. Qed.

Lemma runs_Float32 ctx Q :
  (forall v c, sameStatic ctx c -> CallNumber c = CallNumber ctx -> Q v c) ->
  runs Float32 ctx Q.
Proof. intros H. unfold runs, Float32. simpl. apply H; [repeat split | reflexivity]. Qed.

Lemma runs_index {A} (pool : list A) i ctx Q :
  0 <= i < Z.of_nat (length pool) ->
  (forall a, a ∈ pool -> Q a ctx) -> runs (index pool i) ctx Q.
Proof.
  intros Hi H. unfold runs, index. destruct (Z.ltb_spec i 0); [lia|].
  destruct (nth_error pool (Z.to_nat i)) as [a|] eqn:E.
  - apply H. apply list_elem_of_In. eapply nth_error_In; eauto.
  - apply nth_error_None in E. lia.
Qed.

Lemma runs_NextCallNumber ctx Q :
  (forall c, sameStatic ctx c -> CallNumber c = wrap64 (CallNumber ctx + 1) ->
             Q (wrap64 (CallNumber ctx + 1)) c) ->
  runs NextCallNumber ctx Q.
Proof. intros H. unfold runs, NextCallNumber. apply H; [repeat split | reflexivity]. Qed.

Lemma length_pos {A} (l : list A) : l <> [] -> 0 < Z.of_nat (length l).
Proof. destruct l; [contradiction | simpl; lia]. Qed.

Lemma runs_RandomAgent ctx Q :
  AgentPool ctx <> [] ->
  (forall a c, sameStatic ctx c -> CallNumber c = CallNumber ctx ->
               a ∈ AgentPool ctx -> Q a c) ->
  runs RandomAgent ctx Q.
Proof.
  intros Hne H. unfold RandomAgent. apply runs_bind, runs_get, runs_bind, runs_Intn.
  { now apply length_pos. }
  intros v c Hs Hc Hv. apply runs_index; [exact Hv|]. intros a Ha. now apply H.
Qed.

Lemma runs_RandomLocation ctx Q :
  LocationPool ctx <> [] ->
  (forall a c, sameStatic ctx c -> CallNumber c = CallNumber ctx ->
               a ∈ LocationPool ctx -> Q a c) ->
  runs RandomLocation ctx Q.
Proof.
  intros Hne H. unfold RandomLocation. apply runs_bind, runs_get, runs_bind, runs_Intn.
  { now apply length_pos. }
  intros v c Hs Hc Hv. apply runs_index; [exact Hv|]. intros a Ha. now apply H.
Qed.

Lemma runs_RandomCarrier ctx Q :
  CarrierPool ctx <> [] ->
  (forall a c, sameStatic ctx c -> CallNumber c = CallNumber ctx ->
               a ∈ CarrierPool ctx -> Q a c) ->
  runs RandomCarrier ctx Q.
Proof.
  intros Hne H. unfold RandomCarrier. apply runs_bind, runs_get, runs_bind, runs_Intn.
  { now apply length_pos. }
  intros v c Hs Hc Hv. apply runs_index; [exact Hv|]. intros a Ha. now apply H.
Qed.

(** A pick from an empty pool panics. *)
Lemma RandomAgent_empty_pool ctx : AgentPool ctx = [] -> RandomAgent ctx = None.
Proof.
  intros H. unfold RandomAgent, bind, get. rewrite H. reflexivity.
Qed.

Lemma RandomLocation_empty_pool ctx : LocationPool ctx = [] -> RandomLocation ctx = None.
Proof.
  intros H. unfold RandomLocation, bind, get. rewrite H. reflexivity.
Qed.

Lemma RandomCarrier_empty_pool ctx : CarrierPool ctx = [] -> RandomCarrier ctx = None.
Proof.
  intros H. unfold RandomCarrier, bind, get. rewrite H. reflexivity.
Qed.

Lemma runs_RandomPhoneNumber ctx Q :
  (forall a e s c, sameStatic ctx c -> CallNumber c = CallNumber ctx ->
     200 <= a < 1000 -> 200 <= e < 1000 -> 0 <= s < 10000 ->
     Q (formatPhone a e s) c) ->
  runs RandomPhoneNumber ctx Q.
Proof.
  intros H. unfold RandomPhoneNumber.
  apply runs_bind, runs_Intn; [lia|]. intros a c1 Hs1 Hc1 Ha.
  apply runs_bind, runs_Intn; [lia|]. intros e c2 Hs2 Hc2 He.
  apply runs_bind, runs_Intn; [lia|]. intros s c3 Hs3 Hc3 Hsub.
  apply runs_ret. apply H; try lia. eauto using sameStatic_trans.
Qed.

Lemma runs_RandomDuration minSec maxSec ctx Q :
  - 2 ^ 31 <= minSec <= 2 ^ 31 -> - 2 ^ 31 <= maxSec <= 2 ^ 31 ->
  (maxSec <= minSec -> Q (minSec * Second) ctx) ->
  (forall k c, sameStatic ctx c -> CallNumber c = CallNumber ctx ->
     minSec < maxSec -> 0 <= k < maxSec - minSec -> Q ((minSec + k) * Second) c) ->
  runs (RandomDuration minSec maxSec) ctx Q.
Proof.
  intros Hmin Hmax Hfix Hrnd. unfold RandomDuration.
  destruct (Z.leb_spec maxSec minSec).
  - apply runs_ret. rewrite wrap64_id; [now apply Hfix|].
    unfold minInt64, maxInt64, Second. lia.
  - rewrite (wrap64_id (maxSec - minSec)) by (unfold minInt64, maxInt64; lia).
    apply runs_bind, runs_Intn; [lia|]. intros k c Hs Hc Hk. apply runs_ret.
    rewrite (wrap64_id (minSec + k)) by (unfold minInt64, maxInt64; lia).
    rewrite wrap64_id by (unfold minInt64, maxInt64, Second; lia).
    now apply Hrnd.
Qed.

End GenerationRuns.

(** A [let] at the head of a computation that is shown to return. *)
Ltac run_let :=
  lazymatch goal with
  | |- runs (let x := ?v in @?b x) ?c ?Q =>
      let y := fresh x in pose (y := v); change (runs (b y) c Q); cbv beta
  end.

(** Extend the account of the context by one step. *)
Ltac run_chain Hs Hc :=
  match type of Hs with
  | sameStatic ?c1 _ =>
      match goal with
      | HS : sameStatic _ c1, HC : format.CallNumber c1 = _ |- _ =>
          let HS' := fresh "HS" in
          pose proof (sameStatic_trans _ _ _ HS Hs) as HS';
          rewrite HC in Hc; clear HS HC Hs
      end
  end.

Ltac run_intros :=
  let c := fresh "c" in let Hs := fresh "Hs" in let Hc := fresh "Hc" in
  intros c Hs Hc; run_chain Hs Hc; cbv beta.

Ltac run_Intn :=
  apply runs_bind, runs_Intn; [lia|];
  let v := fresh "v" in let Hv := fresh "Hv" in
  let c := fresh "c" in let Hs := fresh "Hs" in let Hc := fresh "Hc" in
  intros v c Hs Hc Hv; run_chain Hs Hc; cbv beta.

(** ** Synthetic generation returns a record *)

Section GenerationTotal.
Context {RT : GoRuntime}.
Import gotime format formatctx.
Local Open Scope gen_scope.

Lemma sameStatic_poolsInhabited c c' :
  sameStatic c c' -> poolsInhabited c -> poolsInhabited c'.
Proof.
  intros (_ & _ & a3 & a4 & a5 & _) (b1 & b2 & b3). repeat split; congruence.
Qed.

Lemma defaultPools_inhabited c : defaultPools c -> poolsInhabited c.
Proof.
  intros (H1 & H2 & H3). unfold poolsInhabited. rewrite H1, H2, H3.
  repeat split; discriminate.
Qed.

Lemma d0_length_checked w bound :
  forallb (fun k => Nat.eqb (String.length (gofmt.d0 w (Z.of_nat k))) w)
          (seq 0 bound) = true ->
  forall n, 0 <= n < Z.of_nat bound -> String.length (gofmt.d0 w n) = w.
Proof.
  intros Hall n Hn. rewrite forallb_forall in Hall.
  specialize (Hall (Z.to_nat n)). rewrite Z2Nat.id in Hall by lia.
  apply Nat.eqb_eq, Hall, in_seq. lia.
Qed.

Lemma d0_length_3 n : 0 <= n < 1000 -> String.length (gofmt.d0 3 n) = 3%nat.
Proof. apply (d0_length_checked 3 1000). vm_compute. reflexivity. Qed.

Lemma d0_length_4 n : 0 <= n < 10000 -> String.length (gofmt.d0 4 n) = 4%nat.
Proof. apply (d0_length_checked 4 10000). vm_compute. reflexivity. Qed.

(** A phone number has ten bytes. *)
Lemma formatPhone_length a e s :
  0 <= a < 1000 -> 0 <= e < 1000 -> 0 <= s < 10000 ->
  String.length (formatPhone a e s) = 10%nat.
Proof.
  intros Ha He Hs. unfold formatPhone.
  now rewrite !length_append, !d0_length_3, d0_length_4.
Qed.

Lemma get_in_range s : forall n,
  (n < String.length s)%nat -> exists c, String.get n s = Some c.
Proof.
  induction s as [|x s IH]; intros n Hn; [simpl in Hn; lia|].
  destruct n as [|n]; [now exists x|]. simpl. apply IH. simpl in Hn. lia.
Qed.

Lemma runs_viper_sliceTo n s ctx Q :
  (n <= String.length s)%nat -> Q (gostrings.take n s) ctx ->
  runs (viper.sliceTo n s) ctx Q.
Proof.
  intros Hn H. unfold viper.sliceTo.
  destruct (Nat.ltb_spec (String.length s) n); [lia | exact H].
Qed.

Lemma runs_viper_sliceFrom n s ctx Q :
  (n <= String.length s)%nat -> Q (gostrings.drop n s) ctx ->
  runs (viper.sliceFrom n s) ctx Q.
Proof.
  intros Hn H. unfold viper.sliceFrom.
  destruct (Nat.ltb_spec (String.length s) n); [lia | exact H].
Qed.

Lemma runs_vesta_sliceTo n s ctx Q :
  (n <= String.length s)%nat -> Q (gostrings.take n s) ctx ->
  runs (vesta.sliceTo n s) ctx Q.
Proof.
  intros Hn H. unfold vesta.sliceTo.
  destruct (Nat.ltb_spec (String.length s) n); [lia | exact H].
Qed.

Lemma runs_viper_byteAt chars i ctx Q :
  0 <= i < Z.of_nat (String.length chars) -> (forall b, Q b ctx) ->
  runs (viper.byteAt chars i) ctx Q.
Proof.
  intros Hi H. unfold viper.byteAt. destruct (Z.ltb_spec i 0); [lia|].
  destruct (get_in_range chars (Z.to_nat i)) as [b ->]; [lia | apply H].
Qed.

Lemma runs_vesta_byteAt chars i ctx Q :
  0 <= i < Z.of_nat (String.length chars) -> (forall b, Q b ctx) ->
  runs (vesta.byteAt chars i) ctx Q.
Proof.
  intros Hi H. unfold vesta.byteAt. destruct (Z.ltb_spec i 0); [lia|].
  destruct (get_in_range chars (Z.to_nat i)) as [b ->]; [lia | apply H].
Qed.

Lemma runs_generateRandomIDLoop n : forall sb ctx Q,
  (forall s c, sameStatic ctx c -> CallNumber c = CallNumber ctx -> Q s c) ->
  runs (viper.generateRandomIDLoop n sb) ctx Q.
Proof.
  induction n as [|n IH]; intros sb ctx Q H; simpl.
  - apply runs_ret, H; [apply sameStatic_refl | reflexivity].
  - apply runs_bind, runs_Intn; [reflexivity|]. intros i c Hs Hc Hi.
    apply runs_bind, runs_viper_byteAt; [exact Hi|]. intros b.
    apply IH. intros s c' Hs' Hc'. apply H; [eauto using sameStatic_trans | congruence].
Qed.

Lemma runs_generateSIPCallIDLoop n : forall sb ctx Q,
  (forall s c, sameStatic ctx c -> CallNumber c = CallNumber ctx -> Q s c) ->
  runs (vesta.generateSIPCallIDLoop n sb) ctx Q.
Proof.
  induction n as [|n IH]; intros sb ctx Q H; simpl.
  - apply runs_ret, H; [apply sameStatic_refl | reflexivity].
  - apply runs_bind, runs_Intn; [reflexivity|]. intros i c Hs Hc Hi.
    apply runs_bind, runs_vesta_byteAt; [exact Hi|]. intros b.
    apply IH. intros s c' Hs' Hc'. apply H; [eauto using sameStatic_trans | congruence].
Qed.

(** From a context whose pools are inhabited [GenerateViperRecord]
    returns, without an error; it advances the call number by one and
    leaves the static fields of the context alone. *)
Lemma GenerateViperRecord_runs clock ctx :
  poolsInhabited ctx ->
  runs (viper.GenerateViperRecord clock) ctx
    (fun r c => (exists rec, r = Ok rec) /\ sameStatic ctx c /\
                CallNumber c = wrap64 (CallNumber ctx + 1)).
Proof.
  intros Hpools. unfold viper.GenerateViperRecord.
  apply runs_bind, runs_NextCallNumber. intros c0 HS HC. cbv beta.
  apply runs_bind, runs_RandomPhoneNumber. intros pa pe ps c Hs Hc Hpa Hpe Hps.
  run_chain Hs Hc. cbv beta.
  assert (Hlen := formatPhone_length pa pe ps ltac:(lia) ltac:(lia) Hps).
  apply runs_bind, runs_RandomLocation.
  { apply (sameStatic_poolsInhabited _ _ HS0 Hpools). }
  intros location c1 Hs1 Hc1 _. run_chain Hs1 Hc1. cbv beta.
  apply runs_bind, runs_RandomCarrier.
  { apply (sameStatic_poolsInhabited _ _ HS Hpools). }
  intros carrier c2 Hs2 Hc2 _. run_chain Hs2 Hc2. cbv beta.
  apply runs_bind, runs_RandomAgent.
  { apply (sameStatic_poolsInhabited _ _ HS0 Hpools). }
  intros agent c3 Hs3 Hc3 _. run_chain Hs3 Hc3. cbv beta.
  apply runs_bind, runs_get. cbv beta. repeat run_let.
  apply runs_bind, runs_RandomDuration; [lia | lia | lia |].
  intros k c4 Hs4 Hc4 _ _. run_chain Hs4 Hc4. cbv beta.
  run_Intn. repeat run_let.
  run_Intn. repeat run_let.
  run_Intn. repeat run_let.
  apply runs_bind, runs_viper_sliceTo; [lia|].
  apply runs_bind, runs_generateRandomIDLoop. intros rid c8 Hs8 Hc8.
  run_chain Hs8 Hc8. cbv beta. repeat run_let.
  apply runs_bind, runs_viper_sliceTo.
  { unfold viper.min. destruct (Z.ltb_spec 16 (Z.of_nat (String.length (Address location)))); lia. }
  run_Intn.
  apply runs_bind, runs_index; [exact Hv2|]. intros sector _.
  run_Intn. repeat run_let.
  apply runs_bind, runs_viper_sliceTo; [lia|].
  apply runs_bind, runs_viper_sliceFrom; [lia|].
  apply runs_bind, runs_Float64. intros u c11 Hs11 Hc11. run_chain Hs11 Hc11. cbv beta.
  repeat run_let.
  apply runs_bind, runs_Float32. intros f c12 Hs12 Hc12. run_chain Hs12 Hc12. cbv beta.
  apply runs_bind.
  destruct (PrimFloat.ltb viper.agentThreshold f).
  - unfold viper.generateAgentBlock. apply runs_bind, runs_bind, runs_get.
    run_Intn. run_Intn. apply runs_ret, runs_ret, runs_ret.
    split; [eauto|]. split; assumption.
  - apply runs_ret, runs_ret. split; [eauto|]. split; assumption.
Qed.

(** The same for [GenerateVestaRecord]. *)
Lemma GenerateVestaRecord_runs clock ctx :
  poolsInhabited ctx ->
  runs (vesta.GenerateVestaRecord clock) ctx
    (fun r c => (exists rec, r = Ok rec) /\ sameStatic ctx c /\
                CallNumber c = wrap64 (CallNumber ctx + 1)).
Proof.
  intros Hpools. unfold vesta.GenerateVestaRecord.
  apply runs_bind, runs_NextCallNumber. intros c0 HS HC. cbv beta. repeat run_let.
  apply runs_bind, runs_RandomPhoneNumber. intros pa pe ps c Hs Hc _ _ _.
  run_chain Hs Hc. cbv beta.
  apply runs_bind, runs_RandomPhoneNumber. intros qa qe qs c' Hs' Hc' _ _ _.
  run_chain Hs' Hc'. cbv beta.
  apply runs_bind, runs_RandomLocation.
  { apply (sameStatic_poolsInhabited _ _ HS Hpools). }
  intros location c1 Hs1 Hc1 _. run_chain Hs1 Hc1. cbv beta.
  apply runs_bind, runs_RandomCarrier.
  { apply (sameStatic_poolsInhabited _ _ HS0 Hpools). }
  intros carrier c2 Hs2 Hc2 _. run_chain Hs2 Hc2. cbv beta.
  apply runs_bind, runs_RandomAgent.
  { apply (sameStatic_poolsInhabited _ _ HS Hpools). }
  intros agent c3 Hs3 Hc3 _. run_chain Hs3 Hc3. cbv beta.
  apply runs_bind, runs_get. cbv beta. repeat run_let.
  apply runs_bind, runs_RandomDuration; [lia | lia | lia |].
  intros k c4 Hs4 Hc4 _ _. run_chain Hs4 Hc4. cbv beta. repeat run_let.
  run_Intn. repeat run_let.
  run_Intn. repeat run_let.
  run_Intn.
  apply runs_bind, runs_index; [exact Hv1|]. intros locTech _. cbv beta. repeat run_let.
  apply runs_bind, runs_Float64. intros u c8 Hs8 Hc8. run_chain Hs8 Hc8. cbv beta.
  repeat run_let.
  apply runs_bind, runs_vesta_sliceTo.
  { unfold vesta.min.
    destruct (Z.ltb_spec (Z.of_nat (String.length (City location))) 20); lia. }
  apply runs_bind, runs_Float64. intros u2 c9 Hs9 Hc9. run_chain Hs9 Hc9. cbv beta.
  repeat run_let.
  unfold vesta.generateSIPCallID.
  apply runs_bind, runs_bind, runs_generateSIPCallIDLoop. intros sb c10 Hs10 Hc10.
  run_chain Hs10 Hc10. cbv beta.
  apply runs_ret. repeat run_let. apply runs_ret.
  split; [eauto|]. split; assumption.
Qed.

(** With an empty pool generation panics at the pick from it. *)
Lemma generation_panics_on_empty_pool clock ctx :
  LocationPool ctx = [] ->
  viper.GenerateViperRecord clock ctx = None /\
  vesta.GenerateVestaRecord clock ctx = None.
Proof.
  intros Hloc.
  assert (Hphone : forall c, LocationPool c = [] ->
            match RandomPhoneNumber c with
            | Some (_, c') => LocationPool c' = []
            | None => True
            end).
  { intros c Hc. generalize (fun Q H => post_RandomPhoneNumber c Q H). unfold post.
    intros H. apply H. intros a e s c' (_ & _ & _ & Hl & _) _ _ _ _. congruence. }
  split.
  - unfold viper.GenerateViperRecord, bind at 1, NextCallNumber.
    unfold bind at 1.
    pose proof (Hphone (setCallNumber ctx (wrap64 (CallNumber ctx + 1))) Hloc) as Hp.
    destruct (RandomPhoneNumber _) as [[ani c1]|]; [|reflexivity].
    unfold bind at 1. now rewrite RandomLocation_empty_pool.
  - unfold vesta.GenerateVestaRecord, bind at 1, NextCallNumber.
    unfold bind at 1.
    pose proof (Hphone (setCallNumber ctx (wrap64 (CallNumber ctx + 1))) Hloc) as Hp.
    destruct (RandomPhoneNumber _) as [[ani c1]|]; [|reflexivity].
    unfold bind at 1. pose proof (Hphone c1 Hp) as Hp2.
    destruct (RandomPhoneNumber _) as [[cpn c2]|]; [|reflexivity].
    unfold bind at 1. now rewrite RandomLocation_empty_pool.
Qed.

End GenerationTotal.

(** ** Synthesized records read back *)

Section GenerationReparse.
Context {RT : GoRuntime}.
Import gotime format samplelog.

(** C4.  From a context whose pools are inhabited the vesta generator
    returns a record, and whenever the messages a parser reads are the
    lines of that record in order, [ParseVestaCSV] yields exactly one
    block, with the same lines.  The viper generator, from a context with
    the default pools, returns a record as well, but it reads back as a
    single block only when it carries no agent block: then
    [ParseViperCSV] yields the call block alone; a record with an agent
    block reads back as exactly two blocks, the call block and the agent
    block.  Either way the lines of the blocks are the lines of the
    record that are not blank. *)
Theorem synthetic_record_reparse (clock now : Time) (ctx : GenerationContext) :
  poolsInhabited ctx ->
  runs (vesta.GenerateVestaRecord clock) ctx
    (fun r _ =>
       exists rec, r = Ok rec /\
         forall rows, map Message (messagesOf rows) = Lines rec ->
           exists blk, vesta.ParseVestaCSV now (Ok rows) = Ok [blk] /\
                       Type_ blk = "cdr" /\ Lines blk = Lines rec) /\
  (defaultPools ctx ->
   runs (viper.GenerateViperRecord clock) ctx
     (fun r _ =>
        exists rec, r = Ok rec /\
          forall rows, map Message (messagesOf rows) = Lines rec ->
            (~ In viper.ViperAgentEnd (Lines rec) /\
             exists blk, viper.ParseViperCSV now (Ok rows) = Ok [blk] /\
                         Type_ blk = "cdr" /\
                         Lines blk = nonBlank (Lines rec)) \/
            (In viper.ViperAgentEnd (Lines rec) /\
             exists b1 b2, viper.ParseViperCSV now (Ok rows) = Ok [b1; b2] /\
                           Type_ b1 = "cdr" /\ Type_ b2 = "agent" /\
                           Lines b1 ++ Lines b2 = nonBlank (Lines rec)))).
Proof.
  intros Hpools. split.
  - eapply runs_mono;
      [|apply (runs_post _ _ _ _ (GenerateVestaRecord_runs clock ctx Hpools)
                 (GenerateVestaRecord_shape clock ctx))].
    intros r c [_ (rec & body & -> & Hlines & Hbody & Hlen)].
    exists rec. split; [reflexivity|]. intros rows Hrows.
    unfold vesta.ParseVestaCSV. rewrite Hlines in Hrows.
    apply map_eq_app in Hrows as (mb & ms & Hm & Hmb & Hms).
    destruct ms as [|sep [|? ?]]; try discriminate Hms.
    injection Hms as Hsep. rewrite Hm.
    change (mb ++ [sep]) with ([] ++ mb ++ sep :: []).
    rewrite (vesta_groupBlocks_closed_block now [] mb sep []);
      [| exact I | | now rewrite Hmb | exact Hsep].
    + eexists. split; [reflexivity|]. split; [reflexivity|].
      cbn [Lines vestaBlockRecord vesta.mkRecord]. now rewrite Hmb, Hlines.
    + intros ->. subst body. discriminate Hlen.
  - intros Hdef.
    eapply runs_mono;
      [|apply (runs_post _ _ _ _ (GenerateViperRecord_runs clock ctx Hpools)
                 (GenerateViperRecord_shape clock ctx Hdef))].
    intros r c [_ (rec & -> & Hshape)].
    exists rec. split; [reflexivity|]. intros rows Hrows.
    unfold viper.ParseViperCSV. rewrite <- Hrows in *.
    destruct (groupBlocks_viperShape now _ Hshape)
      as [(Hno & blk & -> & Ht & Hl) | (Hin & b1 & b2 & -> & Ht1 & Ht2 & Hl)].
    + left. split; [exact Hno|]. now exists blk.
    + right. split; [exact Hin|]. now exists b1, b2.
Qed.

End GenerationReparse.

(** ** Reading a captured log back *)

Section ReadBack.
Import samplelog.

Lemma parseDigits_cons acc c r v :
  strconv.digitVal c = Some v ->
  strconv.parseDigits acc (String c r) = strconv.parseDigits (acc * 10 + v) r.
Proof. intros H. simpl. now rewrite H. Qed.

Lemma parseDigits_acc u : forall acc,
  strconv.parseDigits (Z.pos acc) (NilEmpty.string_of_uint u) =
    Some (Z.pos (Pos.of_uint_acc u acc)).
Proof.
  induction u as [|u IH|u IH|u IH|u IH|u IH|u IH|u IH|u IH|u IH|u IH];
    intros acc; [reflexivity | ..];
    cbn [NilEmpty.string_of_uint Pos.of_uint_acc];
    lazymatch goal with
    | |- strconv.parseDigits _ (String ?c _) = Some (Z.pos (Pos.of_uint_acc _ ?p)) =>
        let v := eval vm_compute in (strconv.digitVal c) in
        lazymatch v with
        | Some ?k =>
            rewrite (parseDigits_cons _ c _ k eq_refl);
            replace (Z.pos acc * 10 + k) with (Z.pos p) by lia; apply IH
        end
    end.
Qed.

Lemma parseDigits_uint u :
  strconv.parseDigits 0 (NilEmpty.string_of_uint u) = Some (Z.of_N (Pos.of_uint u)).
Proof.
  induction u as [|u IH|u IH|u IH|u IH|u IH|u IH|u IH|u IH|u IH|u IH];
    [reflexivity | exact IH | ..]; exact (parseDigits_acc u _).
Qed.

(** The digits [%d] writes are read back as the number. *)
Lemma parseDigits_digits n :
  0 <= n -> strconv.parseDigits 0 (gofmt.digits n) = Some n.
Proof.
  intros Hn. unfold gofmt.digits.
  replace (NilZero.string_of_uint (N.to_uint (Z.to_N (Z.abs n))))
    with (NilEmpty.string_of_uint (N.to_uint (Z.to_N (Z.abs n)))).
  - rewrite parseDigits_uint. change Pos.of_uint with N.of_uint.
    rewrite DecimalN.Unsigned.of_to. f_equal. lia.
  - destruct (Z.to_N (Z.abs n)) as [|p]; [reflexivity|].
    simpl. pose proof (DecimalPos.Unsigned.to_uint_nonnil p).
    now destruct (Pos.to_uint p).
Qed.

Lemma digitVal_not_sign c v :
  strconv.digitVal c = Some v -> Ascii.eqb c "+" = false /\ Ascii.eqb c "-" = false.
Proof.
  intros H. split.
  - destruct (Ascii.eqb_spec c "+") as [->|]; [discriminate | reflexivity].
  - destruct (Ascii.eqb_spec c "-") as [->|]; [discriminate | reflexivity].
Qed.

Lemma digits_digitStart n : digitStart (gofmt.digits n) = true.
Proof. apply string_of_uint_digitStart. Qed.

(** [ParseInt] reads back what [%d] writes of a 64-bit integer. *)
Lemma ParseInt_d n :
  minInt64 <= n <= maxInt64 -> strconv.ParseInt (gofmt.d n) = Some n.
Proof.
  unfold minInt64, maxInt64. intros Hn. unfold gofmt.d.
  destruct (Z.ltb_spec n 0) as [Hneg|Hpos].
  - rewrite append_cons, append_nil_l. unfold strconv.ParseInt.
    change (Ascii.eqb "-" "-") with true. change (Ascii.eqb "-" "+" || true) with true.
    cbv beta iota zeta.
    pose proof (digits_digitStart n) as Hd.
    replace (gofmt.digits n) with (gofmt.digits (- n)) in *
      by (unfold gofmt.digits; now rewrite Z.abs_opp).
    destruct (gofmt.digits (- n)) as [|c r] eqn:E; [discriminate|].
    rewrite <- E, parseDigits_digits by lia.
    destruct (Z.leb_spec (- n) (2 ^ 63)); [f_equal; lia | lia].
  - pose proof (digits_digitStart n) as Hd. unfold strconv.ParseInt.
    destruct (gofmt.digits n) as [|c r] eqn:E; [discriminate|].
    simpl in Hd. destruct (strconv.digitVal c) as [v|] eqn:Ev; [|discriminate].
    destruct (digitVal_not_sign c v Ev) as [-> ->]. cbv beta iota zeta. simpl orb.
    cbv iota. rewrite <- E, parseDigits_digits by lia.
    destruct (Z.ltb_spec n (2 ^ 63)); [reflexivity | lia].
Qed.

Lemma d_not_header n : String.eqb (gofmt.d n) "sysident" = false.
Proof.
  unfold gofmt.d. destruct (n <? 0); [reflexivity|].
  pose proof (digits_digitStart n) as Hd.
  destruct (gofmt.digits n) as [|c r]; [reflexivity|]. simpl in Hd.
  rewrite eqb_cons. destruct (Ascii.eqb_spec c "s") as [->|]; [discriminate | reflexivity].
Qed.

(** Rows whose first fields are the 64-bit numbers [ms] carry, written
    with [%d], are all read, each as its message. *)
Lemma readRows_written ms : forall i,
  Forall (fun m => minInt64 <= SysIdent m <= maxInt64) ms ->
  readRows i (map (fun m => (gofmt.d (SysIdent m), Message m)) ms) = ms.
Proof.
  induction ms as [|[k l] ms IH]; intros i Hall; [reflexivity|].
  apply Forall_cons in Hall as [Hk Hall]. simpl in *.
  rewrite d_not_header, andb_false_r, (ParseInt_d k Hk), IH by exact Hall. reflexivity.
Qed.

Lemma capturedMessages_from n lines :
  Sorted byIdent
    (imap (fun i l => {| SysIdent := Z.of_nat (S (n + i)); Message := l |}) lines).
Proof.
  revert n. induction lines as [|x lines IH]; intros n; [constructor|].
  rewrite imap_cons. constructor.
  - specialize (IH (S n)). erewrite imap_ext; [exact IH|].
    intros i y _. simpl. do 2 f_equal. lia.
  - destruct lines as [|y lines]; [constructor|]. rewrite imap_cons. constructor.
    unfold byIdent. simpl. lia.
Qed.

Lemma capturedMessages_sorted lines : Sorted byIdent (capturedMessages lines).
Proof. apply (capturedMessages_from 0). Qed.

Lemma capturedMessages_texts lines : map Message (capturedMessages lines) = lines.
Proof.
  unfold capturedMessages. change (map Message) with (fmap (M := list) Message).
  rewrite fmap_imap. simpl.
  rewrite (imap_ext _ (const id)) by reflexivity. rewrite imap_const. apply list_fmap_id.
Qed.

Lemma elem_of_rev {A} (x : A) l : x ∈ rev l <-> x ∈ l.
Proof. rewrite !list_elem_of_In. symmetry. apply in_rev. Qed.

(** A log captured newest first is read back oldest first: the messages
    the block loop sees carry the captured lines in their order. *)
Lemma messagesOf_captureLog lines :
  Z.of_nat (length lines) <= maxInt64 ->
  messagesOf (captureLog lines) = capturedMessages lines.
Proof.
  intros Hlen. unfold messagesOf, sortMessages.
  assert (Hrows : captureLog lines =
            map (fun m => (gofmt.d (SysIdent m), Message m)) (rev (capturedMessages lines))).
  { unfold captureLog, capturedMessages. rewrite map_rev. f_equal.
    change (map ?f ?l) with (fmap (M := list) f l). rewrite fmap_imap. reflexivity. }
  assert (Hrange : Forall (fun m => minInt64 <= SysIdent m <= maxInt64)
                     (rev (capturedMessages lines))).
  { apply Forall_forall. intros m Hm. apply (proj1 (elem_of_rev _ _)) in Hm.
    apply elem_of_lookup_imap in Hm as (i & y & -> & Hi). apply lookup_lt_Some in Hi.
    simpl. unfold minInt64, maxInt64 in *. lia. }
  rewrite Hrows, (readRows_written _ 0 Hrange).
  assert (Htrans : Transitive byIdent) by (intros x y z; unfold byIdent; lia).
  apply (Sorted_unique_strong byIdent).
  - intros x1 x2 H1 H2 H12 H21.
    rewrite merge_sort_Permutation in H1. apply (proj1 (elem_of_rev _ _)) in H1.
    apply elem_of_lookup_imap in H1 as (i & y & -> & Hi).
    apply elem_of_lookup_imap in H2 as (j & z & -> & Hj).
    unfold byIdent in *. simpl in *. assert (i = j) by lia. subst j.
    congruence.
  - apply Sorted_merge_sort. intros x y. unfold byIdent. lia.
  - apply capturedMessages_sorted.
  - rewrite merge_sort_Permutation. symmetry. apply Permutation_rev.
Qed.

End ReadBack.

(** The read-back theorem on the sample context: the vesta record it
    generates, captured and parsed, is one block. *)
Lemma synthetic_record_reparse_sample :
  reparseCount (vesta.ParseVestaCSV 0)
    (vesta.GenerateVestaRecord (RT := sampleRuntime) 5 sampleContext) = Some 1%nat.
Proof.
  destruct (synthetic_record_reparse (RT := sampleRuntime) 5 0 sampleContext) as [Hv _].
  { repeat split; discriminate. }
  apply runs_elim in Hv as (r & c & E & rec & -> & H).
  pose proof (post_elim _ _ _ _ _
                (GenerateVestaRecord_shape (RT := sampleRuntime) 5 sampleContext) E)
    as (rec' & body & Hrec & Hlines & _ & Hlen).
  injection Hrec as <-.
  rewrite E. unfold reparseCount.
  destruct (H (captureLog (format.Lines rec))) as (blk & -> & _); [|reflexivity].
  rewrite messagesOf_captureLog; [apply capturedMessages_texts|].
  rewrite Hlines, length_app, Hlen. vm_compute. discriminate.
Defined.

(** The viper record generated from the sample context carries an agent
    block; captured and parsed, it is two blocks. *)
Lemma viper_record_reparses_as_two_blocks :
  reparseCount (viper.ParseViperCSV 0)
    (viper.GenerateViperRecord (RT := sampleRuntime) 5 sampleContext) = Some 2%nat.
Proof. vm_compute. reflexivity. Qed.
